(** * MCP2515 SPI CAN controller driver: the asynchronous transaction core

    A shallow embedding of [drivers/net/can/spi/mcp2515.c]: the frame codec
    ([mcp2515_set_txbuf], [mcp2515_read_rxb_complete]), the seven SPI
    completion callbacks, the three wake sources (tasklet, fallback timer,
    [ndo_start_xmit]) and the transmit slot bookkeeping.

    Integers are [Z] with the C truncation written out ([u8], [u32], ...);
    arrays are lists read with [!!] and written with [<[i:=x]>]; the driver's
    private struct and the pieces of the kernel it talks to are records that
    every function threads through a small state-and-fault monad. *)

From Stdlib Require Import ZArith Lia Bool List.
From stdpp Require Import base list.
Import ListNotations.

Local Open Scope Z_scope.

(** ** Machine integers *)

Definition u8 (x : Z) : Z := Z.land x 255.
Definition u32 (x : Z) : Z := Z.land x 4294967295.

(** [unsigned long] of a 64-bit build *)
Definition BITS_PER_LONG : Z := 64.
Definition ulong (x : Z) : Z := x mod 2 ^ BITS_PER_LONG.

(** [BIT(n)] is [1UL << n] *)
Definition BIT (n : Z) : Z := Z.shiftl 1 n.

(** a C condition: non-zero is true *)
Definition nonzero (x : Z) : bool := negb (x =? 0).

(** ** Constants of the register protocol *)

Definition MCP2515_INSTRUCTION_WRITE : Z := 0x02.
Definition MCP2515_INSTRUCTION_READ : Z := 0x03.
Definition MCP2515_INSTRUCTION_BIT_MODIFY : Z := 0x05.
Definition MCP2515_INSTRUCTION_LOAD_TXB (n : Z) : Z := 0x40 + Z.shiftl n 1.
Definition MCP2515_INSTRUCTION_RTS (n : Z) : Z := 0x80 + Z.shiftl 1 n.
Definition MCP2515_INSTRUCTION_READ_RXB (n : Z) : Z := 0x90 + Z.shiftl n 2.

Definition CANINTF : Z := 0x2c.
Definition EFLAG : Z := 0x2d.

Definition CANINTF_RX0IF : Z := BIT 0.
Definition CANINTF_RX1IF : Z := BIT 1.
Definition CANINTF_TX0IF : Z := BIT 2.
Definition CANINTF_TX1IF : Z := BIT 3.
Definition CANINTF_TX2IF : Z := BIT 4.

Definition EFLG_RX0OVR : Z := BIT 6.
Definition EFLG_RX1OVR : Z := BIT 7.

Definition RXBSIDL_IDE : Z := BIT 3.
Definition RXBSIDL_SRR : Z := BIT 4.
Definition RXBDLC_RTR : Z := BIT 6.

Definition MCP2515_TX_CNT : Z := 3.

(** [#define TX_MAP_BUSY (1 << MCP2515_TX_CNT) - 1]: the macro has no outer
    parentheses; at both of its uses it stands to the right of a comparison,
    where [-] binds tighter, so it is read as this value. *)
Definition TX_MAP_BUSY : Z := Z.shiftl 1 MCP2515_TX_CNT - 1.

(** the timer period, in milliseconds (the source converts it to jiffies) *)
Definition READ_FLAGS_TIMER_VAL_MS : Z := 200.

(** From [linux/can.h], which the driver includes. *)
Definition CAN_EFF_FLAG : Z := 0x80000000.
Definition CAN_RTR_FLAG : Z := 0x40000000.
Definition CAN_ERR_FLAG : Z := 0x20000000.
Definition CAN_SFF_MASK : Z := 0x000007FF.
Definition CAN_EFF_MASK : Z := 0x1FFFFFFF.
Definition CAN_MAX_DLC : Z := 8.

(** Modelled from the spec: the macro [get_can_dlc] lives in
    [linux/can/dev.h]; the data length is "clamped to a maximum of 8". *)
Definition get_can_dlc (i : Z) : Z := Z.min (u8 i) CAN_MAX_DLC.

(** ** Frames *)

(** [struct can_frame]: [can_id] is a [u32] carrying the identifier and the
    EFF/RTR/ERR flags, [can_dlc] a [u8], [data] eight bytes. *)
Record can_frame := CanFrame {
  can_id : Z;
  can_dlc : Z;
  data : list Z
}.

(** An [sk_buff] of this driver carries exactly one frame in [skb->data]. *)
Record sk_buff := SkBuff { skb_data : can_frame }.

Definition is_byte (b : Z) : Prop := 0 <= b < 256.

(** [buf[i]] on a byte array *)
Definition rd (buf : list Z) (i : nat) : Z := default 0 (buf !! i).

(** [memcpy(dst + off, src, n)] *)
Definition memcpy (dst : list Z) (off : nat) (src : list Z) (n : nat) : list Z :=
  list_inserts off (take n src) dst.

(** ** The transmit encoder *)

(** [mcp2515_set_txbuf(buf, skb)]: [buf] is the view that starts at TXBnSIDH. *)
Definition mcp2515_set_txbuf (buf : list Z) (skb : sk_buff) : list Z * Z :=
  let frame := skb_data skb in
  let buf :=
    if nonzero (Z.land (can_id frame) CAN_EFF_FLAG) then
      let buf := <[0%nat := u8 (Z.shiftr (can_id frame) 21)]> buf in
      let buf := <[1%nat := u8 (Z.lor (Z.lor (Z.land (Z.shiftr (can_id frame) 13) 0xe0) 8)
                                      (Z.land (Z.shiftr (can_id frame) 16) 3))]> buf in
      let buf := <[2%nat := u8 (Z.shiftr (can_id frame) 8)]> buf in
      <[3%nat := u8 (can_id frame)]> buf
    else
      let buf := <[0%nat := u8 (Z.shiftr (can_id frame) 3)]> buf in
      let buf := <[1%nat := u8 (u32 (Z.shiftl (can_id frame) 5))]> buf in
      let buf := <[2%nat := 0]> buf in
      <[3%nat := 0]> buf in
  let buf := <[4%nat := can_dlc frame]> buf in
  let buf :=
    if nonzero (Z.land (can_id frame) CAN_RTR_FLAG)
    then <[4%nat := u8 (Z.lor (rd buf 4) 0x40)]> buf
    else buf in
  let buf := memcpy buf 5 (data frame) (Z.to_nat (can_dlc frame)) in
  (buf, 5 + can_dlc frame).

(** ** The receive decoder *)

(** The part of [mcp2515_read_rxb_complete] after a successful
    [alloc_can_skb]: [frame] is the freshly allocated frame, [buf] the 14
    received bytes (instruction slot, SIDH, SIDL, EID8, EID0, DLC, data). *)
Definition mcp2515_decode_rxb (frame : can_frame) (buf : list Z) : can_frame :=
  let id :=
    if nonzero (Z.land (rd buf 2) RXBSIDL_IDE) then
      let id := u32 (Z.lor (Z.lor (Z.lor (Z.lor (Z.lor
                  (Z.shiftl (rd buf 1) 21)
                  (Z.shiftl (Z.land (rd buf 2) 0xe0) 13))
                  (Z.shiftl (Z.land (rd buf 2) 3) 16))
                  (Z.shiftl (rd buf 3) 8))
                  (rd buf 4))
                  CAN_EFF_FLAG) in
      if nonzero (Z.land (rd buf 5) RXBDLC_RTR)
      then u32 (Z.lor id CAN_RTR_FLAG) else id
    else
      let id := u32 (Z.lor (Z.shiftl (rd buf 1) 3) (Z.shiftr (rd buf 2) 5)) in
      if nonzero (Z.land (rd buf 2) RXBSIDL_SRR)
      then u32 (Z.lor id CAN_RTR_FLAG) else id in
  let dlc := get_can_dlc (Z.land (rd buf 5) 0xf) in
  let payload :=
    if negb (nonzero (Z.land id CAN_RTR_FLAG))
    then memcpy (data frame) 0 (drop 6 buf) (Z.to_nat dlc)
    else data frame in
  CanFrame id dlc payload.

(** ** The driver's state *)

(** The value of [priv->message.complete]: which completion callback the SPI
    core will invoke. *)
Inductive callback :=
| Cb_read_flags
| Cb_read_rxb0
| Cb_read_rxb1
| Cb_clear_canintf
| Cb_clear_eflg
| Cb_load_txb
| Cb_rts_txb.

(** One call of [spi_async], as the transport saw it: the bytes of the
    transfer, the completion callback installed at that moment, whether the
    transport accepted the message, and the value of [priv->busy] when the
    call was made. *)
Record spi_call := SpiCall {
  call_tx : list Z;
  call_complete : option callback;
  call_accepted : bool;
  call_busy : bool
}.

(** [struct mcp2515_priv], the fields the asynchronous core uses. *)
Record mcp2515_priv := Priv {
  canintf : Z;  (* last read value of CANINTF register *)
  eflg : Z;  (* last read value of EFLG register *)
  skb : list (option sk_buff);  (* struct sk_buff *skb[MCP2515_TX_CNT] *)
  lock : bool;  (* the spinlock: true while held *)
  busy : bool;  (* set when pending async spi transaction *)
  interrupt : bool;  (* set when pending interrupt handling *)
  netif_queue_stopped : bool;
  loaded_txb : Z;  (* the currently loaded transmit buffer *)
  tx_busy_map : Z;  (* set for busy transmit buffer(s) *)
  tx_pending_map : Z;  (* set for transmit buffer(s) pending a transmission *)
  extra : bool;  (* set when the timer tried reading CANINTF *)
  skip : Z;
  message_complete : option callback;  (* message.complete; None is NULL *)
  transfer_len : Z;  (* transfer.len *)
  rx_buf : list Z;  (* u8 rx_buf[14] *)
  tx_buf : list Z;  (* u8 tx_buf[14] *)
  timer : option Z  (* pending expiry of the fallback timer, in ms *)
}.

Definition set_canintf (v : Z) (p : mcp2515_priv) : mcp2515_priv :=
  Priv v (eflg p) (skb p) (lock p) (busy p) (interrupt p)
    (netif_queue_stopped p) (loaded_txb p) (tx_busy_map p) (tx_pending_map p)
    (extra p) (skip p) (message_complete p) (transfer_len p) (rx_buf p)
    (tx_buf p) (timer p).
Definition set_eflg (v : Z) (p : mcp2515_priv) : mcp2515_priv :=
  Priv (canintf p) v (skb p) (lock p) (busy p) (interrupt p)
    (netif_queue_stopped p) (loaded_txb p) (tx_busy_map p) (tx_pending_map p)
    (extra p) (skip p) (message_complete p) (transfer_len p) (rx_buf p)
    (tx_buf p) (timer p).
Definition set_skb (v : list (option sk_buff)) (p : mcp2515_priv) : mcp2515_priv :=
  Priv (canintf p) (eflg p) v (lock p) (busy p) (interrupt p)
    (netif_queue_stopped p) (loaded_txb p) (tx_busy_map p) (tx_pending_map p)
    (extra p) (skip p) (message_complete p) (transfer_len p) (rx_buf p)
    (tx_buf p) (timer p).
Definition set_lock (v : bool) (p : mcp2515_priv) : mcp2515_priv :=
  Priv (canintf p) (eflg p) (skb p) v (busy p) (interrupt p)
    (netif_queue_stopped p) (loaded_txb p) (tx_busy_map p) (tx_pending_map p)
    (extra p) (skip p) (message_complete p) (transfer_len p) (rx_buf p)
    (tx_buf p) (timer p).
Definition set_busy (v : bool) (p : mcp2515_priv) : mcp2515_priv :=
  Priv (canintf p) (eflg p) (skb p) (lock p) v (interrupt p)
    (netif_queue_stopped p) (loaded_txb p) (tx_busy_map p) (tx_pending_map p)
    (extra p) (skip p) (message_complete p) (transfer_len p) (rx_buf p)
    (tx_buf p) (timer p).
Definition set_interrupt (v : bool) (p : mcp2515_priv) : mcp2515_priv :=
  Priv (canintf p) (eflg p) (skb p) (lock p) (busy p) v
    (netif_queue_stopped p) (loaded_txb p) (tx_busy_map p) (tx_pending_map p)
    (extra p) (skip p) (message_complete p) (transfer_len p) (rx_buf p)
    (tx_buf p) (timer p).
Definition set_netif_queue_stopped (v : bool) (p : mcp2515_priv) : mcp2515_priv :=
  Priv (canintf p) (eflg p) (skb p) (lock p) (busy p) (interrupt p) v
    (loaded_txb p) (tx_busy_map p) (tx_pending_map p) (extra p) (skip p)
    (message_complete p) (transfer_len p) (rx_buf p) (tx_buf p) (timer p).
Definition set_loaded_txb (v : Z) (p : mcp2515_priv) : mcp2515_priv :=
  Priv (canintf p) (eflg p) (skb p) (lock p) (busy p) (interrupt p)
    (netif_queue_stopped p) v (tx_busy_map p) (tx_pending_map p) (extra p)
    (skip p) (message_complete p) (transfer_len p) (rx_buf p) (tx_buf p)
    (timer p).
Definition set_tx_busy_map (v : Z) (p : mcp2515_priv) : mcp2515_priv :=
  Priv (canintf p) (eflg p) (skb p) (lock p) (busy p) (interrupt p)
    (netif_queue_stopped p) (loaded_txb p) v (tx_pending_map p) (extra p)
    (skip p) (message_complete p) (transfer_len p) (rx_buf p) (tx_buf p)
    (timer p).
Definition set_tx_pending_map (v : Z) (p : mcp2515_priv) : mcp2515_priv :=
  Priv (canintf p) (eflg p) (skb p) (lock p) (busy p) (interrupt p)
    (netif_queue_stopped p) (loaded_txb p) (tx_busy_map p) v (extra p)
    (skip p) (message_complete p) (transfer_len p) (rx_buf p) (tx_buf p)
    (timer p).
Definition set_extra (v : bool) (p : mcp2515_priv) : mcp2515_priv :=
  Priv (canintf p) (eflg p) (skb p) (lock p) (busy p) (interrupt p)
    (netif_queue_stopped p) (loaded_txb p) (tx_busy_map p) (tx_pending_map p)
    v (skip p) (message_complete p) (transfer_len p) (rx_buf p) (tx_buf p)
    (timer p).
Definition set_skip (v : Z) (p : mcp2515_priv) : mcp2515_priv :=
  Priv (canintf p) (eflg p) (skb p) (lock p) (busy p) (interrupt p)
    (netif_queue_stopped p) (loaded_txb p) (tx_busy_map p) (tx_pending_map p)
    (extra p) v (message_complete p) (transfer_len p) (rx_buf p) (tx_buf p)
    (timer p).
Definition set_message_complete (v : option callback) (p : mcp2515_priv) : mcp2515_priv :=
  Priv (canintf p) (eflg p) (skb p) (lock p) (busy p) (interrupt p)
    (netif_queue_stopped p) (loaded_txb p) (tx_busy_map p) (tx_pending_map p)
    (extra p) (skip p) v (transfer_len p) (rx_buf p) (tx_buf p) (timer p).
Definition set_transfer_len (v : Z) (p : mcp2515_priv) : mcp2515_priv :=
  Priv (canintf p) (eflg p) (skb p) (lock p) (busy p) (interrupt p)
    (netif_queue_stopped p) (loaded_txb p) (tx_busy_map p) (tx_pending_map p)
    (extra p) (skip p) (message_complete p) v (rx_buf p) (tx_buf p) (timer p).
Definition set_rx_buf (v : list Z) (p : mcp2515_priv) : mcp2515_priv :=
  Priv (canintf p) (eflg p) (skb p) (lock p) (busy p) (interrupt p)
    (netif_queue_stopped p) (loaded_txb p) (tx_busy_map p) (tx_pending_map p)
    (extra p) (skip p) (message_complete p) (transfer_len p) v (tx_buf p)
    (timer p).
Definition set_tx_buf (v : list Z) (p : mcp2515_priv) : mcp2515_priv :=
  Priv (canintf p) (eflg p) (skb p) (lock p) (busy p) (interrupt p)
    (netif_queue_stopped p) (loaded_txb p) (tx_busy_map p) (tx_pending_map p)
    (extra p) (skip p) (message_complete p) (transfer_len p) (rx_buf p) v
    (timer p).
Definition set_timer (v : option Z) (p : mcp2515_priv) : mcp2515_priv :=
  Priv (canintf p) (eflg p) (skb p) (lock p) (busy p) (interrupt p)
    (netif_queue_stopped p) (loaded_txb p) (tx_busy_map p) (tx_pending_map p)
    (extra p) (skip p) (message_complete p) (transfer_len p) (rx_buf p)
    (tx_buf p) v.

(** The kernel objects around the driver: [dev->stats], the state of the
    host transmit queue, the frames delivered upwards, and the SPI core's
    view of [priv->message]. The message is one shared object: queueing it
    twice would queue the same buffers and the same callback pointer, so the
    transport holds a count, not copies. *)
Record net_device := NetDev {
  rx_packets : Z;  (* dev->stats *)
  rx_bytes : Z;
  rx_dropped : Z;
  rx_over_errors : Z;
  tx_packets : Z;
  tx_bytes : Z;
  queue_stopped : bool;  (* netif_stop_queue / netif_wake_queue *)
  rx_delivered : list can_frame;  (* frames handed to netif_rx_ni, newest first *)
  spi_inflight : nat;  (* times &priv->message is queued and not completed *)
  spi_log : list spi_call;  (* every spi_async call, newest first *)
  err_log : nat;  (* netdev_err lines *)
  unlocked_busy_writes : nat  (* writes of priv->busy made without the lock *)
}.

Definition set_rx_packets (v : Z) (d : net_device) : net_device :=
  NetDev v (rx_bytes d) (rx_dropped d) (rx_over_errors d) (tx_packets d)
    (tx_bytes d) (queue_stopped d) (rx_delivered d) (spi_inflight d)
    (spi_log d) (err_log d) (unlocked_busy_writes d).
Definition set_rx_bytes (v : Z) (d : net_device) : net_device :=
  NetDev (rx_packets d) v (rx_dropped d) (rx_over_errors d) (tx_packets d)
    (tx_bytes d) (queue_stopped d) (rx_delivered d) (spi_inflight d)
    (spi_log d) (err_log d) (unlocked_busy_writes d).
Definition set_rx_dropped (v : Z) (d : net_device) : net_device :=
  NetDev (rx_packets d) (rx_bytes d) v (rx_over_errors d) (tx_packets d)
    (tx_bytes d) (queue_stopped d) (rx_delivered d) (spi_inflight d)
    (spi_log d) (err_log d) (unlocked_busy_writes d).
Definition set_rx_over_errors (v : Z) (d : net_device) : net_device :=
  NetDev (rx_packets d) (rx_bytes d) (rx_dropped d) v (tx_packets d)
    (tx_bytes d) (queue_stopped d) (rx_delivered d) (spi_inflight d)
    (spi_log d) (err_log d) (unlocked_busy_writes d).
Definition set_tx_packets (v : Z) (d : net_device) : net_device :=
  NetDev (rx_packets d) (rx_bytes d) (rx_dropped d) (rx_over_errors d) v
    (tx_bytes d) (queue_stopped d) (rx_delivered d) (spi_inflight d)
    (spi_log d) (err_log d) (unlocked_busy_writes d).
Definition set_tx_bytes (v : Z) (d : net_device) : net_device :=
  NetDev (rx_packets d) (rx_bytes d) (rx_dropped d) (rx_over_errors d)
    (tx_packets d) v (queue_stopped d) (rx_delivered d) (spi_inflight d)
    (spi_log d) (err_log d) (unlocked_busy_writes d).
Definition set_queue_stopped (v : bool) (d : net_device) : net_device :=
  NetDev (rx_packets d) (rx_bytes d) (rx_dropped d) (rx_over_errors d)
    (tx_packets d) (tx_bytes d) v (rx_delivered d) (spi_inflight d)
    (spi_log d) (err_log d) (unlocked_busy_writes d).
Definition set_rx_delivered (v : list can_frame) (d : net_device) : net_device :=
  NetDev (rx_packets d) (rx_bytes d) (rx_dropped d) (rx_over_errors d)
    (tx_packets d) (tx_bytes d) (queue_stopped d) v (spi_inflight d)
    (spi_log d) (err_log d) (unlocked_busy_writes d).
Definition set_spi_inflight (v : nat) (d : net_device) : net_device :=
  NetDev (rx_packets d) (rx_bytes d) (rx_dropped d) (rx_over_errors d)
    (tx_packets d) (tx_bytes d) (queue_stopped d) (rx_delivered d) v
    (spi_log d) (err_log d) (unlocked_busy_writes d).
Definition set_spi_log (v : list spi_call) (d : net_device) : net_device :=
  NetDev (rx_packets d) (rx_bytes d) (rx_dropped d) (rx_over_errors d)
    (tx_packets d) (tx_bytes d) (queue_stopped d) (rx_delivered d)
    (spi_inflight d) v (err_log d) (unlocked_busy_writes d).
Definition set_err_log (v : nat) (d : net_device) : net_device :=
  NetDev (rx_packets d) (rx_bytes d) (rx_dropped d) (rx_over_errors d)
    (tx_packets d) (tx_bytes d) (queue_stopped d) (rx_delivered d)
    (spi_inflight d) (spi_log d) v (unlocked_busy_writes d).
Definition set_unlocked_busy_writes (v : nat) (d : net_device) : net_device :=
  NetDev (rx_packets d) (rx_bytes d) (rx_dropped d) (rx_over_errors d)
    (tx_packets d) (tx_bytes d) (queue_stopped d) (rx_delivered d)
    (spi_inflight d) (spi_log d) (err_log d) v.

Record world := World { priv : mcp2515_priv; dev : net_device }.

(** ** The monad the driver runs in *)

(** What ends a handler before its last statement: an array index outside
    the array, or a dereferenced NULL pointer. *)
Inductive fault :=
| OutOfBounds (idx : Z)
| NullPointer.

Inductive outcome (A : Type) :=
| Ok (a : A) (w : world)
| Fault (f : fault).
Arguments Ok {A} a w.
Arguments Fault {A} f.

Definition M (A : Type) : Type := world -> outcome A.

#[global] Instance M_ret : MRet M := fun A a w => Ok a w.
#[global] Instance M_bind : MBind M := fun A B f m w =>
  match m w with
  | Ok a w' => f a w'
  | Fault e => Fault e
  end.

Definition raise {A} (e : fault) : M A := fun _ => Fault e.
Definition priv_get {A} (f : mcp2515_priv -> A) : M A := fun w => Ok (f (priv w)) w.
Definition priv_set (f : mcp2515_priv -> mcp2515_priv) : M unit :=
  fun w => Ok tt (World (f (priv w)) (dev w)).
Definition dev_get {A} (f : net_device -> A) : M A := fun w => Ok (f (dev w)) w.
Definition dev_set (f : net_device -> net_device) : M unit :=
  fun w => Ok tt (World (priv w) (f (dev w))).
Definition when (b : bool) (m : M unit) : M unit := if b then m else mret tt.

(** What the kernel answers during one handler: the return value of
    [spi_async], and the frame [alloc_can_skb] hands out ([None]: no memory). *)
Record env := Env {
  spi_async_ret : Z;
  alloc_can_skb : option can_frame
}.

(** *** Kernel services *)

Definition spin_lock_bh : M unit := priv_set (set_lock true).
Definition spin_unlock_bh : M unit := priv_set (set_lock false).

(** An assignment to [priv->busy]; one made without the lock is counted. *)
Definition write_busy (v : bool) : M unit :=
  held ← priv_get lock;
  when (negb held) (dev_set (fun d => set_unlocked_busy_writes (S (unlocked_busy_writes d)) d));;
  priv_set (set_busy v).

Definition netdev_err : M unit := dev_set (fun d => set_err_log (S (err_log d)) d).
Definition netdev_dbg : M unit := mret tt.
Definition netif_stop_queue : M unit := dev_set (set_queue_stopped true).
Definition netif_wake_queue : M unit := dev_set (set_queue_stopped false).
Definition netif_rx_ni (frame : can_frame) : M unit :=
  dev_set (fun d => set_rx_delivered (frame :: rx_delivered d) d).
Definition mod_timer (expires : Z) : M unit := priv_set (set_timer (Some expires)).

(** [spi_async(priv->spi, &priv->message)] *)
Definition spi_async (k : env) : M Z := fun w =>
  let p := priv w in
  let accepted := spi_async_ret k =? 0 in
  let call := SpiCall (take (Z.to_nat (transfer_len p)) (tx_buf p))
                      (message_complete p) accepted (busy p) in
  let d := set_spi_log (call :: spi_log (dev w)) (dev w) in
  let d := if accepted then set_spi_inflight (S (spi_inflight d)) d else d in
  Ok (spi_async_ret k) (World p d).

(** [buf[i] = v] on [priv->transfer.tx_buf] *)
Definition tx_write (i : nat) (v : Z) : M unit :=
  priv_set (fun p => set_tx_buf (<[i := u8 v]> (tx_buf p)) p).

(** [priv->skb[idx] = v] *)
Definition skb_store (idx : Z) (v : option sk_buff) : M unit :=
  slots ← priv_get skb;
  if (0 <=? idx) && (idx <? Z.of_nat (length slots))
  then priv_set (set_skb (<[Z.to_nat idx := v]> slots))
  else raise (OutOfBounds idx).

(** [priv->skb[idx]] *)
Definition skb_load (idx : Z) : M (option sk_buff) :=
  slots ← priv_get skb;
  match slots !! Z.to_nat idx with
  | Some v => if 0 <=? idx then mret v else raise (OutOfBounds idx)
  | None => raise (OutOfBounds idx)
  end.

(** ** Starting the asynchronous transactions *)

Definition mcp2515_spi_async (k : env) : M unit :=
  err ← spi_async k;
  when (nonzero err) netdev_err.

(** The delayed work that [mcp2515_read_flags] cancels first is never queued
    anywhere in the driver; cancelling it changes nothing. *)
Definition mcp2515_read_flags (k : env) : M unit :=
  tx_write 0 MCP2515_INSTRUCTION_READ;;
  tx_write 1 CANINTF;;
  tx_write 2 0;;
  tx_write 3 0;;
  priv_set (set_transfer_len 4);;
  priv_set (set_message_complete (Some Cb_read_flags));;
  err ← spi_async k;
  when (nonzero err) netdev_err.

Definition mcp2515_read_rxb (k : env) (instruction : Z) (complete : callback) : M unit :=
  priv_set (fun p => set_tx_buf (list_inserts 0 (replicate 14 0) (tx_buf p)) p);;
  tx_write 0 instruction;;
  priv_set (set_transfer_len 14);;
  priv_set (set_message_complete (Some complete));;
  mcp2515_spi_async k.

Definition mcp2515_read_rxb0 (k : env) : M unit :=
  mcp2515_read_rxb k (MCP2515_INSTRUCTION_READ_RXB 0) Cb_read_rxb0.

Definition mcp2515_read_rxb1 (k : env) : M unit :=
  mcp2515_read_rxb k (MCP2515_INSTRUCTION_READ_RXB 1) Cb_read_rxb1.

Definition mcp2515_clear_canintf (k : env) : M unit :=
  tx_write 0 MCP2515_INSTRUCTION_BIT_MODIFY;;
  tx_write 1 CANINTF;;
  intf ← priv_get canintf;
  tx_write 2 (Z.land intf (Z.lnot (Z.lor CANINTF_RX0IF CANINTF_RX1IF)));;
  tx_write 3 0;;
  priv_set (set_transfer_len 4);;
  priv_set (set_message_complete (Some Cb_clear_canintf));;
  mcp2515_spi_async k.

Definition mcp2515_clear_eflg (k : env) : M unit :=
  tx_write 0 MCP2515_INSTRUCTION_BIT_MODIFY;;
  tx_write 1 EFLAG;;
  flg ← priv_get eflg;
  tx_write 2 flg;;
  tx_write 3 0;;
  priv_set (set_transfer_len 4);;
  priv_set (set_message_complete (Some Cb_clear_eflg));;
  mcp2515_spi_async k.

(** [mcp2515_load_txb(skb, dev, abc)]. [mcp2515_set_txbuf] reads
    [skb->data], so a NULL [skb] faults. The echo copies that
    [can_put_echo_skb] and [can_get_echo_skb] keep inside the CAN core are
    not part of the driver's state and are left out. *)
Definition mcp2515_load_txb (skb : option sk_buff) (k : env) (abc : Z) : M unit :=
  tx_write 0 (MCP2515_INSTRUCTION_LOAD_TXB abc);;
  match skb with
  | None => raise NullPointer
  | Some s =>
    buf ← priv_get tx_buf;
    let '(body, n) := mcp2515_set_txbuf (drop 1 buf) s in
    priv_set (set_tx_buf (take 1 buf ++ body));;
    priv_set (set_transfer_len (n + 1));;
    priv_set (set_message_complete (Some Cb_load_txb));;
    priv_set (set_loaded_txb (u8 abc));;
    mcp2515_spi_async k
  end.

Definition mcp2515_rts_txb (k : env) : M unit :=
  n ← priv_get loaded_txb;
  tx_write 0 (MCP2515_INSTRUCTION_RTS n);;
  priv_set (set_transfer_len 1);;
  priv_set (set_message_complete (Some Cb_rts_txb));;
  mcp2515_spi_async k.

(** ** Completion callbacks *)

(** The loop of [mcp2515_read_flags_complete] and
    [mcp2515_transmit_or_read_flags]: from [pending_tx_id], at most [n] more
    rounds; the first slot whose bit is set in the map has its bit cleared and
    the loop breaks. Returns the final [pending_tx_id] and the map. *)
Fixpoint take_pending_slot (n : nat) (pending_tx_id : Z) (map : Z) : Z * Z :=
  match n with
  | O => (pending_tx_id, map)
  | S n' =>
    if nonzero (Z.land (BIT pending_tx_id) map)
    then (pending_tx_id, u8 (Z.land map (Z.lnot (BIT pending_tx_id))))
    else take_pending_slot n' (pending_tx_id + 1) map
  end.

(** The branch both functions share once [tx_pending_map != 0] is known,
    entered with the lock held. *)
Definition load_pending_slot (k : env) : M unit :=
  map ← priv_get tx_pending_map;
  let '(pending_tx_id, map) := take_pending_slot (Z.to_nat MCP2515_TX_CNT) 0 map in
  priv_set (set_tx_pending_map map);;
  spin_unlock_bh;;
  s ← skb_load pending_tx_id;
  mcp2515_load_txb s k pending_tx_id.

Definition mcp2515_read_flags_complete (k : env) : M unit :=
  buf ← priv_get rx_buf;
  let intf := rd buf 2 in
  priv_set (set_canintf intf);;
  priv_set (set_eflg (rd buf 3));;
  ex ← priv_get extra;
  when ex (priv_set (set_extra false);;
           when (nonzero intf || nonzero (rd buf 3)) netdev_dbg);;
  if nonzero (Z.land intf CANINTF_RX0IF) then mcp2515_read_rxb0 k
  else if nonzero (Z.land intf CANINTF_RX1IF) then mcp2515_read_rxb1 k
  else if nonzero intf then mcp2515_clear_canintf k
  else
    spin_lock_bh;;
    pending ← priv_get tx_pending_map;
    if nonzero pending then load_pending_slot k
    else
      irq ← priv_get interrupt;
      if irq : bool then
        priv_set (set_interrupt false);;
        spin_unlock_bh;;
        mcp2515_read_flags k
      else
        write_busy false;;
        spin_unlock_bh;;
        mod_timer READ_FLAGS_TIMER_VAL_MS.

Definition mcp2515_read_rxb_complete (k : env) : M unit :=
  buf ← priv_get rx_buf;
  match alloc_can_skb k with
  | None => dev_set (fun d => set_rx_dropped (ulong (rx_dropped d + 1)) d)
  | Some frame =>
    let frame := mcp2515_decode_rxb frame buf in
    dev_set (fun d => set_rx_packets (ulong (rx_packets d + 1)) d);;
    dev_set (fun d => set_rx_bytes (ulong (rx_bytes d + can_dlc frame)) d);;
    netif_rx_ni frame
  end.

Definition mcp2515_transmit_or_read_flags (k : env) : M unit :=
  spin_lock_bh;;
  pending ← priv_get tx_pending_map;
  if nonzero pending then load_pending_slot k
  else
    spin_unlock_bh;;
    mcp2515_read_flags k.

Definition mcp2515_read_rxb0_complete (k : env) : M unit :=
  mcp2515_read_rxb_complete k;;
  intf ← priv_get canintf;
  if nonzero (Z.land intf CANINTF_RX1IF) then mcp2515_read_rxb1 k
  else mcp2515_transmit_or_read_flags k.

Definition mcp2515_read_rxb1_complete (k : env) : M unit :=
  mcp2515_read_rxb_complete k;;
  mcp2515_transmit_or_read_flags k.

Definition mcp2515_update_device_stats (s : option sk_buff) : M unit :=
  match s with
  | Some s =>
    dev_set (fun d => set_tx_bytes (ulong (tx_bytes d + can_dlc (skb_data s))) d);;
    dev_set (fun d => set_tx_packets (ulong (tx_packets d + 1)) d)
  | None => mret tt
  end.

(** One of the three [if (priv->canintf & CANINTF_TXnIF)] blocks. *)
Definition tx_done (idx : Z) : M unit :=
  s ← skb_load idx;
  mcp2515_update_device_stats s;;
  skb_store idx None;;
  priv_set (fun p => set_tx_busy_map (u8 (Z.land (tx_busy_map p) (Z.lnot (BIT idx)))) p).

Definition mcp2515_clear_canintf_complete (k : env) : M unit :=
  intf ← priv_get canintf;
  when (nonzero (Z.land intf CANINTF_TX0IF)) (tx_done 0);;
  when (nonzero (Z.land intf CANINTF_TX1IF)) (tx_done 1);;
  when (nonzero (Z.land intf CANINTF_TX2IF)) (tx_done 2);;
  stopped ← priv_get netif_queue_stopped;
  map ← priv_get tx_busy_map;
  when (stopped && (map <? TX_MAP_BUSY))
       (priv_set (set_netif_queue_stopped false);;
        netif_wake_queue);;
  flg ← priv_get eflg;
  if nonzero flg then mcp2515_clear_eflg k
  else mcp2515_read_flags k.

Definition mcp2515_clear_eflg_complete (k : env) : M unit :=
  flg ← priv_get eflg;
  when (nonzero (Z.land flg (Z.lor EFLG_RX0OVR EFLG_RX1OVR)))
       (dev_set (fun d => set_rx_over_errors (ulong (rx_over_errors d + 1)) d));;
  mcp2515_read_flags k.

Definition mcp2515_load_txb_complete (k : env) : M unit :=
  mcp2515_rts_txb k.

Definition mcp2515_rts_txb_complete (k : env) : M unit :=
  mcp2515_read_flags k.

(** ** Wake sources *)

Definition mcp2515_softirq_handler (k : env) : M unit :=
  spin_lock_bh;;
  b ← priv_get busy;
  if b : bool then
    priv_set (set_interrupt true);;
    spin_unlock_bh
  else
    write_busy true;;
    spin_unlock_bh;;
    mcp2515_read_flags k.

Definition read_flags_timer_cb (k : env) : M unit :=
  spin_lock_bh;;
  b ← priv_get busy;
  if b : bool then
    spin_unlock_bh;;
    priv_set (fun p => set_skip (u32 (skip p + 1)) p);;
    n ← priv_get skip;
    when (10 <? n) netdev_dbg
  else
    write_busy true;;
    spin_unlock_bh;;
    priv_set (set_skip 0);;
    priv_set (set_extra true);;
    mcp2515_read_flags k.

Inductive netdev_tx := NETDEV_TX_OK | NETDEV_TX_BUSY.

(** Modelled from the spec: [can_dropped_invalid_skb] is a helper of
    [linux/can/dev.h]; a valid frame has a length of 0..8, any other is
    dropped there and never reaches the slots. *)
Definition can_dropped_invalid_skb (s : sk_buff) : bool :=
  negb ((0 <=? can_dlc (skb_data s)) && (can_dlc (skb_data s) <=? CAN_MAX_DLC)).

(** The loop of [mcp2515_start_xmit]: from [tx_idx], at most [n] more
    rounds; the first slot whose bit is clear in the map has its bit set and
    the loop breaks. Returns the final [tx_idx] and the map. *)
Fixpoint find_free_tx_slot (n : nat) (tx_idx : Z) (map : Z) : Z * Z :=
  match n with
  | O => (tx_idx, map)
  | S n' =>
    if Z.land (BIT tx_idx) map =? 0
    then (tx_idx, u8 (Z.lor map (BIT tx_idx)))
    else find_free_tx_slot n' (tx_idx + 1) map
  end.

Definition mcp2515_start_xmit (s : sk_buff) (k : env) : M netdev_tx :=
  if can_dropped_invalid_skb s then mret NETDEV_TX_OK
  else
    spin_lock_bh;;
    map ← priv_get tx_busy_map;
    let '(tx_idx, map) := find_free_tx_slot (Z.to_nat MCP2515_TX_CNT) 0 map in
    priv_set (set_tx_busy_map map);;
    when (TX_MAP_BUSY <=? map)
         (priv_set (set_netif_queue_stopped true);;
          netif_stop_queue);;
    skb_store tx_idx (Some s);;
    b ← priv_get busy;
    if b : bool then
      priv_set (fun p => set_tx_pending_map (u8 (Z.lor (tx_pending_map p) (BIT tx_idx))) p);;
      spin_unlock_bh;;
      mret NETDEV_TX_OK
    else
      write_busy true;;
      spin_unlock_bh;;
      mcp2515_load_txb (Some s) k tx_idx;;
      mret NETDEV_TX_OK.

(** ** Events *)

(** What can happen to an open device: the tasklet runs, the fallback timer
    expires, the stack hands over a frame, or the SPI core reports the
    queued message complete, with [rx] the content of the receive buffer. *)
Inductive event :=
| EvIrq (k : env)
| EvTimer (k : env)
| EvXmit (s : sk_buff) (k : env)
| EvSpiDone (rx : list Z) (k : env).

Definition dispatch (cb : callback) (k : env) : M unit :=
  match cb with
  | Cb_read_flags => mcp2515_read_flags_complete k
  | Cb_read_rxb0 => mcp2515_read_rxb0_complete k
  | Cb_read_rxb1 => mcp2515_read_rxb1_complete k
  | Cb_clear_canintf => mcp2515_clear_canintf_complete k
  | Cb_clear_eflg => mcp2515_clear_eflg_complete k
  | Cb_load_txb => mcp2515_load_txb_complete k
  | Cb_rts_txb => mcp2515_rts_txb_complete k
  end.

(** The SPI core takes the message off its queue, the receive buffer holds
    the answer, and [priv->message.complete] is called. *)
Definition spi_complete (rx : list Z) (k : env) : M unit :=
  dev_set (fun d => set_spi_inflight (pred (spi_inflight d)) d);;
  priv_set (set_rx_buf rx);;
  cb ← priv_get message_complete;
  match cb with
  | Some cb => dispatch cb k
  | None => raise NullPointer
  end.

(** A timer only expires while pending and is detached before its callback
    runs; a completion needs a queued message. *)
Definition enabled (e : event) (w : world) : bool :=
  match e with
  | EvIrq _ => true
  | EvTimer _ => bool_decide (is_Some (timer (priv w)))
  | EvXmit _ _ => true
  | EvSpiDone _ _ => bool_decide (0 < spi_inflight (dev w))%nat
  end.

(** The handler of an event, run from its entry to its return as one step:
    in a run of this relation handlers do not overlap, an event starts when
    the handler of the one before has returned. In the source the sections
    between [spin_lock_bh] and [spin_unlock_bh] exclude one another, but
    [mcp2515_clear_canintf_complete] updates [skb], [tx_busy_map] and
    [netif_queue_stopped] without taking [priv->lock]; an execution in which
    that callback overlaps [mcp2515_start_xmit] on another processor is not
    a run of this relation. *)
Definition fire (e : event) : M unit :=
  match e with
  | EvIrq k => mcp2515_softirq_handler k
  | EvTimer k => priv_set (set_timer None);; read_flags_timer_cb k
  | EvXmit s k => mcp2515_start_xmit s k;; mret tt
  | EvSpiDone rx k => spi_complete rx k
  end.

(** One event: [None] when it cannot happen in [w] or its handler faults. *)
Definition step (e : event) (w : world) : option world :=
  if enabled e w then
    match fire e w with
    | Ok _ w' => Some w'
    | Fault _ => None
    end
  else None.

Fixpoint run (evs : list event) (w : world) : option world :=
  match evs with
  | [] => Some w
  | e :: evs' =>
    match step e w with
    | Some w' => run evs' w'
    | None => None
    end
  end.

(** The session after [mcp2515_probe] and [mcp2515_open]: the private struct
    comes zeroed from [alloc_candev], the timer is set up but not armed, the
    queue is started. *)
Definition priv0 : mcp2515_priv :=
  Priv 0 0 [None; None; None] false false false false 0 0 0 false 0 None 0
       (replicate 14 0) (replicate 14 0) None.
Definition dev0 : net_device := NetDev 0 0 0 0 0 0 false [] 0 [] 0 0.
Definition world0 : world := World priv0 dev0.

Definition reachable (w : world) : Prop := exists evs, run evs world0 = Some w.

(** ** Vocabulary of the properties *)

(** A [can_id] word: the identifier with the EFF and RTR flags. *)
Definition mk_can_id (ext rtr : bool) (ident : Z) : Z :=
  Z.lor (Z.lor ident (if ext then CAN_EFF_FLAG else 0))
        (if rtr then CAN_RTR_FLAG else 0).

(** 11 bits for a standard identifier, 29 for an extended one. *)
Definition valid_ident (ext : bool) (ident : Z) : Prop :=
  0 <= ident <= (if ext then CAN_EFF_MASK else CAN_SFF_MASK).

(** The remote-request flag of a frame. *)
Definition is_rtr (f : can_frame) : bool := Z.testbit (can_id f) 30.

(** Encode [f] as [mcp2515_load_txb] lays it out after the instruction byte
    [i0] ([buf] is what the buffer held from TXBnSIDH on), and decode those
    same bytes as a receive buffer into the fresh frame [frame0]. *)
Definition loopback (frame0 : can_frame) (i0 : Z) (buf : list Z) (f : can_frame) : can_frame :=
  mcp2515_decode_rxb frame0 (i0 :: fst (mcp2515_set_txbuf buf (SkBuff f))).

(** "Recovers the original identifier, remote-request flag, length and
    payload bytes exactly": the [can_id] word (identifier and flags), the
    length, and the first [can_dlc] bytes of data. *)
Definition round_trip_exact (frame0 : can_frame) (i0 : Z) (buf : list Z) (f : can_frame) : Prop :=
  let f' := loopback frame0 i0 buf f in
  can_id f' = can_id f /\
  can_dlc f' = can_dlc f /\
  take (Z.to_nat (can_dlc f)) (data f') = take (Z.to_nat (can_dlc f)) (data f).

(** The world after the driver installs the message ([tx], [len], [cb]) and
    calls [spi_async] once: the call is logged; an accepted message is in
    flight, a rejected one leaves a [netdev_err] line. *)
Definition submit (k : env) (cb : callback) (tx : list Z) (len : Z) (w : world) : world :=
  let p := set_message_complete (Some cb)
             (set_transfer_len len (set_tx_buf tx (priv w))) in
  let accepted := spi_async_ret k =? 0 in
  let call := SpiCall (take (Z.to_nat len) tx) (Some cb) accepted (busy (priv w)) in
  let d := set_spi_log (call :: spi_log (dev w)) (dev w) in
  World p (if accepted then set_spi_inflight (S (spi_inflight d)) d
           else set_err_log (S (err_log d)) d).

(** [w] with its private struct changed by [f]. *)
Definition with_priv (f : mcp2515_priv -> mcp2515_priv) (w : world) : world :=
  World (f (priv w)) (dev w).

(** The bytes of the seven transfers. *)
Definition read_flags_bytes (old : list Z) : list Z :=
  [MCP2515_INSTRUCTION_READ; CANINTF; 0; 0] ++ drop 4 old.
Definition read_rxb_bytes (n : Z) : list Z :=
  MCP2515_INSTRUCTION_READ_RXB n :: replicate 13 0.
Definition clear_canintf_bytes (intf : Z) (old : list Z) : list Z :=
  [MCP2515_INSTRUCTION_BIT_MODIFY; CANINTF;
   u8 (Z.land intf (Z.lnot (Z.lor CANINTF_RX0IF CANINTF_RX1IF))); 0] ++ drop 4 old.
Definition clear_eflg_bytes (flg : Z) (old : list Z) : list Z :=
  [MCP2515_INSTRUCTION_BIT_MODIFY; EFLAG; u8 flg; 0] ++ drop 4 old.
Definition load_txb_bytes (abc : Z) (s : sk_buff) (old : list Z) : list Z :=
  u8 (MCP2515_INSTRUCTION_LOAD_TXB abc) :: fst (mcp2515_set_txbuf (drop 1 old) s).
Definition rts_txb_bytes (n : Z) (old : list Z) : list Z :=
  u8 (MCP2515_INSTRUCTION_RTS n) :: drop 1 old.

(** Slot [i] is the lowest-indexed slot whose bit is set in [map]. *)
Definition lowest_slot (map : Z) (i : Z) : Prop :=
  0 <= i < MCP2515_TX_CNT /\ Z.testbit map i = true /\
  forall j, 0 <= j < i -> Z.testbit map j = false.

(** No slot has its bit set in [map]. *)
Definition no_slot (map : Z) : Prop :=
  forall j, 0 <= j < MCP2515_TX_CNT -> Z.testbit map j = false.

(** [map] with the bit of slot [i] cleared, as the driver computes it. *)
Definition clear_slot (map : Z) (i : Z) : Z := u8 (Z.land map (Z.lnot (BIT i))).

(** The status snapshot [mcp2515_read_flags_complete] takes from the receive
    buffer before it branches; the diagnostic marker is consumed. *)
Definition snapshot (w : world) : world :=
  with_priv (fun p => set_extra false
                        (set_eflg (rd (rx_buf p) 3)
                           (set_canintf (rd (rx_buf p) 2) p))) w.

(** The world after [mcp2515_read_rxb_complete]: the decoded frame is
    delivered and counted, or one drop is counted. *)
Definition rx_taken (k : env) (w : world) : world :=
  World (priv w)
    (match alloc_can_skb k with
     | None => set_rx_dropped (ulong (rx_dropped (dev w) + 1)) (dev w)
     | Some frame =>
       let f := mcp2515_decode_rxb frame (rx_buf (priv w)) in
       set_rx_delivered (f :: rx_delivered (dev w))
         (set_rx_bytes (ulong (rx_bytes (dev w) + can_dlc f))
            (set_rx_packets (ulong (rx_packets (dev w) + 1)) (dev w)))
     end).

(** Completion accounting for slot [idx]: the frame is counted, the slot
    emptied and its busy bit cleared. *)
Definition tx_done_world (idx : Z) (w : world) : world :=
  World (set_tx_busy_map (clear_slot (tx_busy_map (priv w)) idx)
           (set_skb (<[Z.to_nat idx := None]> (skb (priv w))) (priv w)))
    (match skb (priv w) !! Z.to_nat idx with
     | Some (Some s) =>
       set_tx_packets (ulong (tx_packets (dev w) + 1))
         (set_tx_bytes (ulong (tx_bytes (dev w) + can_dlc (skb_data s))) (dev w))
     | _ => dev w
     end).

(** The state after the accounting of a clear-flags cycle, before the wake
    test: one [tx_done_world] per transmit-complete bit of the snapshot. *)
Definition tx_accounted (w : world) : world :=
  let intf := canintf (priv w) in
  let w := if Z.testbit intf 2 then tx_done_world 0 w else w in
  let w := if Z.testbit intf 3 then tx_done_world 1 w else w in
  if Z.testbit intf 4 then tx_done_world 2 w else w.

(** The wake test of [mcp2515_clear_canintf_complete]. *)
Definition queue_woken (w : world) : world :=
  if netif_queue_stopped (priv w) && (tx_busy_map (priv w) <? TX_MAP_BUSY)
  then World (set_netif_queue_stopped false (priv w))
             (set_queue_stopped false (dev w))
  else w.

(** The slot reservation of [mcp2515_start_xmit]: slot [idx] gets the frame,
    the busy map becomes [map], and the queue is stopped when it is full. *)
Definition slot_reserved (s : sk_buff) (idx map : Z) (w : world) : world :=
  let full := TX_MAP_BUSY <=? map in
  World (set_skb (<[Z.to_nat idx := Some s]> (skb (priv w)))
           ((if full then set_netif_queue_stopped true else fun p => p)
              (set_tx_busy_map map (set_lock true (priv w)))))
        ((if full then set_queue_stopped true else fun d => d) (dev w)).

(** The number of busy slots in a slot map. *)
Definition busy_slots (map : Z) : nat :=
  length (filter (fun i => Z.testbit map i = true) [0; 1; 2]).

(** The world in which the SPI core calls the completion callback. *)
Definition completed (rx : list Z) (w : world) : world :=
  World (set_rx_buf rx (priv w))
        (set_spi_inflight (pred (spi_inflight (dev w))) (dev w)).

(** Slot [i] is the lowest-indexed slot whose bit is clear in [map]. *)
Definition lowest_free_slot (map : Z) (i : Z) : Prop :=
  0 <= i < MCP2515_TX_CNT /\ Z.testbit map i = false /\
  forall j, 0 <= j < i -> Z.testbit map j = true.

(** Every slot has its bit set in [map]. *)
Definition all_slots (map : Z) : Prop :=
  forall j, 0 <= j < MCP2515_TX_CNT -> Z.testbit map j = true.

(** ** Invariants of a session *)

(** The scheduler side: at most one message is queued with the SPI core,
    and only while [busy] is set, with its callback installed; nobody holds
    the lock between two handlers; [busy] was never written without the
    lock; every [spi_async] call was made with [busy] set. *)
Definition sched_inv (w : world) : Prop :=
  lock (priv w) = false /\
  length (tx_buf (priv w)) = 14%nat /\
  (spi_inflight (dev w) <= 1)%nat /\
  (spi_inflight (dev w) = 1%nat ->
     busy (priv w) = true /\ is_Some (message_complete (priv w))) /\
  unlocked_busy_writes (dev w) = 0%nat /\
  Forall (fun c => call_busy c = true) (spi_log (dev w)).

(** The transmit ring side: three slots, a busy map over them, and the
    queue stopped, for the driver and for the stack, exactly when the map is
    full. *)
Definition slots_inv (w : world) : Prop :=
  length (skb (priv w)) = 3%nat /\
  0 <= tx_busy_map (priv w) <= 7 /\
  netif_queue_stopped (priv w) = (TX_MAP_BUSY <=? tx_busy_map (priv w)) /\
  queue_stopped (dev w) = netif_queue_stopped (priv w).

Definition inv (w : world) : Prop := sched_inv w /\ slots_inv w.


(** What a wake source may do: nothing towards the transport, or exactly
    one call after taking [busy] from clear to set. *)
Definition wake_effect (w w' : world) : Prop :=
  (spi_log (dev w') = spi_log (dev w) /\
   spi_inflight (dev w') = spi_inflight (dev w) /\
   busy (priv w') = busy (priv w))
  \/
  (exists c, spi_log (dev w') = c :: spi_log (dev w) /\
             call_busy c = true /\
             busy (priv w) = false /\ busy (priv w') = true).

(** What a completion callback may do: exactly one follow-up call with
    [busy] still set, or no call, [busy] cleared, nothing queued and the
    fallback timer armed. *)
Definition completion_effect (w w' : world) : Prop :=
  (exists c, spi_log (dev w') = c :: spi_log (dev w) /\
             call_busy c = true /\ busy (priv w') = true)
  \/
  (spi_log (dev w') = spi_log (dev w) /\
   busy (priv w') = false /\
   spi_inflight (dev w') = 0%nat /\
   timer (priv w') = Some READ_FLAGS_TIMER_VAL_MS).

(** A pending map the completion callbacks can serve: empty, or its lowest
    slot holds a frame. *)
Definition pending_ok (w : world) : Prop :=
  tx_pending_map (priv w) = 0 \/
  exists i s, lowest_slot (tx_pending_map (priv w)) i /\
              skb (priv w) !! Z.to_nat i = Some (Some s).

(** The parts of the state the two invariants read. *)
Definition sched_core (w : world) : bool * nat * nat * list spi_call :=
  (busy (priv w), spi_inflight (dev w), unlocked_busy_writes (dev w),
   spi_log (dev w)).

Definition ring_core (w : world) : nat * Z * bool * bool :=
  (length (skb (priv w)), tx_busy_map (priv w), netif_queue_stopped (priv w),
   queue_stopped (dev w)).

(** The ring in the middle of completion accounting: slots have been freed
    and the wake test has not run yet. *)
Definition slots_weak (w : world) : Prop :=
  length (skb (priv w)) = 3%nat /\
  0 <= tx_busy_map (priv w) <= 7 /\
  (netif_queue_stopped (priv w) = false -> tx_busy_map (priv w) < 7) /\
  queue_stopped (dev w) = netif_queue_stopped (priv w).

(** The state in which a completion callback starts: [busy] is set, the
    message has left the transport's queue, nobody holds the lock. *)
Definition owner (w : world) : Prop :=
  lock (priv w) = false /\
  length (tx_buf (priv w)) = 14%nat /\
  sched_core w = (true, 0%nat, 0%nat, spi_log (dev w)) /\
  Forall (fun c => call_busy c = true) (spi_log (dev w)) /\
  slots_inv w.

(** How a completion callback that started in [wc] can end in [w']: it has
    submitted one message from a world [W] that still owns the transaction,
    or it has gone idle. [W0] is the world whose ring state the result
    carries. *)
Definition done_shape (k : env) (wc W0 w' : world) : Prop :=
  (exists W cb tx len,
      w' = submit k cb tx len W /\
      length tx = 14%nat /\
      lock (priv W) = false /\
      sched_core W = sched_core wc /\
      ring_core W = ring_core W0)
  \/
  (lock (priv w') = false /\
   length (tx_buf (priv w')) = 14%nat /\
   sched_core w' = (false, 0%nat, 0%nat, spi_log (dev wc)) /\
   timer (priv w') = Some READ_FLAGS_TIMER_VAL_MS /\
   ring_core w' = ring_core W0).

(** How a wake source that started in [w] can end in [w']: it has left the
    scheduler alone, or it found [busy] clear, set it, and submitted one
    message. *)
Definition wake_shape (k : env) (w W0 w' : world) : Prop :=
  (lock (priv w') = false /\
   length (tx_buf (priv w')) = 14%nat /\
   sched_core w' = sched_core w /\
   message_complete (priv w') = message_complete (priv w) /\
   ring_core w' = ring_core W0)
  \/
  (exists W cb tx len,
      w' = submit k cb tx len W /\
      busy (priv w) = false /\
      length tx = 14%nat /\
      lock (priv W) = false /\
      sched_core W = (true, spi_inflight (dev w), unlocked_busy_writes (dev w),
                      spi_log (dev w)) /\
      ring_core W = ring_core W0).

(** The three wake sources. *)
Definition is_wake (e : event) : Prop :=
  match e with
  | EvSpiDone _ _ => False
  | _ => True
  end.

(** When an event's handler is expected to run to its end: the timer is
    pending; the frame is invalid or a slot is free; a message is queued and
    the pending map can be served. *)
Definition can_happen (e : event) (w : world) : Prop :=
  match e with
  | EvIrq _ => True
  | EvTimer _ => is_Some (timer (priv w))
  | EvXmit s _ => can_dropped_invalid_skb s = true \/ tx_busy_map (priv w) < 7
  | EvSpiDone _ _ => (0 < spi_inflight (dev w))%nat /\ pending_ok w
  end.

(** ** Busy periods *)






(** The deferred-interrupt flag set, with the lock released: what the
    tasklet leaves behind when it finds the scheduler busy. *)
Definition deferred (w : world) : world :=
  with_priv (fun p => set_lock false (set_interrupt true p)) w.





(** ** Vocabulary of the further properties *)

(** The identifier a receive buffer carries, as the data sheet lays it out:
    SIDH and the top three bits of SIDL are the 11-bit standard identifier;
    in an extended frame they are its top 11 bits, and the low two bits of
    SIDL, EID8 and EID0 are the 18 bits below. *)
Definition rxb_ident (buf : list Z) : Z :=
  let sid := rd buf 1 * 8 + rd buf 2 / 32 in
  if Z.testbit (rd buf 2) 3
  then sid * 2 ^ 18 + (rd buf 2 mod 4) * 2 ^ 16 + rd buf 3 * 2 ^ 8 + rd buf 4
  else sid.

(** The remote-request flag of a receive buffer: RTR of the DLC byte in an
    extended frame, SRR of SIDL in a standard one. *)
Definition rxb_rtr (buf : list Z) : bool :=
  if Z.testbit (rd buf 2) 3 then Z.testbit (rd buf 5) 6 else Z.testbit (rd buf 2) 4.

(** The books the driver keeps: the frames in the slots, the busy map, the
    statistics of the device, and the frames handed to the stack. *)
Definition ledger (w : world) :
    list (option sk_buff) * Z * (Z * Z * Z * Z) * (Z * Z) * list can_frame :=
  (skb (priv w), tx_busy_map (priv w),
   (rx_packets (dev w), rx_bytes (dev w), rx_dropped (dev w), rx_over_errors (dev w)),
   (tx_packets (dev w), tx_bytes (dev w)),
   rx_delivered (dev w)).

(** The overrun counted by [mcp2515_clear_eflg_complete]. *)
Definition overrun_counted (w : world) : world :=
  if Z.testbit (eflg (priv w)) 6 || Z.testbit (eflg (priv w)) 7
  then World (priv w) (set_rx_over_errors (ulong (rx_over_errors (dev w) + 1)) (dev w))
  else w.

(** What the completion of callback [cb] enters in the books. *)
Definition accounted (cb : callback) (k : env) (wc : world) : world :=
  match cb with
  | Cb_read_rxb0 | Cb_read_rxb1 => rx_taken k wc
  | Cb_clear_canintf => tx_accounted wc
  | Cb_clear_eflg => overrun_counted wc
  | _ => wc
  end.

(** What an event enters in the books. *)
Definition booked (e : event) (w : world) : world :=
  match e with
  | EvSpiDone rx k =>
    match message_complete (priv w) with
    | Some cb => accounted cb k (completed rx w)
    | None => w
    end
  | EvXmit s k =>
    if can_dropped_invalid_skb s then w
    else let '(i, m) := find_free_tx_slot (Z.to_nat MCP2515_TX_CNT) 0 (tx_busy_map (priv w)) in
         slot_reserved s i m w
  | _ => w
  end.

(** Slot [i] holds a frame. *)
Definition slot_holds_frame (w : world) (i : Z) : bool :=
  match skb (priv w) !! Z.to_nat i with
  | Some (Some _) => true
  | _ => false
  end.

(** The busy map says which slots hold a frame. *)
Definition frames_inv (w : world) : Prop :=
  forall i, 0 <= i < MCP2515_TX_CNT ->
    Z.testbit (tx_busy_map (priv w)) i = slot_holds_frame w i.

(** The frames the transmit entry point took into a slot during a run. *)
Fixpoint accepted (evs : list event) : nat :=
  match evs with
  | [] => 0
  | EvXmit s _ :: evs' =>
    (if can_dropped_invalid_skb s then 0 else 1) + accepted evs'
  | _ :: evs' => accepted evs'
  end.

(** Frames acknowledged so far are the [n] frames taken so far less the
    ones still in a slot, in the arithmetic of the [unsigned long] counter. *)
Definition tx_balance (n : Z) (w : world) : Prop :=
  tx_packets (dev w) = ulong (n - Z.of_nat (busy_slots (tx_busy_map (priv w)))).

(** The payload bytes of a list of frames. *)
Definition frames_bytes (fs : list can_frame) : Z :=
  fold_right (fun f acc => can_dlc f + acc) 0 fs.

(** The receive statistics agree with the frames handed to the stack. *)
Definition rx_books (w : world) : Prop :=
  rx_packets (dev w) = ulong (Z.of_nat (length (rx_delivered (dev w)))) /\
  rx_bytes (dev w) = ulong (frames_bytes (rx_delivered (dev w))) /\
  Forall (fun f => 0 <= can_dlc f <= CAN_MAX_DLC) (rx_delivered (dev w)).

(** The scheduler has lost its transaction: [busy] is set and no message is
    queued with the transport. *)
Definition stalled (w : world) : Prop :=
  busy (priv w) = true /\ spi_inflight (dev w) = 0%nat.

(** The newest call the transport has seen. *)
Definition last_call (w : world) : option spi_call := head (spi_log (dev w)).

(** What the transmit-complete flag of slot [i] in the snapshot is worth in
    the statistics: one packet and the bytes of the frame, when the slot
    holds one. *)
Definition ack_packets (w : world) (i : Z) : Z :=
  if Z.testbit (canintf (priv w)) (i + 2) && slot_holds_frame w i then 1 else 0.

Definition ack_bytes (w : world) (i : Z) : Z :=
  if Z.testbit (canintf (priv w)) (i + 2) then
    match skb (priv w) !! Z.to_nat i with
    | Some (Some s) => can_dlc (skb_data s)
    | _ => 0
    end
  else 0.

(** * The device around the asynchronous core *)

(** ** Registers, modes and error numbers *)

Definition MCP2515_INSTRUCTION_RESET : Z := 0xc0.

Definition CANSTAT : Z := 0x0e.
Definition CANCTRL : Z := 0x0f.
Definition CNF3 : Z := 0x28.
Definition RXB0CTRL : Z := 0x60.

Definition CANCTRL_REQOP_NORMAL : Z := 0x00.
Definition CANCTRL_REQOP_SLEEP : Z := 0x20.
Definition CANCTRL_REQOP_LOOPBACK : Z := 0x40.
Definition CANCTRL_REQOP_LISTEN_ONLY : Z := 0x60.
Definition CANCTRL_REQOP_MASK : Z := 0xe0.
Definition CANCTRL_OSM : Z := BIT 3.

Definition CNF2_BTLMODE : Z := BIT 7.
Definition CNF2_SAM : Z := BIT 6.

Definition CANINTE_RX : Z := Z.lor (BIT 0) (BIT 1).
Definition CANINTE_TX : Z := Z.lor (Z.lor (BIT 2) (BIT 3)) (BIT 4).
Definition CANINTE_ERR : Z := BIT 5.

Definition RXBCTRL_BUKT : Z := BIT 2.
Definition RXBCTRL_RXM0 : Z := BIT 5.
Definition RXBCTRL_RXM1 : Z := BIT 6.

(** From [linux/can/netlink.h], which [linux/can/dev.h] includes. *)
Definition CAN_CTRLMODE_LOOPBACK : Z := 0x01.
Definition CAN_CTRLMODE_LISTENONLY : Z := 0x02.
Definition CAN_CTRLMODE_3_SAMPLES : Z := 0x04.
Definition CAN_CTRLMODE_ONE_SHOT : Z := 0x08.

Inductive can_state :=
| CAN_STATE_ERROR_ACTIVE
| CAN_STATE_ERROR_WARNING
| CAN_STATE_ERROR_PASSIVE
| CAN_STATE_BUS_OFF
| CAN_STATE_STOPPED
| CAN_STATE_SLEEPING.

Inductive can_mode := CAN_MODE_STOP | CAN_MODE_START | CAN_MODE_SLEEP.

(** [struct can_bittiming], the fields the driver reads; all are [__u32]. *)
Record can_bittiming := CanBittiming {
  prop_seg : Z;
  phase_seg1 : Z;
  phase_seg2 : Z;
  sjw : Z;
  brp : Z
}.

(** From [errno.h]. *)
Definition EBUSY : Z := 16.
Definition ENODEV : Z := 19.
Definition EOPNOTSUPP : Z := 95.

(** [long], and the [time_after(a, b)] of [linux/jiffies.h]:
    [(long)(b - a) < 0]. *)
Definition slong (x : Z) : Z :=
  let y := ulong x in if y <? 2 ^ (BITS_PER_LONG - 1) then y else y - 2 ^ BITS_PER_LONG.
Definition time_after (a b : Z) : bool := slong (b - a) <? 0.

(** ** The state of the device *)

(** The two optional supplies of the chip, as [mcp2515_probe] asks for
    them: "vdd" and "xceiver". *)
Inductive regulator := Vdd | Xceiver.

(** What the kernel hands back from a call: the return value, and the bytes
    a synchronous SPI read delivers. *)
Record answer := Answer { ans_ret : Z; ans_data : list Z }.

(** The device as process context sees it: the asynchronous core, the
    fields of [priv->can] the driver uses, the regulator pointers ([None]
    for a NULL or error pointer), what the driver holds of the kernel's
    resources, the synchronous SPI messages and regulator calls made so far
    (newest first), and the answers of the kernel to the calls still to
    come. *)
Record host := Host {
  core : world;
  state : can_state;  (* priv->can.state *)
  ctrlmode : Z;  (* priv->can.ctrlmode *)
  bittiming : can_bittiming;  (* priv->can.bittiming *)
  power : option regulator;  (* priv->power *)
  transceiver : option regulator;  (* priv->transceiver *)
  irq_requested : bool;  (* request_irq succeeded, free_irq not yet called *)
  candev_open : bool;  (* open_candev succeeded, close_candev not yet called *)
  candev_registered : bool;  (* register_candev succeeded *)
  sync_log : list (list Z);  (* bytes sent by each synchronous SPI message *)
  regulator_log : list (regulator * bool);  (* regulator_enable / _disable calls *)
  dev_err_log : nat;  (* dev_err lines *)
  HZ : Z;  (* the kernel's tick rate *)
  answers : list answer
}.

Definition set_core (v : world) (h : host) : host :=
  Host v (state h) (ctrlmode h) (bittiming h) (power h) (transceiver h)
    (irq_requested h) (candev_open h) (candev_registered h) (sync_log h)
    (regulator_log h) (dev_err_log h) (HZ h) (answers h).
Definition set_state (v : can_state) (h : host) : host :=
  Host (core h) v (ctrlmode h) (bittiming h) (power h) (transceiver h)
    (irq_requested h) (candev_open h) (candev_registered h) (sync_log h)
    (regulator_log h) (dev_err_log h) (HZ h) (answers h).
Definition set_irq_requested (v : bool) (h : host) : host :=
  Host (core h) (state h) (ctrlmode h) (bittiming h) (power h) (transceiver h)
    v (candev_open h) (candev_registered h) (sync_log h)
    (regulator_log h) (dev_err_log h) (HZ h) (answers h).
Definition set_candev_open (v : bool) (h : host) : host :=
  Host (core h) (state h) (ctrlmode h) (bittiming h) (power h) (transceiver h)
    (irq_requested h) v (candev_registered h) (sync_log h)
    (regulator_log h) (dev_err_log h) (HZ h) (answers h).
Definition set_candev_registered (v : bool) (h : host) : host :=
  Host (core h) (state h) (ctrlmode h) (bittiming h) (power h) (transceiver h)
    (irq_requested h) (candev_open h) v (sync_log h)
    (regulator_log h) (dev_err_log h) (HZ h) (answers h).
Definition set_sync_log (v : list (list Z)) (h : host) : host :=
  Host (core h) (state h) (ctrlmode h) (bittiming h) (power h) (transceiver h)
    (irq_requested h) (candev_open h) (candev_registered h) v
    (regulator_log h) (dev_err_log h) (HZ h) (answers h).
Definition set_regulator_log (v : list (regulator * bool)) (h : host) : host :=
  Host (core h) (state h) (ctrlmode h) (bittiming h) (power h) (transceiver h)
    (irq_requested h) (candev_open h) (candev_registered h) (sync_log h)
    v (dev_err_log h) (HZ h) (answers h).
Definition set_dev_err_log (v : nat) (h : host) : host :=
  Host (core h) (state h) (ctrlmode h) (bittiming h) (power h) (transceiver h)
    (irq_requested h) (candev_open h) (candev_registered h) (sync_log h)
    (regulator_log h) v (HZ h) (answers h).
Definition set_answers (v : list answer) (h : host) : host :=
  Host (core h) (state h) (ctrlmode h) (bittiming h) (power h) (transceiver h)
    (irq_requested h) (candev_open h) (candev_registered h) (sync_log h)
    (regulator_log h) (dev_err_log h) (HZ h) v.

(** ** Process context *)

(** A function called in process context runs on the device and consumes
    the kernel's answers; [None] when the answers run out before it
    returns, or when a step it makes in the asynchronous core faults. *)
Definition K (A : Type) : Type := host -> option (A * host).

#[global] Instance K_ret : MRet K := fun A a h => Some (a, h).
#[global] Instance K_bind : MBind K := fun A B f m h =>
  match m h with
  | Some (a, h') => f a h'
  | None => None
  end.

Definition kget {A} (f : host -> A) : K A := fun h => Some (f h, h).
Definition kset (f : host -> host) : K unit := fun h => Some (tt, f h).

(** A step of the asynchronous core's monad, made from process context. *)
Definition in_core {A} (m : M A) : K A := fun h =>
  match m (core h) with
  | Ok a w => Some (a, set_core w h)
  | Fault _ => None
  end.

Definition next_answer : K answer := fun h =>
  match answers h with
  | [] => None
  | a :: rest => Some (a, set_answers rest h)
  end.

(** *** Kernel services *)

(** [spi_write(spi, buf, len)] *)
Definition spi_write (buf : list Z) (len : nat) : K Z :=
  kset (fun h => set_sync_log (take len buf :: sync_log h) h);;
  a ← next_answer;
  mret (ans_ret a).

(** [spi_write_then_read(spi, txbuf, n_tx, rxbuf, n_rx)]: the result and the
    [n_rx] bytes of [rxbuf] afterwards. *)
Definition spi_write_then_read (txbuf : list Z) (n_tx n_rx : nat) : K (Z * list Z) :=
  kset (fun h => set_sync_log (take n_tx txbuf :: sync_log h) h);;
  a ← next_answer;
  mret (ans_ret a, u8 <$> take n_rx (ans_data a ++ replicate n_rx 0)).

Definition regulator_enable (r : regulator) : K Z :=
  kset (fun h => set_regulator_log ((r, true) :: regulator_log h) h);;
  a ← next_answer;
  mret (ans_ret a).

Definition regulator_disable (r : regulator) : K Z :=
  kset (fun h => set_regulator_log ((r, false) :: regulator_log h) h);;
  a ← next_answer;
  mret (ans_ret a).

Definition open_candev : K Z :=
  a ← next_answer;
  kset (fun h => if ans_ret a =? 0 then set_candev_open true h else h);;
  mret (ans_ret a).

Definition close_candev : K unit := kset (set_candev_open false).

Definition request_irq : K Z :=
  a ← next_answer;
  kset (fun h => if ans_ret a =? 0 then set_irq_requested true h else h);;
  mret (ans_ret a).

Definition free_irq : K unit := kset (set_irq_requested false).

Definition register_candev : K Z :=
  a ← next_answer;
  kset (fun h => if ans_ret a =? 0 then set_candev_registered true h else h);;
  mret (ans_ret a).

Definition dev_err : K unit := kset (fun h => set_dev_err_log (S (dev_err_log h)) h).
Definition dev_dbg : K unit := mret tt.
Definition netdev_info : K unit := mret tt.
Definition schedule : K unit := mret tt.

(** A read of [jiffies]. *)
Definition jiffies : K Z := a ← next_answer; mret (ulong (ans_ret a)).

Definition netif_start_queue : M unit := dev_set (set_queue_stopped false).

(** ** Synchronous register access *)

Definition mcp2515_write_reg (reg val : Z) : K Z :=
  spi_write [MCP2515_INSTRUCTION_WRITE; u8 reg; u8 val] 3.

(** [mcp2515_read_reg(spi, reg, &val)]: the result and [val] afterwards.
    When the read fails [val] is what it was before, which at both calls is
    an uninitialised local: the answer's byte stands for it. *)
Definition mcp2515_read_reg (reg : Z) : K (Z * Z) :=
  '(err, rx) ← spi_write_then_read [MCP2515_INSTRUCTION_READ; u8 reg] 2 1;
  mret (err, rd rx 0).

Definition mcp2515_hw_reset : K Z :=
  spi_write [MCP2515_INSTRUCTION_RESET] 1.

Definition mcp2515_hw_sleep : K Z :=
  mcp2515_write_reg CANCTRL CANCTRL_REQOP_SLEEP.

Definition mcp2515_switch_regulator (reg : option regulator) (on : Z) : K Z :=
  match reg with
  | None => mret 0
  | Some r => if nonzero on then regulator_enable r else regulator_disable r
  end.

(** ** Starting and stopping the chip *)

(** The loop of [mcp2515_chip_start] that waits for the requested mode, at
    most [fuel] rounds: 0 when the chip reports the mode ([break]), the
    error of a failed read or [-EBUSY] once the deadline has passed (both
    [goto failed_request], both non-zero). Every round takes an answer of
    the kernel, so with more fuel than answers the fuel never runs out
    first. *)
Fixpoint wait_for_mode (fuel : nat) (mode timeout : Z) : K Z :=
  match fuel with
  | O => fun _ => None
  | S fuel' =>
    '(err, reg_stat) ← mcp2515_read_reg CANSTAT;
    if nonzero err then mret err
    else if Z.land reg_stat CANCTRL_REQOP_MASK =? mode then mret 0
    else
      schedule;;
      now ← jiffies;
      if time_after now timeout then
        dev_err;;
        mret (- EBUSY)
      else wait_for_mode fuel' mode timeout
  end.

Definition mcp2515_chip_start : K Z :=
  err ← mcp2515_hw_reset;
  if nonzero err then mret err
  else
    bt ← kget bittiming;
    ctrl ← kget ctrlmode;
    (* set bittiming *)
    in_core (tx_write 0 MCP2515_INSTRUCTION_WRITE);;
    in_core (tx_write 1 CNF3);;
    in_core (tx_write 2 (u32 (phase_seg2 bt - 1)));;
    in_core (tx_write 3
      (Z.lor (Z.lor (Z.lor CNF2_BTLMODE
                           (if nonzero (Z.land ctrl CAN_CTRLMODE_3_SAMPLES)
                            then CNF2_SAM else 0))
                    (u32 (Z.shiftl (u32 (phase_seg1 bt - 1)) 3)))
             (u32 (prop_seg bt - 1))));;
    in_core (tx_write 4
      (Z.lor (u32 (Z.shiftl (u32 (sjw bt - 1)) 6)) (u32 (brp bt - 1))));;
    in_core (tx_write 5 (Z.lor (Z.lor CANINTE_RX CANINTE_TX) CANINTE_ERR));;
    netdev_info;;
    buf ← in_core (priv_get tx_buf);
    err ← spi_write buf 6;
    if nonzero err then mret err
    else
      (* config RX buffers *)
      in_core (tx_write 1 RXB0CTRL);;
      in_core (tx_write 2 (Z.lor (Z.lor RXBCTRL_RXM1 RXBCTRL_RXM0) RXBCTRL_BUKT));;
      in_core (tx_write 3 (Z.lor RXBCTRL_RXM1 RXBCTRL_RXM0));;
      buf ← in_core (priv_get tx_buf);
      err ← spi_write buf 4;
      if nonzero err then mret err
      else
        (* handle can.ctrlmode *)
        let mode :=
          if nonzero (Z.land ctrl CAN_CTRLMODE_LOOPBACK) then CANCTRL_REQOP_LOOPBACK
          else if nonzero (Z.land ctrl CAN_CTRLMODE_LISTENONLY)
               then CANCTRL_REQOP_LISTEN_ONLY
               else CANCTRL_REQOP_NORMAL in
        let mode :=
          if nonzero (Z.land mode CAN_CTRLMODE_ONE_SHOT)
          then u8 (Z.lor mode CANCTRL_OSM) else mode in
        (* put device into requested mode *)
        xc ← kget transceiver;
        mcp2515_switch_regulator xc 1;;
        mcp2515_write_reg CANCTRL mode;;
        (* wait for the device to enter requested mode *)
        j ← jiffies;
        hz ← kget HZ;
        fuel ← kget (fun h => S (length (answers h)));
        err ← wait_for_mode fuel mode (ulong (j + hz));
        if nonzero err then
          xc ← kget transceiver;
          mcp2515_switch_regulator xc 0;;
          mret err
        else
          kset (set_state CAN_STATE_ERROR_ACTIVE);;
          mret 0.

Definition mcp2515_chip_stop : K unit :=
  mcp2515_hw_reset;;
  xc ← kget transceiver;
  mcp2515_switch_regulator xc 0;;
  kset (set_state CAN_STATE_STOPPED).

(** ** The network device operations *)

(** The labels [failed_open:] and after of [mcp2515_open]. *)
Definition open_failed (err : Z) : K Z :=
  mcp2515_hw_sleep;;
  pw ← kget power;
  mcp2515_switch_regulator pw 0;;
  mret err.

Definition mcp2515_open : K Z :=
  pw ← kget power;
  mcp2515_switch_regulator pw 1;;
  err ← open_candev;
  if nonzero err then open_failed err
  else
    err ← request_irq;
    if nonzero err then
      close_candev;;
      open_failed err
    else
      err ← mcp2515_chip_start;
      if nonzero err then
        free_irq;;
        close_candev;;
        open_failed err
      else
        in_core netif_start_queue;;
        mret 0.

Definition mcp2515_close : K Z :=
  in_core netif_stop_queue;;
  mcp2515_chip_stop;;
  free_irq;;
  mcp2515_hw_sleep;;
  pw ← kget power;
  mcp2515_switch_regulator pw 0;;
  close_candev;;
  mret 0.

Definition mcp2515_set_mode (mode : can_mode) : K Z :=
  match mode with
  | CAN_MODE_START =>
    err ← mcp2515_chip_start;
    if nonzero err then mret err
    else
      in_core netif_wake_queue;;
      mret 0
  | _ => mret (- EOPNOTSUPP)
  end.

Definition mcp2515_register_candev : K Z :=
  pw ← kget power;
  mcp2515_switch_regulator pw 1;;
  mcp2515_hw_reset;;
  '(e1, reg_stat) ← mcp2515_read_reg CANSTAT;
  let err := Z.lor 0 e1 in
  '(e2, reg_ctrl) ← mcp2515_read_reg CANCTRL;
  let err := Z.lor err e2 in
  dev_dbg;;
  err ←
    (if negb ((Z.land reg_stat 0xee =? 0x80) && (Z.land reg_ctrl 0x17 =? 0x07))
        || nonzero err
     then
       dev_err;;
       mret (- ENODEV)
     else register_candev);
  if nonzero err then
    mcp2515_hw_sleep;;
    pw ← kget power;
    mcp2515_switch_regulator pw 0;;
    mret err
  else
    mcp2515_hw_sleep;;
    pw ← kget power;
    mcp2515_switch_regulator pw 0;;
    mret 0.

(** ** Vocabulary of the device properties *)

Definition regulator_eqb (a b : regulator) : bool :=
  match a, b with
  | Vdd, Vdd | Xceiver, Xceiver => true
  | _, _ => false
  end.

(** The [regulator_enable] calls on [r] less the [regulator_disable] calls. *)
Fixpoint votes (r : regulator) (log : list (regulator * bool)) : Z :=
  match log with
  | [] => 0
  | (r', on) :: log' =>
    (if regulator_eqb r' r then (if on then 1 else -1) else 0) + votes r log'
  end.

(** The vote a call on the regulator behind a pointer gives [x]; none
    behind a NULL or error pointer. *)
Definition vote_for (reg : option regulator) (x : regulator) : Z :=
  match reg with
  | Some r => if regulator_eqb r x then 1 else 0
  | None => 0
  end.

(** The asynchronous core is as it was, but for the bytes of the transmit
    buffer. *)
Definition core_kept (h h' : host) : Prop :=
  priv (core h') = set_tx_buf (tx_buf (priv (core h'))) (priv (core h)) /\
  dev (core h') = dev (core h).

(** The configuration and the resources of the device are as they were. *)
Definition config_kept (h h' : host) : Prop :=
  ctrlmode h' = ctrlmode h /\ bittiming h' = bittiming h /\
  power h' = power h /\ transceiver h' = transceiver h /\ HZ h' = HZ h /\
  candev_registered h' = candev_registered h.

(** The newest synchronous SPI message. *)
Definition last_sync (h : host) : option (list Z) := head (sync_log h).

(** The message that puts the chip to sleep. *)
Definition sleep_message : list Z :=
  [MCP2515_INSTRUCTION_WRITE; CANCTRL; CANCTRL_REQOP_SLEEP].

(** The operating mode [mcp2515_chip_start] requests for a control mode. *)
Definition requested_mode (ctrl : Z) : Z :=
  if Z.testbit ctrl 0 then CANCTRL_REQOP_LOOPBACK
  else if Z.testbit ctrl 1 then CANCTRL_REQOP_LISTEN_ONLY
  else CANCTRL_REQOP_NORMAL.

(** Bit timing within the limits of [mcp2515_bittiming_const], with the
    first time segment split into two parts of at most eight quanta as the
    registers hold them. *)
Definition bittiming_in_range (bt : can_bittiming) : Prop :=
  1 <= prop_seg bt <= 8 /\ 1 <= phase_seg1 bt <= 8 /\
  2 <= phase_seg2 bt <= 8 /\ 1 <= sjw bt <= 4 /\ 1 <= brp bt <= 64.

(** The chip answers a status read with its power-up defaults. *)
Definition chip_detected (reg_stat reg_ctrl : Z) : bool :=
  (Z.land reg_stat 0xee =? 0x80) && (Z.land reg_ctrl 0x17 =? 0x07).

(** What synchronous register access leaves alone: everything but the log
    of SPI messages, the [dev_err] lines and the answers consumed. *)
Definition device (h : host) :=
  (core h, state h, (ctrlmode h, bittiming h, power h, transceiver h, HZ h),
   (irq_requested h, candev_open h, candev_registered h), regulator_log h).

(** The regulator pointers are the ones [mcp2515_probe] sets. *)
Definition wired (h : host) : Prop :=
  power h <> Some Xceiver /\ transceiver h <> Some Vdd.

(** The three bit-timing registers, as the data sheet lays them out: CNF1
    holds SJW-1 above BRP-1; CNF2 holds BTLMODE, SAM, PHSEG1-1 and PRSEG-1;
    CNF3 holds PHSEG2-1. *)
Definition cnf1_value (bt : can_bittiming) : Z :=
  (sjw bt - 1) * 64 + (brp bt - 1).
Definition cnf2_value (bt : can_bittiming) (ctrl : Z) : Z :=
  128 + (if Z.testbit ctrl 2 then 64 else 0) + (phase_seg1 bt - 1) * 8 +
  (prop_seg bt - 1).
Definition cnf3_value (bt : can_bittiming) : Z := phase_seg2 bt - 1.

(** The four messages [mcp2515_chip_start] sends before it polls the chip,
    newest first. *)
Definition chip_start_messages (bt : can_bittiming) (ctrl : Z) : list (list Z) :=
  [[MCP2515_INSTRUCTION_WRITE; CANCTRL; requested_mode ctrl];
   [MCP2515_INSTRUCTION_WRITE; RXB0CTRL; 0x64; 0x60];
   [MCP2515_INSTRUCTION_WRITE; CNF3; cnf3_value bt; cnf2_value bt ctrl;
    cnf1_value bt; 0x3f];
   [MCP2515_INSTRUCTION_RESET]].

(** A device as [mcp2515_probe] leaves it: both supplies present, the bit
    timing of 125 kbit/s at a 4 MHz time-quantum clock, nothing held, and
    the answers the kernel is going to give. *)
Definition host0 (answers : list answer) : host :=
  Host world0 CAN_STATE_STOPPED 0 (CanBittiming 2 7 6 1 4) (Some Vdd)
    (Some Xceiver) false false false [] [] 0 250 answers.

(** A call that succeeds and delivers no data. *)
Definition ok : answer := Answer 0 [].

(** * Proofs *)

(** ** Bits and bytes *)

Lemma u8_range x : 0 <= u8 x < 256.
Proof.
  unfold u8. change 255 with (Z.ones 8). rewrite Z.land_ones by lia.
  apply Z.mod_pos_bound. lia.
Qed.

Lemma u8_id x : 0 <= x < 256 -> u8 x = x.
Proof.
  intros H. unfold u8. change 255 with (Z.ones 8). rewrite Z.land_ones by lia.
  apply Z.mod_small. lia.
Qed.

Lemma u32_range x : 0 <= u32 x < 2 ^ 32.
Proof.
  unfold u32. change 4294967295 with (Z.ones 32). rewrite Z.land_ones by lia.
  apply Z.mod_pos_bound. lia.
Qed.

Lemma u32_id x : 0 <= x < 2 ^ 32 -> u32 x = x.
Proof.
  intros H. unfold u32. change 4294967295 with (Z.ones 32).
  rewrite Z.land_ones by lia. apply Z.mod_small. lia.
Qed.

Lemma BIT_pow2 k : 0 <= k -> BIT k = 2 ^ k.
Proof. intros H. unfold BIT. apply Z.shiftl_1_l. Qed.

(** A C test [x & BIT(k)] looks at bit [k]. *)
Lemma nonzero_land_BIT x k : 0 <= k -> nonzero (Z.land x (BIT k)) = Z.testbit x k.
Proof.
  intros Hk. unfold nonzero. rewrite BIT_pow2 by lia.
  destruct (Z.testbit x k) eqn:Hb.
  - apply negb_true_iff, Z.eqb_neq. intros H0.
    assert (Hk' : Z.testbit (Z.land x (2 ^ k)) k = true).
    { rewrite Z.land_spec, Hb, Z.pow2_bits_true by lia. reflexivity. }
    rewrite H0, Z.bits_0 in Hk'. discriminate.
  - apply negb_false_iff, Z.eqb_eq. apply Z.bits_inj'. intros n Hn.
    rewrite Z.land_spec, Z.bits_0, Z.pow2_bits_eqb by lia.
    destruct (Z.eqb_spec k n) as [->|]; [rewrite Hb|]; auto using andb_false_r.
Qed.

Lemma land_BIT_eqb x k : 0 <= k -> (Z.land (BIT k) x =? 0) = negb (Z.testbit x k).
Proof.
  intros Hk. rewrite Z.land_comm, <- (nonzero_land_BIT x k Hk).
  unfold nonzero. now rewrite negb_involutive.
Qed.

(** Two 32-bit values that agree on bits 0..31 are equal. *)
Lemma bits32_inj a b :
  (forall n, 0 <= n < 32 -> Z.testbit a n = Z.testbit b n) -> u32 a = u32 b.
Proof.
  intros H. unfold u32. apply Z.bits_inj'. intros n Hn.
  rewrite !Z.land_spec. change 4294967295 with (Z.ones 32).
  destruct (Z.ltb_spec n 32).
  - rewrite H by lia. reflexivity.
  - rewrite Z.ones_spec_high by lia. now rewrite !andb_false_r.
Qed.

Lemma bit_index_cases n :
  0 <= n < 32 ->
  In n ltac:(let l := eval cbv in (map Z.of_nat (seq 0 32)) in exact l).
Proof.
  intros H. replace n with (Z.of_nat (Z.to_nat n)) by lia.
  change (In (Z.of_nat (Z.to_nat n)) (map Z.of_nat (seq 0 32))).
  apply in_map, in_seq. lia.
Qed.

Lemma testbit_high x k n : 0 <= x < 2 ^ k -> k <= n -> Z.testbit x n = false.
Proof.
  intros [H0 H1] Hn. destruct (Z.eq_dec x 0) as [->|Hx]; [apply Z.bits_0|].
  apply Z.bits_above_log2; [lia|].
  assert (Z.log2 x < k); [|lia].
  apply Z.log2_lt_pow2; lia.
Qed.

(** [memcpy] inside the destination: the bytes before [off] and from
    [off + n] on stay, the [n] bytes between come from the source. *)
Lemma memcpy_spec dst off src n :
  (off + n <= length dst)%nat -> (n <= length src)%nat ->
  memcpy dst off src n = take off dst ++ take n src ++ drop (off + n) dst.
Proof.
  intros Hd Hs. unfold memcpy.
  rewrite <- (take_drop off dst) at 1.
  rewrite <- (take_drop n (drop off dst)) at 1.
  rewrite drop_drop.
  assert (Hl : length (take off dst) = off) by (rewrite length_take; lia).
  rewrite <- Hl at 1.
  replace (length (take off dst)) with (length (take off dst) + 0)%nat by lia.
  rewrite list_inserts_app_r. f_equal.
  apply list_inserts_0_r. rewrite !length_take, length_drop. lia.
Qed.

Lemma get_can_dlc_low4 x : get_can_dlc (Z.land x 0xf) = Z.min (Z.land x 0xf) 8.
Proof.
  unfold get_can_dlc, u8, CAN_MAX_DLC.
  rewrite <- Z.land_assoc. reflexivity.
Qed.

Lemma low4_range x : 0 <= Z.land x 0xf < 16.
Proof.
  change 0xf with (Z.ones 4). rewrite Z.land_ones by lia.
  apply Z.mod_pos_bound. lia.
Qed.

(** ** The receive decoder *)

Lemma decode_rxb_dlc frame buf :
  can_dlc (mcp2515_decode_rxb frame buf) = Z.min (Z.land (rd buf 5) 0xf) 8.
Proof. unfold mcp2515_decode_rxb. cbn [can_dlc]. apply get_can_dlc_low4. Qed.

Lemma decode_rxb_data frame buf :
  data (mcp2515_decode_rxb frame buf) =
  if is_rtr (mcp2515_decode_rxb frame buf)
  then data frame
  else memcpy (data frame) 0 (drop 6 buf)
              (Z.to_nat (can_dlc (mcp2515_decode_rxb frame buf))).
Proof.
  unfold is_rtr, mcp2515_decode_rxb. cbn [can_id can_dlc data].
  change CAN_RTR_FLAG with (BIT 30).
  rewrite !nonzero_land_BIT by lia.
  match goal with |- context [Z.testbit ?i 30] => destruct (Z.testbit i 30) end;
    reflexivity.
Qed.

(** C9: the decoded length is the low four bits of the DLC byte, clamped to
    8; the payload is copied from the buffer exactly when the decoded frame
    is not a remote request, and then the first [can_dlc] bytes of the frame
    are bytes 6.. of the buffer and the rest of the frame is untouched. The
    frame that [mcp2515_read_rxb_complete] hands to the stack is this one. *)
Theorem rxb_decode_length_and_payload (frame : can_frame) (buf : list Z) :
  length buf = 14%nat ->
  length (data frame) = 8%nat ->
  let f := mcp2515_decode_rxb frame buf in
  let n := Z.to_nat (can_dlc f) in
  can_dlc f = Z.min (Z.land (rd buf 5) 0xf) 8 /\
  0 <= can_dlc f <= 8 /\
  data f = (if is_rtr f then data frame
            else take n (drop 6 buf) ++ drop n (data frame)) /\
  forall k w, alloc_can_skb k = Some frame -> rx_buf (priv w) = buf ->
    exists w', mcp2515_read_rxb_complete k w = Ok tt w' /\
               rx_delivered (dev w') = f :: rx_delivered (dev w) /\
               priv w' = priv w.
Proof.
  intros Hbuf Hdata f n.
  assert (Hdlc : can_dlc f = Z.min (Z.land (rd buf 5) 0xf) 8)
    by apply decode_rxb_dlc.
  assert (Hr := low4_range (rd buf 5)).
  split; [exact Hdlc|]. split; [lia|]. split.
  - subst f n. rewrite decode_rxb_data.
    destruct (is_rtr _); [reflexivity|].
    rewrite memcpy_spec; [reflexivity| |].
    + rewrite Hdata. lia.
    + rewrite length_drop, Hbuf. lia.
  - intros k w Hk Hw. unfold mcp2515_read_rxb_complete.
    eexists. split.
    + unfold mbind, M_bind, priv_get. cbn. rewrite Hk, Hw. cbn. reflexivity.
    + cbn. auto.
Qed.

Lemma rxb_decode_length_and_payload_witness :
  let buf := [0x90; 0x24; 0x60; 0; 0; 0x0b; 1; 2; 3; 4; 5; 6; 7; 8] in
  let f := mcp2515_decode_rxb (CanFrame 0 0 (replicate 8 0)) buf in
  can_dlc f = 8 /\ data f = [1; 2; 3; 4; 5; 6; 7; 8].
Proof.
  pose proof (rxb_decode_length_and_payload
                (CanFrame 0 0 (replicate 8 0))
                [0x90; 0x24; 0x60; 0; 0; 0x0b; 1; 2; 3; 4; 5; 6; 7; 8]
                eq_refl eq_refl) as (H1 & _ & H3 & _).
  split; [exact H1 | exact H3].
Defined.

(** ** The codec round trip *)

(** Bit-by-bit reasoning on 32-bit words: the goal is a [Z.testbit] equation
    at a literal index; push [Z.testbit] through the bitwise operations down
    to literals and to the bits of the variables. *)
Ltac index_arith :=
  repeat match goal with
  | |- context [Z.testbit _ (?i - ?j)] =>
    let v := eval compute in (i - j) in change (i - j) with v
  | |- context [Z.testbit _ (?i + ?j)] =>
    let v := eval compute in (i + j) in change (i + j) with v
  end.

Ltac push_testbit :=
  repeat first
  [ rewrite Z.lor_spec
  | rewrite Z.land_spec
  | match goal with
    | |- context [Z.testbit ?a (Zneg ?q)] =>
      rewrite (Z.testbit_neg_r a (Zneg q)) by reflexivity
    end
  | rewrite Z.shiftr_spec by lia
  | rewrite Z.shiftl_spec by lia
  | progress index_arith ].

Ltac literal_bits :=
  repeat match goal with
  | |- context [Z.testbit (Zpos ?p) (Zpos ?q)] =>
    let v := eval compute in (Z.testbit (Zpos p) (Zpos q)) in
    change (Z.testbit (Zpos p) (Zpos q)) with v
  | |- context [Z.testbit (Zpos ?p) 0] =>
    let v := eval compute in (Z.testbit (Zpos p) 0) in
    change (Z.testbit (Zpos p) 0) with v
  | |- context [Z.testbit 0 ?q] => rewrite (Z.bits_0 q)
  end.

Ltac bool_cases :=
  repeat match goal with
  | H : Z.testbit ?a ?i = _ |- context [Z.testbit ?a ?i] => rewrite H
  | |- context [Z.testbit ?a ?i] => destruct (Z.testbit a i)
  end; reflexivity.

Ltac bitblast32 :=
  apply bits32_inj;
  let n := fresh "n" in let Hn := fresh "Hn" in
  intros n Hn; apply bit_index_cases in Hn; simpl in Hn;
  repeat (destruct Hn as [<-|Hn]; [push_testbit; literal_bits; bool_cases|]);
  contradiction.

Lemma ident_high_bits ext ident n :
  valid_ident ext ident -> 29 <= n -> Z.testbit ident n = false.
Proof.
  intros [H0 H1] Hn. apply (testbit_high ident 29); [|lia].
  destruct ext; unfold CAN_EFF_MASK, CAN_SFF_MASK in H1; lia.
Qed.

Lemma std_ident_high_bits ident n :
  valid_ident false ident -> 11 <= n -> Z.testbit ident n = false.
Proof.
  intros [H0 H1] Hn. apply (testbit_high ident 11); [|lia].
  unfold CAN_SFF_MASK in H1; lia.
Qed.

Lemma u32_of_bits x :
  (forall n, 32 <= n -> Z.testbit x n = false) -> u32 x = x.
Proof.
  intros H. unfold u32. apply Z.bits_inj'. intros n Hn.
  rewrite Z.land_spec. change 4294967295 with (Z.ones 32).
  destruct (Z.ltb_spec n 32).
  - rewrite Z.ones_spec_low by lia. apply andb_true_r.
  - rewrite H by lia. reflexivity.
Qed.

Lemma flag_bit (b : bool) k n :
  0 <= k -> 0 <= n -> Z.testbit (if b then 2 ^ k else 0) n = b && (k =? n).
Proof.
  intros Hk Hn. destruct b; [apply Z.pow2_bits_eqb; lia | apply Z.bits_0].
Qed.

Lemma mk_can_id_bits ext rtr ident n :
  0 <= n ->
  Z.testbit (mk_can_id ext rtr ident) n =
  Z.testbit ident n || ext && (31 =? n) || rtr && (30 =? n).
Proof.
  intros Hn. unfold mk_can_id. rewrite !Z.lor_spec.
  change CAN_EFF_FLAG with (2 ^ 31). change CAN_RTR_FLAG with (2 ^ 30).
  rewrite !flag_bit by lia. reflexivity.
Qed.

Lemma mk_can_id_u32 ext rtr ident :
  valid_ident ext ident -> u32 (mk_can_id ext rtr ident) = mk_can_id ext rtr ident.
Proof.
  intros Hv. apply u32_of_bits. intros n Hn.
  rewrite mk_can_id_bits by lia.
  rewrite (ident_high_bits ext ident n Hv) by lia.
  replace (31 =? n) with false by (symmetry; apply Z.eqb_neq; lia).
  replace (30 =? n) with false by (symmetry; apply Z.eqb_neq; lia).
  now rewrite !andb_false_r.
Qed.

Lemma mk_can_id_flags ext rtr ident :
  valid_ident ext ident ->
  Z.testbit (mk_can_id ext rtr ident) 31 = ext /\
  Z.testbit (mk_can_id ext rtr ident) 30 = rtr.
Proof.
  intros H. rewrite !mk_can_id_bits by lia.
  rewrite !(ident_high_bits ext ident) by (auto; lia).
  destruct ext, rtr; split; reflexivity.
Qed.

(** The four identifier bytes of an extended frame decode to the
    identifier with the EFF flag. *)
Lemma ext_id_bytes rtr ident :
  valid_ident true ident ->
  let id := mk_can_id true rtr ident in
  let b1 := u8 (Z.shiftr id 21) in
  let b2 := u8 (Z.lor (Z.lor (Z.land (Z.shiftr id 13) 0xe0) 8)
                      (Z.land (Z.shiftr id 16) 3)) in
  let b3 := u8 (Z.shiftr id 8) in
  let b4 := u8 id in
  u32 (Z.lor (Z.lor (Z.lor (Z.lor (Z.lor
         (Z.shiftl b1 21)
         (Z.shiftl (Z.land b2 0xe0) 13))
         (Z.shiftl (Z.land b2 3) 16))
         (Z.shiftl b3 8))
         b4)
         CAN_EFF_FLAG)
  = mk_can_id true false ident.
Proof.
  intros Hv id b1 b2 b3 b4.
  rewrite <- (mk_can_id_u32 true false ident) by auto.
  assert (H29 := ident_high_bits true ident 29 Hv ltac:(lia)).
  assert (H30 := ident_high_bits true ident 30 Hv ltac:(lia)).
  assert (H31 := ident_high_bits true ident 31 Hv ltac:(lia)).
  subst id b1 b2 b3 b4. unfold mk_can_id, u8, CAN_EFF_FLAG, CAN_RTR_FLAG.
  destruct rtr; bitblast32.
Qed.

Lemma ext_ide_bit id :
  Z.testbit (u8 (Z.lor (Z.lor (Z.land (Z.shiftr id 13) 0xe0) 8)
                       (Z.land (Z.shiftr id 16) 3))) 3 = true.
Proof. unfold u8. push_testbit. literal_bits. bool_cases. Qed.

(** The two identifier bytes of a standard frame decode to the identifier;
    the IDE and SRR bits of the second byte are clear. *)
Lemma std_id_bytes rtr ident :
  valid_ident false ident ->
  let id := mk_can_id false rtr ident in
  let b1 := u8 (Z.shiftr id 3) in
  let b2 := u8 (u32 (Z.shiftl id 5)) in
  u32 (Z.lor (Z.shiftl b1 3) (Z.shiftr b2 5)) = mk_can_id false false ident /\
  Z.testbit b2 3 = false /\ Z.testbit b2 4 = false.
Proof.
  intros Hv id b1 b2.
  assert (Hhi : forall n, 11 <= n -> Z.testbit ident n = false)
    by (intros; apply std_ident_high_bits; auto).
  subst id b1 b2.
  split; [|split].
  - rewrite <- (mk_can_id_u32 false false ident) by auto.
    unfold mk_can_id, u8, CAN_EFF_FLAG, CAN_RTR_FLAG.
    unfold u32 at 2.
    pose proof (Hhi 11 ltac:(lia)). pose proof (Hhi 12 ltac:(lia)).
    pose proof (Hhi 13 ltac:(lia)). pose proof (Hhi 14 ltac:(lia)).
    pose proof (Hhi 15 ltac:(lia)). pose proof (Hhi 16 ltac:(lia)).
    pose proof (Hhi 17 ltac:(lia)). pose proof (Hhi 18 ltac:(lia)).
    pose proof (Hhi 19 ltac:(lia)). pose proof (Hhi 20 ltac:(lia)).
    pose proof (Hhi 21 ltac:(lia)). pose proof (Hhi 22 ltac:(lia)).
    pose proof (Hhi 23 ltac:(lia)). pose proof (Hhi 24 ltac:(lia)).
    pose proof (Hhi 25 ltac:(lia)). pose proof (Hhi 26 ltac:(lia)).
    pose proof (Hhi 27 ltac:(lia)). pose proof (Hhi 28 ltac:(lia)).
    pose proof (Hhi 29 ltac:(lia)). pose proof (Hhi 30 ltac:(lia)).
    pose proof (Hhi 31 ltac:(lia)). clear Hhi.
    destruct rtr; bitblast32.
  - unfold u8, u32. push_testbit. literal_bits. bool_cases.
  - unfold u8, u32. push_testbit. literal_bits. bool_cases.
Qed.

Lemma rtr_flag_or ext ident :
  valid_ident ext ident ->
  u32 (Z.lor (mk_can_id ext false ident) CAN_RTR_FLAG) = mk_can_id ext true ident.
Proof.
  intros Hv. rewrite <- (mk_can_id_u32 ext true ident) by auto.
  unfold mk_can_id. cbn [negb]. now rewrite Z.lor_0_r.
Qed.

(** The DLC byte the encoder writes: the length, with bit 6 for a remote
    request. *)
Lemma dlc_byte (rtr : bool) dlc :
  0 <= dlc <= 8 ->
  let b := if rtr then u8 (Z.lor dlc 0x40) else dlc in
  get_can_dlc (Z.land b 0xf) = dlc /\ Z.testbit b 6 = rtr.
Proof.
  intros H b. subst b.
  assert (Hc : In dlc [0; 1; 2; 3; 4; 5; 6; 7; 8]).
  { replace dlc with (Z.of_nat (Z.to_nat dlc)) by lia.
    change [0; 1; 2; 3; 4; 5; 6; 7; 8] with (map Z.of_nat (seq 0 9)).
    apply in_map, in_seq. lia. }
  simpl in Hc.
  repeat (destruct Hc as [<-|Hc]; [destruct rtr; split; reflexivity|]).
  contradiction.
Qed.

(** What [mcp2515_set_txbuf] leaves in a 13-byte view: five header bytes,
    the payload, and the old content behind it. *)
Lemma set_txbuf_layout buf id dlc payload :
  length buf = 13%nat -> 0 <= dlc <= 8 -> length payload = 8%nat ->
  exists h0 h1 h2 h3,
    fst (mcp2515_set_txbuf buf (SkBuff (CanFrame id dlc payload))) =
      h0 :: h1 :: h2 :: h3 ::
      (if nonzero (Z.land id CAN_RTR_FLAG) then u8 (Z.lor dlc 0x40) else dlc) ::
      take (Z.to_nat dlc) payload ++ drop (5 + Z.to_nat dlc) buf /\
    (h0, h1, h2, h3) =
      if nonzero (Z.land id CAN_EFF_FLAG) then
        (u8 (Z.shiftr id 21),
         u8 (Z.lor (Z.lor (Z.land (Z.shiftr id 13) 0xe0) 8) (Z.land (Z.shiftr id 16) 3)),
         u8 (Z.shiftr id 8),
         u8 id)
      else (u8 (Z.shiftr id 3), u8 (u32 (Z.shiftl id 5)), 0, 0).
Proof.
  intros Hbuf Hdlc Hpay.
  do 13 (destruct buf as [|? buf]; [discriminate Hbuf|]).
  destruct buf; [|discriminate Hbuf].
  unfold mcp2515_set_txbuf. cbn [skb_data can_id can_dlc data fst].
  destruct (nonzero (Z.land id CAN_EFF_FLAG));
    destruct (nonzero (Z.land id CAN_RTR_FLAG));
    (do 4 eexists; split; [|reflexivity]);
    (rewrite memcpy_spec; [reflexivity | cbn; lia | lia]).
Qed.

Lemma rtr_test x : nonzero (Z.land x CAN_RTR_FLAG) = Z.testbit x 30.
Proof. change CAN_RTR_FLAG with (BIT 30). apply nonzero_land_BIT. lia. Qed.

Lemma take_take_app {A} (n : nat) (l k : list A) :
  (n <= length l)%nat -> take n (take n l ++ k) = take n l.
Proof.
  intros H. rewrite take_app_le by (rewrite length_take; lia).
  rewrite take_take. f_equal. lia.
Qed.

(** Encoding a frame and decoding the same bytes: everything comes back,
    except that a standard remote frame comes back as a data frame, and that
    no payload is copied into a remote frame. *)
Lemma loopback_spec ext rtr ident dlc payload frame0 i0 buf :
  valid_ident ext ident -> 0 <= dlc <= 8 -> length payload = 8%nat ->
  length buf = 13%nat -> length (data frame0) = 8%nat ->
  loopback frame0 i0 buf (CanFrame (mk_can_id ext rtr ident) dlc payload) =
  CanFrame (mk_can_id ext (rtr && ext) ident) dlc
    (if rtr && ext then data frame0
     else take (Z.to_nat dlc) payload ++ drop (Z.to_nat dlc) (data frame0)).
Proof.
  intros Hv Hdlc Hpay Hbuf Hf0.
  destruct (set_txbuf_layout buf (mk_can_id ext rtr ident) dlc payload Hbuf Hdlc Hpay)
    as (h0 & h1 & h2 & h3 & Henc & Hh).
  destruct (mk_can_id_flags ext rtr ident Hv) as [Heff Hrtr].
  change CAN_EFF_FLAG with (BIT 31) in Hh.
  change CAN_RTR_FLAG with (BIT 30) in Henc.
  rewrite nonzero_land_BIT in Hh, Henc by lia. rewrite Heff in Hh. rewrite Hrtr in Henc.
  unfold loopback. rewrite Henc. clear Henc.
  destruct (dlc_byte rtr dlc Hdlc) as [Hlen Hbit6].
  unfold mcp2515_decode_rxb.
  cbn [rd default from_option id lookup list_lookup drop].
  change RXBSIDL_IDE with (BIT 3). change RXBSIDL_SRR with (BIT 4).
  change RXBDLC_RTR with (BIT 6).
  rewrite !nonzero_land_BIT, !rtr_test by lia.
  rewrite Hlen, Hbit6.
  assert (Hcopy : memcpy (data frame0) 0
                    (take (Z.to_nat dlc) payload ++ drop (5 + Z.to_nat dlc) buf)
                    (Z.to_nat dlc) =
                  take (Z.to_nat dlc) payload ++ drop (Z.to_nat dlc) (data frame0)).
  { rewrite memcpy_spec.
    - cbn [take Nat.add app]. rewrite take_take_app by lia. reflexivity.
    - lia.
    - rewrite length_app, length_take. lia. }
  destruct ext.
  - injection Hh as -> -> -> ->.
    rewrite ext_ide_bit, (ext_id_bytes rtr ident Hv).
    destruct rtr; cbn [andb].
    + rewrite rtr_flag_or by auto.
      destruct (mk_can_id_flags true true ident Hv) as [_ ->]. reflexivity.
    + destruct (mk_can_id_flags true false ident Hv) as [_ ->].
      cbn [negb]. rewrite drop_0, Hcopy. reflexivity.
  - injection Hh as -> -> -> ->.
    destruct (std_id_bytes rtr ident Hv) as (Hid & Hide & Hsrr).
    rewrite Hide, Hsrr, Hid. rewrite andb_false_r.
    destruct (mk_can_id_flags false false ident Hv) as [_ ->].
    cbn [negb]. rewrite drop_0, Hcopy. reflexivity.
Qed.

(** C5, as the code has it: for every valid frame (standard or extended
    identifier, length 0..8, any payload), encoding it with the transmit
    encoder and decoding the same bytes with the receive decoder recovers
    the length always; identifier, remote-request flag and payload exactly
    when the frame is not a remote request; identifier and flag, with no
    payload copied, for an extended remote request; and for a standard
    remote request the identifier and payload but not the flag, which the
    encoder puts in the DLC byte and the decoder reads from SIDL. *)
Theorem codec_round_trip ext rtr ident dlc payload frame0 i0 buf :
  valid_ident ext ident -> 0 <= dlc <= 8 -> length payload = 8%nat ->
  length buf = 13%nat -> length (data frame0) = 8%nat ->
  let f := CanFrame (mk_can_id ext rtr ident) dlc payload in
  let f' := loopback frame0 i0 buf f in
  can_dlc f' = dlc /\
  (rtr = false -> round_trip_exact frame0 i0 buf f) /\
  (rtr = true -> ext = true ->
     can_id f' = can_id f /\ is_rtr f' = true /\ data f' = data frame0) /\
  (rtr = true -> ext = false ->
     can_id f' = mk_can_id false false ident /\ is_rtr f' = false /\
     take (Z.to_nat dlc) (data f') = take (Z.to_nat dlc) payload).
Proof.
  intros Hv Hdlc Hpay Hbuf Hf0 f f'.
  assert (Hf' := loopback_spec ext rtr ident dlc payload frame0 i0 buf
                   Hv Hdlc Hpay Hbuf Hf0).
  fold f f' in Hf'.
  assert (Htake : take (Z.to_nat dlc)
            (take (Z.to_nat dlc) payload ++ drop (Z.to_nat dlc) (data frame0)) =
          take (Z.to_nat dlc) payload) by (apply take_take_app; lia).
  split; [rewrite Hf'; reflexivity|]. split; [|split].
  - intros ->. unfold round_trip_exact. fold f f'. rewrite Hf'.
    cbn [andb can_id can_dlc data f]. auto.
  - intros -> ->. rewrite Hf'. cbn [andb can_id data f]. unfold is_rtr.
    cbn [can_id]. destruct (mk_can_id_flags true true ident Hv) as [_ ->]. auto.
  - intros -> ->. rewrite Hf'. cbn [andb can_id data]. unfold is_rtr.
    cbn [can_id]. destruct (mk_can_id_flags false false ident Hv) as [_ ->]. auto.
Qed.

Lemma codec_round_trip_witness :
  round_trip_exact (CanFrame 0 0 (replicate 8 0)) 0x40 (replicate 13 0)
    (CanFrame (mk_can_id true false 0x12345) 3 [1; 2; 3; 4; 5; 6; 7; 8]).
Proof.
  refine (proj1 (proj2 (codec_round_trip true false 0x12345 3
            [1; 2; 3; 4; 5; 6; 7; 8] (CanFrame 0 0 (replicate 8 0)) 0x40
            (replicate 13 0) _ _ eq_refl eq_refl eq_refl)) eq_refl).
  - unfold valid_ident, CAN_EFF_MASK. lia.
  - lia.
Defined.

(** C5 as stated fails: a standard remote request with identifier 1 and
    length 2 does not come back with the same [can_id]. *)
Lemma codec_round_trip_counterexample :
  let f := CanFrame (mk_can_id false true 1) 2 [1; 2; 3; 4; 5; 6; 7; 8] in
  valid_ident false 1 /\ 0 <= can_dlc f <= 8 /\ length (data f) = 8%nat /\
  ~ round_trip_exact (CanFrame 0 0 (replicate 8 0)) 0x40 (replicate 13 0) f.
Proof.
  cbn. split; [unfold valid_ident, CAN_SFF_MASK; lia|].
  split; [lia|]. split; [reflexivity|].
  unfold round_trip_exact. intros [H _]. vm_compute in H. discriminate H.
Qed.

(** ** Running the handlers symbolically *)

Ltac destruct_world w :=
  let p := fresh "p" in let d := fresh "d" in
  destruct w as [p d]; destruct p, d;
  cbn [priv dev canintf eflg skb lock busy interrupt netif_queue_stopped
       loaded_txb tx_busy_map tx_pending_map extra skip message_complete
       transfer_len rx_buf tx_buf timer rx_packets rx_bytes rx_dropped
       rx_over_errors tx_packets tx_bytes queue_stopped rx_delivered
       spi_inflight spi_log err_log unlocked_busy_writes] in *.

(** Name the bytes of a buffer of known length. *)
Ltac destruct_buf H :=
  repeat match type of H with
  | context [length ?l] =>
    is_var l; destruct l; cbn [length] in H; try discriminate H
  end.

(** Unfold the monad, the kernel services and the record updates; leave
    the integer operations, the codec and the handlers alone. *)
Ltac exec :=
  cbv [mbind M_bind mret M_ret raise priv_get priv_set dev_get dev_set when
       spin_lock_bh spin_unlock_bh write_busy netdev_err netdev_dbg
       netif_stop_queue netif_wake_queue netif_rx_ni mod_timer spi_async
       tx_write skb_store skb_load submit with_priv snapshot
       mcp2515_spi_async mcp2515_update_device_stats
       set_canintf set_eflg set_skb set_lock set_busy set_interrupt
       set_netif_queue_stopped set_loaded_txb set_tx_busy_map
       set_tx_pending_map set_extra set_skip set_message_complete
       set_transfer_len set_rx_buf set_tx_buf set_timer
       set_rx_packets set_rx_bytes set_rx_dropped set_rx_over_errors
       set_tx_packets set_tx_bytes set_queue_stopped set_rx_delivered
       set_spi_inflight set_spi_log set_err_log set_unlocked_busy_writes
       priv dev canintf eflg skb lock busy interrupt netif_queue_stopped
       loaded_txb tx_busy_map tx_pending_map extra skip message_complete
       transfer_len rx_buf tx_buf timer rx_packets rx_bytes rx_dropped
       rx_over_errors tx_packets tx_bytes queue_stopped rx_delivered
       spi_inflight spi_log err_log unlocked_busy_writes
       negb andb orb].

(** Case on the conditions the run is stuck on. *)
Ltac branch :=
  match goal with
  | |- context [if ?c then _ else _] =>
    lazymatch c with
    | context [if _ then _ else _] => fail
    | _ => destruct c eqn:?
    end
  end.

(** Whether the transport takes the message. *)
Ltac spi_cases :=
  unfold nonzero; cbv [negb];
  match goal with
  | |- context [spi_async_ret ?k =? 0] => destruct (spi_async_ret k =? 0)
  end; reflexivity.

(** *** The seven transfers *)

Lemma mcp2515_read_flags_eq k w :
  length (tx_buf (priv w)) = 14%nat ->
  mcp2515_read_flags k w =
  Ok tt (submit k Cb_read_flags (read_flags_bytes (tx_buf (priv w))) 4 w).
Proof.
  intros H. destruct_world w. destruct_buf H.
  unfold mcp2515_read_flags. exec. spi_cases.
Qed.

Lemma mcp2515_read_rxb_eq k n cb w :
  length (tx_buf (priv w)) = 14%nat -> 0 <= n <= 1 ->
  mcp2515_read_rxb k (MCP2515_INSTRUCTION_READ_RXB n) cb w =
  Ok tt (submit k cb (read_rxb_bytes n) 14 w).
Proof.
  intros H Hn. destruct_world w. destruct_buf H.
  assert (Hi : u8 (MCP2515_INSTRUCTION_READ_RXB n) = MCP2515_INSTRUCTION_READ_RXB n).
  { assert (n = 0 \/ n = 1) as [-> | ->] by lia; reflexivity. }
  unfold mcp2515_read_rxb. exec. cbn. rewrite Hi. spi_cases.
Qed.

Lemma mcp2515_clear_canintf_eq k w :
  length (tx_buf (priv w)) = 14%nat ->
  mcp2515_clear_canintf k w =
  Ok tt (submit k Cb_clear_canintf
           (clear_canintf_bytes (canintf (priv w)) (tx_buf (priv w))) 4 w).
Proof.
  intros H. destruct_world w. destruct_buf H.
  unfold mcp2515_clear_canintf. exec. spi_cases.
Qed.

Lemma mcp2515_clear_eflg_eq k w :
  length (tx_buf (priv w)) = 14%nat ->
  mcp2515_clear_eflg k w =
  Ok tt (submit k Cb_clear_eflg
           (clear_eflg_bytes (eflg (priv w)) (tx_buf (priv w))) 4 w).
Proof.
  intros H. destruct_world w. destruct_buf H.
  unfold mcp2515_clear_eflg. exec. spi_cases.
Qed.

Lemma mcp2515_rts_txb_eq k w :
  length (tx_buf (priv w)) = 14%nat ->
  mcp2515_rts_txb k w =
  Ok tt (submit k Cb_rts_txb
           (rts_txb_bytes (loaded_txb (priv w)) (tx_buf (priv w))) 1 w).
Proof.
  intros H. destruct_world w. destruct_buf H.
  unfold mcp2515_rts_txb. exec. spi_cases.
Qed.

Lemma mcp2515_load_txb_eq k s abc w :
  length (tx_buf (priv w)) = 14%nat ->
  mcp2515_load_txb (Some s) k abc w =
  Ok tt (submit k Cb_load_txb
           (load_txb_bytes abc s (tx_buf (priv w)))
           (5 + can_dlc (skb_data s) + 1)
           (with_priv (set_loaded_txb (u8 abc)) w)).
Proof.
  intros H. destruct_world w. destruct_buf H.
  unfold mcp2515_load_txb, load_txb_bytes.
  exec. cbn [insert list_insert drop take app].
  destruct (mcp2515_set_txbuf _ s) as [body n] eqn:E.
  assert (Hn : n = 5 + can_dlc (skb_data s)).
  { unfold mcp2515_set_txbuf in E. injection E as _ <-. reflexivity. }
  subst n. exec. cbn [fst]. spi_cases.
Qed.

Lemma mcp2515_load_txb_null k abc w :
  mcp2515_load_txb None k abc w = Fault NullPointer.
Proof. reflexivity. Qed.


Lemma mcp2515_read_rxb0_eq k w :
  length (tx_buf (priv w)) = 14%nat ->
  mcp2515_read_rxb0 k w = Ok tt (submit k Cb_read_rxb0 (read_rxb_bytes 0) 14 w).
Proof. intros H. exact (mcp2515_read_rxb_eq k 0 Cb_read_rxb0 w H ltac:(lia)). Qed.

Lemma mcp2515_read_rxb1_eq k w :
  length (tx_buf (priv w)) = 14%nat ->
  mcp2515_read_rxb1 k w = Ok tt (submit k Cb_read_rxb1 (read_rxb_bytes 1) 14 w).
Proof. intros H. exact (mcp2515_read_rxb_eq k 1 Cb_read_rxb1 w H ltac:(lia)). Qed.

(** Every transfer leaves a 14-byte buffer behind. *)
Lemma submit_tx_buf k cb tx len w : tx_buf (priv (submit k cb tx len w)) = tx.
Proof. reflexivity. Qed.

Lemma read_flags_bytes_length old :
  length old = 14%nat -> length (read_flags_bytes old) = 14%nat.
Proof. intros H. unfold read_flags_bytes. rewrite length_app, length_drop, H. reflexivity. Qed.

Lemma clear_canintf_bytes_length intf old :
  length old = 14%nat -> length (clear_canintf_bytes intf old) = 14%nat.
Proof. intros H. unfold clear_canintf_bytes. rewrite length_app, length_drop, H. reflexivity. Qed.

Lemma clear_eflg_bytes_length flg old :
  length old = 14%nat -> length (clear_eflg_bytes flg old) = 14%nat.
Proof. intros H. unfold clear_eflg_bytes. rewrite length_app, length_drop, H. reflexivity. Qed.

Lemma rts_txb_bytes_length n old :
  length old = 14%nat -> length (rts_txb_bytes n old) = 14%nat.
Proof. intros H. unfold rts_txb_bytes. cbn [length]. rewrite length_drop, H. reflexivity. Qed.

Lemma set_txbuf_length buf s :
  length (fst (mcp2515_set_txbuf buf s)) = length buf.
Proof.
  unfold mcp2515_set_txbuf, memcpy. cbn [fst].
  rewrite length_inserts.
  destruct (nonzero (Z.land (can_id (skb_data s)) CAN_RTR_FLAG));
    destruct (nonzero (Z.land (can_id (skb_data s)) CAN_EFF_FLAG));
    rewrite !length_insert; reflexivity.
Qed.

Lemma load_txb_bytes_length abc s old :
  length old = 14%nat -> length (load_txb_bytes abc s old) = 14%nat.
Proof.
  intros H. unfold load_txb_bytes. cbn [length].
  rewrite set_txbuf_length, length_drop, H. reflexivity.
Qed.

(** *** The loops over the slots *)

Lemma take_pending_slot_lowest map i :
  lowest_slot map i ->
  take_pending_slot (Z.to_nat MCP2515_TX_CNT) 0 map = (i, clear_slot map i).
Proof.
  intros ([Hi0 Hi3] & Hset & Hlow). unfold MCP2515_TX_CNT in *.
  assert (Hb : forall j, nonzero (Z.land (BIT j) map) = Z.testbit map j \/ j < 0).
  { intros j. destruct (Z.ltb_spec j 0); [right; lia|left].
    rewrite Z.land_comm. apply nonzero_land_BIT. lia. }
  assert (i = 0 \/ i = 1 \/ i = 2) as [-> | [-> | ->]] by lia;
    change (Z.to_nat 3) with 3%nat; cbn [take_pending_slot];
    repeat match goal with
    | |- context [nonzero (Z.land (BIT ?j) map)] =>
      let v := eval compute in j in change j with v;
      destruct (Hb v) as [-> | ?]; [|lia];
      first [ rewrite Hset | rewrite (Hlow v) by lia ]
    end; reflexivity.
Qed.

Lemma take_pending_slot_none map :
  no_slot map ->
  take_pending_slot (Z.to_nat MCP2515_TX_CNT) 0 map = (3, map).
Proof.
  intros H. unfold no_slot, MCP2515_TX_CNT in *.
  change (Z.to_nat 3) with 3%nat. cbn [take_pending_slot].
  change (0 + 1) with 1. change (1 + 1) with 2. change (2 + 1) with 3.
  rewrite !(Z.land_comm (BIT _) map), !nonzero_land_BIT by lia.
  rewrite (H 0), (H 1), (H 2) by lia. reflexivity.
Qed.

(** A slot map within 0..7 is empty, or has a lowest slot. *)
Lemma slot_map_cases m :
  0 <= m <= 7 -> m = 0 \/ exists i, lowest_slot m i.
Proof.
  intros H.
  assert (Hc : In m [0; 1; 2; 3; 4; 5; 6; 7]).
  { replace m with (Z.of_nat (Z.to_nat m)) by lia.
    change [0; 1; 2; 3; 4; 5; 6; 7] with (map Z.of_nat (seq 0 8)).
    apply in_map, in_seq. lia. }
  assert (Hl : forall x i, Z.testbit x i = true ->
             (forall j, 0 <= j < i -> Z.testbit x j = false) ->
             0 <= i < 3 -> lowest_slot x i).
  { intros x i H1 H2 H3. repeat split; auto; unfold MCP2515_TX_CNT; lia. }
  simpl in Hc.
  destruct Hc as [<-|Hc]; [left; reflexivity|right].
  repeat (destruct Hc as [<-|Hc];
    [first [ exists 0; apply Hl; [reflexivity | intros; lia | lia]
           | exists 1; apply Hl; [reflexivity | intros j Hj; assert (j = 0) as -> by lia; reflexivity | lia]
           | exists 2; apply Hl; [reflexivity | intros j Hj; assert (j = 0 \/ j = 1) as [-> | ->] by lia; reflexivity | lia] ]|]).
  contradiction.
Qed.

Lemma no_slot_zero map : 0 <= map <= 7 -> no_slot map -> map = 0.
Proof.
  intros H Hn. destruct (slot_map_cases map H) as [H0 | [i (Hi & Hs & _)]]; auto.
  rewrite (Hn i Hi) in Hs. discriminate.
Qed.

(** *** The handlers, path by path *)

Ltac start w := intros; destruct_world w; subst.

Ltac buf_len :=
  cbn [priv tx_buf];
  auto using read_flags_bytes_length, clear_canintf_bytes_length,
    clear_eflg_bytes_length, rts_txb_bytes_length, load_txb_bytes_length.

Ltac transfer :=
  first
  [ rewrite mcp2515_read_flags_eq by buf_len
  | rewrite mcp2515_read_rxb0_eq by buf_len
  | rewrite mcp2515_read_rxb1_eq by buf_len
  | rewrite mcp2515_clear_canintf_eq by buf_len
  | rewrite mcp2515_clear_eflg_eq by buf_len
  | rewrite mcp2515_rts_txb_eq by buf_len
  | rewrite mcp2515_load_txb_eq by buf_len ].

Lemma softirq_busy k w :
  busy (priv w) = true ->
  mcp2515_softirq_handler k w =
  Ok tt (with_priv (fun p => set_lock false (set_interrupt true p)) w).
Proof. start w. reflexivity. Qed.

Lemma softirq_idle k w :
  busy (priv w) = false -> length (tx_buf (priv w)) = 14%nat ->
  mcp2515_softirq_handler k w =
  Ok tt (submit k Cb_read_flags (read_flags_bytes (tx_buf (priv w))) 4
           (with_priv (fun p => set_lock false (set_busy true p)) w)).
Proof.
  start w. unfold mcp2515_softirq_handler. exec. transfer. reflexivity.
Qed.

Lemma timer_cb_busy k w :
  busy (priv w) = true ->
  read_flags_timer_cb k w =
  Ok tt (with_priv (fun p => set_skip (u32 (skip p + 1)) (set_lock false p)) w).
Proof.
  start w. unfold read_flags_timer_cb. exec.
  destruct (10 <? _); reflexivity.
Qed.

Lemma timer_cb_idle k w :
  busy (priv w) = false -> length (tx_buf (priv w)) = 14%nat ->
  read_flags_timer_cb k w =
  Ok tt (submit k Cb_read_flags (read_flags_bytes (tx_buf (priv w))) 4
           (with_priv (fun p => set_extra true (set_skip 0
                                  (set_lock false (set_busy true p)))) w)).
Proof.
  start w. unfold read_flags_timer_cb. exec. transfer. reflexivity.
Qed.

Lemma load_txb_complete_eq k w :
  length (tx_buf (priv w)) = 14%nat ->
  mcp2515_load_txb_complete k w =
  Ok tt (submit k Cb_rts_txb
           (rts_txb_bytes (loaded_txb (priv w)) (tx_buf (priv w))) 1 w).
Proof. intros. unfold mcp2515_load_txb_complete. transfer. reflexivity. Qed.

Lemma rts_txb_complete_eq k w :
  length (tx_buf (priv w)) = 14%nat ->
  mcp2515_rts_txb_complete k w =
  Ok tt (submit k Cb_read_flags (read_flags_bytes (tx_buf (priv w))) 4 w).
Proof. intros. unfold mcp2515_rts_txb_complete. transfer. reflexivity. Qed.

Lemma clear_eflg_complete_eq k w :
  length (tx_buf (priv w)) = 14%nat ->
  mcp2515_clear_eflg_complete k w =
  Ok tt (submit k Cb_read_flags (read_flags_bytes (tx_buf (priv w))) 4
           (if nonzero (Z.land (eflg (priv w)) (Z.lor EFLG_RX0OVR EFLG_RX1OVR))
            then World (priv w)
                   (set_rx_over_errors (ulong (rx_over_errors (dev w) + 1)) (dev w))
            else w)).
Proof.
  start w. unfold mcp2515_clear_eflg_complete. exec.
  destruct (nonzero _); exec; transfer; reflexivity.
Qed.

(** The pending branch, entered with the lock held. *)
Lemma load_pending_slot_eq k w i s :
  length (tx_buf (priv w)) = 14%nat ->
  lowest_slot (tx_pending_map (priv w)) i ->
  skb (priv w) !! Z.to_nat i = Some (Some s) ->
  load_pending_slot k w =
  Ok tt (submit k Cb_load_txb
           (load_txb_bytes i s (tx_buf (priv w)))
           (5 + can_dlc (skb_data s) + 1)
           (with_priv (fun p => set_loaded_txb i (set_lock false
                        (set_tx_pending_map (clear_slot (tx_pending_map p) i) p))) w)).
Proof.
  intros Hlen Hlow Hskb. destruct_world w.
  unfold load_pending_slot. exec.
  rewrite (take_pending_slot_lowest _ _ Hlow). exec. rewrite Hskb.
  destruct Hlow as ([Hi0 Hi3] & _). unfold MCP2515_TX_CNT in Hi3.
  replace (0 <=? i) with true by (symmetry; apply Z.leb_le; lia). exec.
  transfer. rewrite (u8_id i) by lia. reflexivity.
Qed.

Lemma load_pending_slot_out_of_bounds k w :
  length (skb (priv w)) = 3%nat ->
  no_slot (tx_pending_map (priv w)) ->
  load_pending_slot k w = Fault (OutOfBounds 3).
Proof.
  intros Hlen Hno. destruct_world w.
  unfold load_pending_slot. exec.
  rewrite (take_pending_slot_none _ Hno). exec.
  destruct skb0 as [|? [|? [|? [|? ?]]]]; try discriminate Hlen. reflexivity.
Qed.

Lemma load_pending_slot_null k w i :
  lowest_slot (tx_pending_map (priv w)) i ->
  skb (priv w) !! Z.to_nat i = Some None ->
  load_pending_slot k w = Fault NullPointer.
Proof.
  intros Hlow Hskb. destruct_world w.
  unfold load_pending_slot. exec.
  rewrite (take_pending_slot_lowest _ _ Hlow). exec. rewrite Hskb.
  destruct Hlow as ([Hi0 Hi3] & _).
  replace (0 <=? i) with true by (symmetry; apply Z.leb_le; lia). exec.
  reflexivity.
Qed.

Lemma rx0_test x : nonzero (Z.land x CANINTF_RX0IF) = Z.testbit x 0.
Proof. apply nonzero_land_BIT. lia. Qed.

Lemma rx1_test x : nonzero (Z.land x CANINTF_RX1IF) = Z.testbit x 1.
Proof. apply nonzero_land_BIT. lia. Qed.

Lemma nonzero_true x : x <> 0 -> nonzero x = true.
Proof. intros H. unfold nonzero. apply negb_true_iff, Z.eqb_neq, H. Qed.

Lemma nonzero_false x : x = 0 -> nonzero x = false.
Proof. intros ->. reflexivity. Qed.

Lemma nonzero_lowest_slot m i : lowest_slot m i -> nonzero m = true.
Proof.
  intros (_ & Hs & _). apply nonzero_true. intros ->.
  rewrite Z.bits_0 in Hs. discriminate.
Qed.

(** Rewrite with the path conditions at hand. *)
Ltac use_hyps :=
  repeat match goal with
  | H : ?l = ?r |- context [?l] =>
    lazymatch l with
    | Ok _ _ => fail
    | _ => tryif is_var l then fail else rewrite H
    end
  end.

(** A branch whose two arms are the same term. *)
Lemma if_same {A} (c : bool) (a : A) : (if c then a else a) = a.
Proof. destruct c; reflexivity. Qed.

Ltac same_arms := rewrite ?if_same.

Ltac zero_flags :=
  rewrite ?Z.bits_0; change (nonzero 0) with false.

Ltac sym_exec :=
  repeat (progress (exec; rewrite ?rx0_test, ?rx1_test; use_hyps; zero_flags;
                    same_arms)).

Lemma read_flags_complete_rx0 k w :
  length (tx_buf (priv w)) = 14%nat ->
  Z.testbit (rd (rx_buf (priv w)) 2) 0 = true ->
  mcp2515_read_flags_complete k w =
  Ok tt (submit k Cb_read_rxb0 (read_rxb_bytes 0) 14 (snapshot w)).
Proof.
  intros Hlen H0. destruct (extra (priv w)) eqn:Hex; destruct_world w; subst;
  unfold mcp2515_read_flags_complete; sym_exec; transfer; reflexivity.
Qed.

Lemma read_flags_complete_rx1 k w :
  length (tx_buf (priv w)) = 14%nat ->
  Z.testbit (rd (rx_buf (priv w)) 2) 0 = false ->
  Z.testbit (rd (rx_buf (priv w)) 2) 1 = true ->
  mcp2515_read_flags_complete k w =
  Ok tt (submit k Cb_read_rxb1 (read_rxb_bytes 1) 14 (snapshot w)).
Proof.
  intros Hlen H0 H1. destruct (extra (priv w)) eqn:Hex; destruct_world w; subst;
  unfold mcp2515_read_flags_complete; sym_exec; transfer; reflexivity.
Qed.

Lemma read_flags_complete_other k w :
  length (tx_buf (priv w)) = 14%nat ->
  Z.testbit (rd (rx_buf (priv w)) 2) 0 = false ->
  Z.testbit (rd (rx_buf (priv w)) 2) 1 = false ->
  rd (rx_buf (priv w)) 2 <> 0 ->
  mcp2515_read_flags_complete k w =
  Ok tt (submit k Cb_clear_canintf
           (clear_canintf_bytes (rd (rx_buf (priv w)) 2) (tx_buf (priv w))) 4
           (snapshot w)).
Proof.
  intros Hlen H0 H1 Hnz. apply nonzero_true in Hnz.
  destruct (extra (priv w)) eqn:Hex; destruct_world w; subst;
  unfold mcp2515_read_flags_complete; sym_exec; transfer; reflexivity.
Qed.

Lemma read_flags_complete_pending k w i s :
  length (tx_buf (priv w)) = 14%nat ->
  rd (rx_buf (priv w)) 2 = 0 ->
  lowest_slot (tx_pending_map (priv w)) i ->
  skb (priv w) !! Z.to_nat i = Some (Some s) ->
  mcp2515_read_flags_complete k w =
  Ok tt (submit k Cb_load_txb
           (load_txb_bytes i s (tx_buf (priv w)))
           (5 + can_dlc (skb_data s) + 1)
           (with_priv (fun p => set_loaded_txb i (set_lock false
                        (set_tx_pending_map (clear_slot (tx_pending_map p) i) p)))
              (snapshot w))).
Proof.
  intros Hlen Hz Hlow Hskb. pose proof (nonzero_lowest_slot _ _ Hlow) as Hp.
  destruct (extra (priv w)) eqn:Hex; destruct_world w; subst;
  unfold mcp2515_read_flags_complete; sym_exec;
    (erewrite load_pending_slot_eq; [reflexivity | buf_len | exact Hlow | exact Hskb]).
Qed.

Lemma read_flags_complete_deferred k w :
  length (tx_buf (priv w)) = 14%nat ->
  rd (rx_buf (priv w)) 2 = 0 ->
  tx_pending_map (priv w) = 0 ->
  interrupt (priv w) = true ->
  mcp2515_read_flags_complete k w =
  Ok tt (submit k Cb_read_flags (read_flags_bytes (tx_buf (priv w))) 4
           (with_priv (fun p => set_lock false (set_interrupt false p))
              (snapshot w))).
Proof.
  intros Hlen Hz Hp Hi. destruct (extra (priv w)) eqn:Hex; destruct_world w; subst;
  unfold mcp2515_read_flags_complete; sym_exec; transfer; reflexivity.
Qed.

Lemma read_flags_complete_idle k w :
  rd (rx_buf (priv w)) 2 = 0 ->
  tx_pending_map (priv w) = 0 ->
  interrupt (priv w) = false ->
  mcp2515_read_flags_complete k w =
  Ok tt (with_priv (fun p => set_timer (Some READ_FLAGS_TIMER_VAL_MS)
                               (set_lock false (set_busy false p)))
           (snapshot w)).
Proof.
  intros Hz Hp Hi. destruct (extra (priv w)) eqn:Hex; destruct_world w; subst;
  unfold mcp2515_read_flags_complete; sym_exec; reflexivity.
Qed.

(** C2: the completion of a status read branches on the flag bytes in strict
    priority order. With [intf] the interrupt-flag byte just read: bit 0 set
    issues the read of receive buffer 0; else bit 1 set issues the read of
    receive buffer 1; else any other bit issues the clear-flags exchange;
    else, when a transmit slot is pending, the lowest-indexed pending slot is
    dequeued and its frame loaded; else, when the deferred-interrupt flag is
    set, it is cleared and the status read is issued again; else busy is
    cleared and the fallback timer is armed, and nothing is issued. The
    pending map is a map of the three slots, and a pending slot holds its
    frame. *)
Theorem read_flags_complete_priority (k : env) (w : world) :
  length (tx_buf (priv w)) = 14%nat ->
  0 <= tx_pending_map (priv w) <= 7 ->
  let intf := rd (rx_buf (priv w)) 2 in
  let pending := tx_pending_map (priv w) in
  let tx := tx_buf (priv w) in
  (Z.testbit intf 0 = true ->
     mcp2515_read_flags_complete k w =
     Ok tt (submit k Cb_read_rxb0 (read_rxb_bytes 0) 14 (snapshot w))) /\
  (Z.testbit intf 0 = false -> Z.testbit intf 1 = true ->
     mcp2515_read_flags_complete k w =
     Ok tt (submit k Cb_read_rxb1 (read_rxb_bytes 1) 14 (snapshot w))) /\
  (Z.testbit intf 0 = false -> Z.testbit intf 1 = false -> intf <> 0 ->
     mcp2515_read_flags_complete k w =
     Ok tt (submit k Cb_clear_canintf (clear_canintf_bytes intf tx) 4 (snapshot w))) /\
  (intf = 0 -> forall i s,
     lowest_slot pending i -> skb (priv w) !! Z.to_nat i = Some (Some s) ->
     mcp2515_read_flags_complete k w =
     Ok tt (submit k Cb_load_txb (load_txb_bytes i s tx)
              (5 + can_dlc (skb_data s) + 1)
              (with_priv (fun p => set_loaded_txb i (set_lock false
                           (set_tx_pending_map (clear_slot pending i) p)))
                 (snapshot w)))) /\
  (intf = 0 -> no_slot pending -> interrupt (priv w) = true ->
     mcp2515_read_flags_complete k w =
     Ok tt (submit k Cb_read_flags (read_flags_bytes tx) 4
              (with_priv (fun p => set_lock false (set_interrupt false p))
                 (snapshot w)))) /\
  (intf = 0 -> no_slot pending -> interrupt (priv w) = false ->
     mcp2515_read_flags_complete k w =
     Ok tt (with_priv (fun p => set_timer (Some READ_FLAGS_TIMER_VAL_MS)
                                  (set_lock false (set_busy false p)))
              (snapshot w))).
Proof.
  intros Hlen Hmap intf pending tx. subst intf pending tx.
  split; [|split; [|split; [|split; [|split]]]].
  - apply read_flags_complete_rx0; auto.
  - apply read_flags_complete_rx1; auto.
  - apply read_flags_complete_other; auto.
  - intros Hz i s Hlow Hskb.
    rewrite (read_flags_complete_pending k w i s Hlen Hz Hlow Hskb). reflexivity.
  - intros Hz Hno Hirq.
    apply read_flags_complete_deferred; auto using no_slot_zero.
  - intros Hz Hno Hirq.
    apply read_flags_complete_idle; auto using no_slot_zero.
Qed.

Lemma read_flags_complete_priority_witness :
  let k := Env 0 None in
  let w := with_priv (fun p => set_interrupt true (set_busy true p)) world0 in
  mcp2515_read_flags_complete k w =
  Ok tt (submit k Cb_read_flags (read_flags_bytes (tx_buf (priv w))) 4
           (with_priv (fun p => set_lock false (set_interrupt false p))
              (snapshot w))).
Proof.
  intros k w.
  refine (proj1 (proj2 (proj2 (proj2 (proj2
            (read_flags_complete_priority k w eq_refl _))))) eq_refl _ eq_refl).
  - cbn. lia.
  - intros j Hj. apply Z.bits_0.
Defined.

Lemma overflow_test x :
  nonzero (Z.land x (Z.lor EFLG_RX0OVR EFLG_RX1OVR)) = Z.testbit x 6 || Z.testbit x 7.
Proof.
  rewrite Z.land_lor_distr_r.
  rewrite <- (nonzero_land_BIT x 6), <- (nonzero_land_BIT x 7) by lia.
  fold EFLG_RX0OVR EFLG_RX1OVR. unfold nonzero.
  destruct (Z.eqb_spec (Z.land x EFLG_RX0OVR) 0) as [H0|H0];
    destruct (Z.eqb_spec (Z.land x EFLG_RX1OVR) 0) as [H1|H1];
    cbn [negb orb];
    [apply negb_false_iff, Z.eqb_eq, Z.lor_eq_0_iff; auto
    |apply negb_true_iff, Z.eqb_neq; rewrite Z.lor_eq_0_iff; tauto ..].
Qed.

(** C6: when the clear-error-flags exchange completes, the overrun counter
    goes up by one if bit 6 or bit 7 of the error-flag snapshot is set (by
    one also when both are), stays as it is when neither is, and then the
    status read is issued in every case; nothing else changes. *)
Theorem clear_eflg_complete_counts_overrun (k : env) (w : world) :
  length (tx_buf (priv w)) = 14%nat ->
  let overflow := Z.testbit (eflg (priv w)) 6 || Z.testbit (eflg (priv w)) 7 in
  let counted :=
    if overflow
    then World (priv w)
           (set_rx_over_errors (ulong (rx_over_errors (dev w) + 1)) (dev w))
    else w in
  mcp2515_clear_eflg_complete k w =
    Ok tt (submit k Cb_read_flags (read_flags_bytes (tx_buf (priv w))) 4 counted) /\
  rx_over_errors (dev counted) =
    (if overflow then ulong (rx_over_errors (dev w) + 1)
     else rx_over_errors (dev w)) /\
  (0 <= rx_over_errors (dev w) < 2 ^ BITS_PER_LONG - 1 ->
   ulong (rx_over_errors (dev w) + 1) = rx_over_errors (dev w) + 1).
Proof.
  intros Hlen overflow counted. subst overflow counted.
  rewrite (clear_eflg_complete_eq k w Hlen), overflow_test.
  split; [|split].
  - destruct (_ || _); reflexivity.
  - destruct (_ || _); reflexivity.
  - intros H. unfold ulong. apply Z.mod_small. lia.
Qed.

Lemma clear_eflg_complete_counts_overrun_witness :
  let k := Env 0 None in
  let w := with_priv (set_eflg 0xC0) world0 in
  exists w', mcp2515_clear_eflg_complete k w = Ok tt w' /\
             rx_over_errors (dev w') = 1 /\
             spi_inflight (dev w') = 1%nat.
Proof.
  intros k w.
  destruct (clear_eflg_complete_counts_overrun k w eq_refl) as (H & _ & _).
  eexists. split; [exact H|]. split; reflexivity.
Defined.

(** C8: when the fallback timer fires while the scheduler is busy, the skip
    counter goes up by one (an [unsigned], so modulo 2^32) and nothing else
    changes but the lock being released: no exchange is issued. When it
    fires while idle, busy is set, the skip counter is reset, the diagnostic
    marker is set and a status read is issued. *)
Theorem timer_cb_spec (k : env) (w : world) :
  (busy (priv w) = true ->
     read_flags_timer_cb k w =
       Ok tt (with_priv (fun p => set_skip (u32 (skip p + 1)) (set_lock false p)) w) /\
     (0 <= skip (priv w) < 2 ^ 32 - 1 -> u32 (skip (priv w) + 1) = skip (priv w) + 1)) /\
  (busy (priv w) = false -> length (tx_buf (priv w)) = 14%nat ->
     read_flags_timer_cb k w =
       Ok tt (submit k Cb_read_flags (read_flags_bytes (tx_buf (priv w))) 4
                (with_priv (fun p => set_extra true (set_skip 0
                                       (set_lock false (set_busy true p)))) w))).
Proof.
  split.
  - intros Hb. split; [apply timer_cb_busy; auto|].
    intros H. apply u32_id. lia.
  - intros Hb Hlen. apply timer_cb_idle; auto.
Qed.

Lemma timer_cb_spec_witness :
  let k := Env 0 None in
  let w := with_priv (set_busy true) world0 in
  exists w', read_flags_timer_cb k w = Ok tt w' /\
             skip (priv w') = 1 /\ dev w' = dev w.
Proof.
  intros k w.
  destruct (proj1 (timer_cb_spec k w) eq_refl) as [H _].
  eexists. split; [exact H|]. split; reflexivity.
Defined.

(** *** The remaining handlers *)

(** Simplify projections of updated worlds. *)
Ltac proj :=
  cbn [submit with_priv snapshot rx_taken tx_done_world slot_reserved completed
       set_canintf set_eflg set_skb set_lock set_busy set_interrupt
       set_netif_queue_stopped set_loaded_txb set_tx_busy_map
       set_tx_pending_map set_extra set_skip set_message_complete
       set_transfer_len set_rx_buf set_tx_buf set_timer
       set_rx_packets set_rx_bytes set_rx_dropped set_rx_over_errors
       set_tx_packets set_tx_bytes set_queue_stopped set_rx_delivered
       set_spi_inflight set_spi_log set_err_log set_unlocked_busy_writes
       priv dev canintf eflg skb lock busy interrupt netif_queue_stopped
       loaded_txb tx_busy_map tx_pending_map extra skip message_complete
       transfer_len rx_buf tx_buf timer rx_packets rx_bytes rx_dropped
       rx_over_errors tx_packets tx_bytes queue_stopped rx_delivered
       spi_inflight spi_log err_log unlocked_busy_writes].

Lemma read_rxb_complete_eq k w :
  mcp2515_read_rxb_complete k w = Ok tt (rx_taken k w).
Proof.
  destruct_world w. unfold mcp2515_read_rxb_complete, rx_taken. exec.
  destruct (alloc_can_skb k); reflexivity.
Qed.

Lemma transmit_or_read_flags_none k w :
  length (tx_buf (priv w)) = 14%nat ->
  tx_pending_map (priv w) = 0 ->
  mcp2515_transmit_or_read_flags k w =
  Ok tt (submit k Cb_read_flags (read_flags_bytes (tx_buf (priv w))) 4
           (with_priv (set_lock false) w)).
Proof.
  intros Hlen Hp. destruct_world w. subst.
  unfold mcp2515_transmit_or_read_flags. sym_exec. transfer. reflexivity.
Qed.

Lemma transmit_or_read_flags_some k w :
  tx_pending_map (priv w) <> 0 ->
  mcp2515_transmit_or_read_flags k w =
  load_pending_slot k (with_priv (set_lock true) w).
Proof.
  intros Hp. apply nonzero_true in Hp. destruct_world w.
  unfold mcp2515_transmit_or_read_flags. sym_exec. reflexivity.
Qed.

Lemma read_flags_complete_some k w :
  rd (rx_buf (priv w)) 2 = 0 ->
  tx_pending_map (priv w) <> 0 ->
  mcp2515_read_flags_complete k w =
  load_pending_slot k (with_priv (set_lock true) (snapshot w)).
Proof.
  intros Hz Hp. apply nonzero_true in Hp.
  destruct (extra (priv w)) eqn:Hex; destruct_world w; subst;
  unfold mcp2515_read_flags_complete; sym_exec; reflexivity.
Qed.

Lemma read_rxb0_complete_eq k w :
  mcp2515_read_rxb0_complete k w =
  if Z.testbit (canintf (priv w)) 1 then mcp2515_read_rxb1 k (rx_taken k w)
  else mcp2515_transmit_or_read_flags k (rx_taken k w).
Proof.
  unfold mcp2515_read_rxb0_complete. unfold mbind at 1. unfold M_bind.
  rewrite read_rxb_complete_eq. cbv [mbind M_bind priv_get].
  rewrite rx1_test. change (priv (rx_taken k w)) with (priv w).
  destruct (Z.testbit _ 1); reflexivity.
Qed.

Lemma read_rxb1_complete_eq k w :
  mcp2515_read_rxb1_complete k w =
  mcp2515_transmit_or_read_flags k (rx_taken k w).
Proof.
  unfold mcp2515_read_rxb1_complete. unfold mbind at 1. unfold M_bind.
  rewrite read_rxb_complete_eq. reflexivity.
Qed.

Lemma tx0_test x : nonzero (Z.land x CANINTF_TX0IF) = Z.testbit x 2.
Proof. apply nonzero_land_BIT. lia. Qed.

Lemma tx1_test x : nonzero (Z.land x CANINTF_TX1IF) = Z.testbit x 3.
Proof. apply nonzero_land_BIT. lia. Qed.

Lemma tx2_test x : nonzero (Z.land x CANINTF_TX2IF) = Z.testbit x 4.
Proof. apply nonzero_land_BIT. lia. Qed.

Lemma tx_done_eq idx w :
  length (skb (priv w)) = 3%nat -> 0 <= idx < 3 ->
  tx_done idx w = Ok tt (tx_done_world idx w).
Proof.
  intros Hlen Hidx. destruct_world w. destruct_buf Hlen.
  unfold tx_done, tx_done_world, clear_slot.
  assert (idx = 0 \/ idx = 1 \/ idx = 2) as [-> | [-> | ->]] by lia; exec;
    change (Z.to_nat 0) with 0%nat; change (Z.to_nat 1) with 1%nat;
    change (Z.to_nat 2) with 2%nat; cbn [lookup list_lookup];
    repeat match goal with o : option sk_buff |- _ => destruct o end;
    reflexivity.
Qed.

Lemma tx_done_world_skb_length idx w :
  length (skb (priv (tx_done_world idx w))) = length (skb (priv w)).
Proof. proj. apply length_insert. Qed.

Lemma tx_accounted_skb_length w :
  length (skb (priv (tx_accounted w))) = length (skb (priv w)).
Proof.
  unfold tx_accounted.
  repeat match goal with |- context [if ?c then _ else _] => destruct c end;
    rewrite ?tx_done_world_skb_length; reflexivity.
Qed.

Lemma tx_done_world_frame idx w :
  tx_buf (priv (tx_done_world idx w)) = tx_buf (priv w) /\
  eflg (priv (tx_done_world idx w)) = eflg (priv w) /\
  canintf (priv (tx_done_world idx w)) = canintf (priv w).
Proof. repeat split. Qed.

Lemma tx_accounted_frame w :
  tx_buf (priv (tx_accounted w)) = tx_buf (priv w) /\
  eflg (priv (tx_accounted w)) = eflg (priv w) /\
  canintf (priv (tx_accounted w)) = canintf (priv w).
Proof.
  unfold tx_accounted.
  repeat match goal with |- context [if ?c then _ else _] => destruct c end;
    repeat split.
Qed.

Lemma queue_woken_frame w :
  tx_buf (priv (queue_woken w)) = tx_buf (priv w) /\
  eflg (priv (queue_woken w)) = eflg (priv w).
Proof. unfold queue_woken. destruct (_ && _); split; reflexivity. Qed.

(** The accounting part of [mcp2515_clear_canintf_complete], as a step of
    its own. *)
Lemma accounting_eq (m : M unit) w :
  length (skb (priv w)) = 3%nat ->
  (intf ← priv_get canintf;
   when (nonzero (Z.land intf CANINTF_TX0IF)) (tx_done 0);;
   when (nonzero (Z.land intf CANINTF_TX1IF)) (tx_done 1);;
   when (nonzero (Z.land intf CANINTF_TX2IF)) (tx_done 2);;
   m) w = m (tx_accounted w).
Proof.
  intros Hlen. unfold tx_accounted.
  cbv [mbind M_bind priv_get when mret M_ret].
  rewrite tx0_test, tx1_test, tx2_test.
  destruct (Z.testbit (canintf (priv w)) 2);
    [rewrite tx_done_eq by (auto; lia)|];
    (destruct (Z.testbit (canintf (priv w)) 3);
     [rewrite tx_done_eq by (rewrite ?tx_done_world_skb_length; auto; lia)|]);
    (destruct (Z.testbit (canintf (priv w)) 4);
     [rewrite tx_done_eq by (rewrite ?tx_done_world_skb_length; auto; lia)|]);
    reflexivity.
Qed.

Lemma wake_test_eq (m : M unit) w :
  (stopped ← priv_get netif_queue_stopped;
   map ← priv_get tx_busy_map;
   when (stopped && (map <? TX_MAP_BUSY))
        (priv_set (set_netif_queue_stopped false);; netif_wake_queue);;
   m) w = m (queue_woken w).
Proof.
  unfold queue_woken. cbv [mbind M_bind priv_get when mret M_ret].
  destruct (_ && _); reflexivity.
Qed.

Lemma clear_canintf_complete_eq k w :
  length (skb (priv w)) = 3%nat -> length (tx_buf (priv w)) = 14%nat ->
  mcp2515_clear_canintf_complete k w =
  Ok tt (let w1 := queue_woken (tx_accounted w) in
         if nonzero (eflg (priv w))
         then submit k Cb_clear_eflg
                (clear_eflg_bytes (eflg (priv w)) (tx_buf (priv w))) 4 w1
         else submit k Cb_read_flags (read_flags_bytes (tx_buf (priv w))) 4 w1).
Proof.
  intros Hskb Htx. unfold mcp2515_clear_canintf_complete.
  rewrite accounting_eq by auto. rewrite wake_test_eq.
  destruct (tx_accounted_frame w) as (Ht & He & _).
  destruct (queue_woken_frame (tx_accounted w)) as (Ht' & He').
  cbv [mbind M_bind priv_get]. rewrite He', He. cbv zeta.
  destruct (nonzero (eflg (priv w))).
  - rewrite mcp2515_clear_eflg_eq by congruence. rewrite Ht', Ht, He', He. reflexivity.
  - rewrite mcp2515_read_flags_eq by congruence. rewrite Ht', Ht. reflexivity.
Qed.

(** *** The host transmit entry point *)

Lemma find_free_tx_slot_lowest map i :
  lowest_free_slot map i ->
  find_free_tx_slot (Z.to_nat MCP2515_TX_CNT) 0 map = (i, u8 (Z.lor map (BIT i))).
Proof.
  intros ([Hi0 Hi3] & Hclr & Hlow). unfold MCP2515_TX_CNT in *.
  change (Z.to_nat 3) with 3%nat.
  assert (i = 0 \/ i = 1 \/ i = 2) as [-> | [-> | ->]] by lia;
    cbn [find_free_tx_slot];
    change (0 + 1) with 1; change (1 + 1) with 2;
    rewrite ?land_BIT_eqb by lia;
    rewrite ?Hclr, ?(Hlow 0), ?(Hlow 1) by lia; reflexivity.
Qed.

Lemma find_free_tx_slot_full map :
  all_slots map ->
  find_free_tx_slot (Z.to_nat MCP2515_TX_CNT) 0 map = (3, map).
Proof.
  intros H. unfold all_slots, MCP2515_TX_CNT in *.
  change (Z.to_nat 3) with 3%nat. cbn [find_free_tx_slot].
  change (0 + 1) with 1. change (1 + 1) with 2. change (2 + 1) with 3.
  rewrite !land_BIT_eqb by lia.
  rewrite (H 0), (H 1), (H 2) by lia. reflexivity.
Qed.

(** Every slot map has a lowest free slot or is full. *)
Lemma free_slot_cases map :
  (exists i, lowest_free_slot map i) \/ all_slots map.
Proof.
  unfold lowest_free_slot, all_slots, MCP2515_TX_CNT.
  destruct (Z.testbit map 0) eqn:H0; [|left; exists 0; repeat split; auto; lia].
  destruct (Z.testbit map 1) eqn:H1.
  2:{ left; exists 1; repeat split; auto; try lia.
      intros j Hj. assert (j = 0) as -> by lia. auto. }
  destruct (Z.testbit map 2) eqn:H2.
  2:{ left; exists 2; repeat split; auto; try lia.
      intros j Hj. assert (j = 0 \/ j = 1) as [-> | ->] by lia; auto. }
  right. intros j Hj. assert (j = 0 \/ j = 1 \/ j = 2) as [-> | [-> | ->]] by lia; auto.
Qed.

Lemma start_xmit_dropped s k w :
  can_dropped_invalid_skb s = true ->
  mcp2515_start_xmit s k w = Ok NETDEV_TX_OK w.
Proof. intros H. unfold mcp2515_start_xmit. rewrite H. reflexivity. Qed.

Lemma start_xmit_busy s k w i m :
  can_dropped_invalid_skb s = false ->
  find_free_tx_slot (Z.to_nat MCP2515_TX_CNT) 0 (tx_busy_map (priv w)) = (i, m) ->
  0 <= i < Z.of_nat (length (skb (priv w))) ->
  busy (priv w) = true ->
  mcp2515_start_xmit s k w =
  Ok NETDEV_TX_OK
     (with_priv (fun p => set_lock false
                   (set_tx_pending_map (u8 (Z.lor (tx_pending_map p) (BIT i))) p))
        (slot_reserved s i m w)).
Proof.
  intros Hv Hf Hi Hb. destruct_world w. subst.
  unfold mcp2515_start_xmit. rewrite Hv. exec. rewrite Hf.
  assert (H1 : (0 <=? i) = true) by (apply Z.leb_le; lia).
  assert (H2 : (i <? Z.of_nat (length skb0)) = true) by (apply Z.ltb_lt; lia).
  unfold slot_reserved.
  destruct (TX_MAP_BUSY <=? m); exec; rewrite H1, H2; reflexivity.
Qed.

Lemma start_xmit_idle s k w i m :
  can_dropped_invalid_skb s = false ->
  find_free_tx_slot (Z.to_nat MCP2515_TX_CNT) 0 (tx_busy_map (priv w)) = (i, m) ->
  0 <= i < Z.of_nat (length (skb (priv w))) ->
  busy (priv w) = false ->
  length (tx_buf (priv w)) = 14%nat ->
  mcp2515_start_xmit s k w =
  Ok NETDEV_TX_OK
     (submit k Cb_load_txb (load_txb_bytes i s (tx_buf (priv w)))
        (5 + can_dlc (skb_data s) + 1)
        (with_priv (fun p => set_loaded_txb (u8 i) (set_lock false (set_busy true p)))
           (slot_reserved s i m w))).
Proof.
  intros Hv Hf Hi Hb Hlen. destruct_world w. subst.
  unfold mcp2515_start_xmit. rewrite Hv. exec. rewrite Hf.
  assert (H1 : (0 <=? i) = true) by (apply Z.leb_le; lia).
  assert (H2 : (i <? Z.of_nat (length skb0)) = true) by (apply Z.ltb_lt; lia).
  unfold slot_reserved.
  destruct (TX_MAP_BUSY <=? m); exec; rewrite H1, H2; exec; transfer; reflexivity.
Qed.

Lemma start_xmit_out_of_bounds s k w i m :
  can_dropped_invalid_skb s = false ->
  find_free_tx_slot (Z.to_nat MCP2515_TX_CNT) 0 (tx_busy_map (priv w)) = (i, m) ->
  Z.of_nat (length (skb (priv w))) <= i ->
  mcp2515_start_xmit s k w = Fault (OutOfBounds i).
Proof.
  intros Hv Hf Hi. destruct_world w.
  unfold mcp2515_start_xmit. rewrite Hv. exec. rewrite Hf.
  assert (H2 : (i <? Z.of_nat (length skb0)) = false) by (apply Z.ltb_ge; lia).
  destruct (TX_MAP_BUSY <=? m); exec; rewrite H2; destruct (0 <=? i); reflexivity.
Qed.

(** The entry point never reports a rejection. *)
Lemma start_xmit_never_busy s k w r w' :
  mcp2515_start_xmit s k w = Ok r w' -> r = NETDEV_TX_OK.
Proof.
  unfold mcp2515_start_xmit.
  destruct (can_dropped_invalid_skb s); [intros [= <- _]; reflexivity|].
  cbv [mbind M_bind mret M_ret].
  repeat match goal with
  | |- context [match ?m ?w with Ok _ _ => _ | Fault _ => _ end] =>
    destruct (m w); try discriminate
  | |- context [let '(_, _) := ?x in _] => destruct x
  | |- context [if ?c then _ else _] => destruct c
  end;
  intros [= <- _]; reflexivity.
Qed.

(** C10, at the failing input: after three accepted frames the busy map is
    7; on the fourth call the loop of [mcp2515_start_xmit] ends with
    [tx_idx = 3], and the store [priv->skb[tx_idx] = skb] is outside the
    three-element array. *)
Theorem start_xmit_full_ring_index_3 :
  let f := SkBuff (CanFrame 0x123 2 [1; 2; 3; 4; 5; 6; 7; 8]) in
  let k := Env 0 None in
  exists w3,
    run [EvXmit f k; EvXmit f k; EvXmit f k] world0 = Some w3 /\
    tx_busy_map (priv w3) = 7 /\
    length (skb (priv w3)) = 3%nat /\
    find_free_tx_slot (Z.to_nat MCP2515_TX_CNT) 0 (tx_busy_map (priv w3)) = (3, 7) /\
    mcp2515_start_xmit f k w3 = Fault (OutOfBounds 3).
Proof.
  intros f k. eexists. split; [vm_compute; reflexivity|].
  repeat split.
Qed.

(** C7, at the failing input: with no free slot (busy map 7, queue already
    stopped) the entry point does not report a rejection; it runs into the
    out-of-range store, and on no path at all does it return
    [NETDEV_TX_BUSY]. *)
Theorem start_xmit_full_ring_not_rejected :
  let f := SkBuff (CanFrame 0x123 2 [1; 2; 3; 4; 5; 6; 7; 8]) in
  let k := Env 0 None in
  exists w3,
    run [EvXmit f k; EvXmit f k; EvXmit f k] world0 = Some w3 /\
    tx_busy_map (priv w3) = 7 /\
    queue_stopped (dev w3) = true /\
    mcp2515_start_xmit f k w3 = Fault (OutOfBounds 3) /\
    forall s k' w r w', mcp2515_start_xmit s k' w = Ok r w' -> r = NETDEV_TX_OK.
Proof.
  intros f k. eexists. split; [vm_compute; reflexivity|].
  repeat split. apply start_xmit_never_busy.
Qed.

Lemma start_xmit_full_ring_not_rejected_witness :
  let f := SkBuff (CanFrame 0x123 2 [1; 2; 3; 4; 5; 6; 7; 8]) in
  let k := Env 0 None in
  exists r w', mcp2515_start_xmit f k world0 = Ok r w' /\ r = NETDEV_TX_OK.
Proof.
  intros f k. eexists. eexists. split; [vm_compute; reflexivity|].
  destruct start_xmit_full_ring_not_rejected as (w3 & _ & _ & _ & _ & H).
  eapply (H f k world0). vm_compute. reflexivity.
Defined.

(** ** The invariants *)

Lemma slot_map_enum m :
  0 <= m <= 7 -> In m [0; 1; 2; 3; 4; 5; 6; 7].
Proof.
  intros H. replace m with (Z.of_nat (Z.to_nat m)) by lia.
  change [0; 1; 2; 3; 4; 5; 6; 7] with (map Z.of_nat (seq 0 8)).
  apply in_map, in_seq. lia.
Qed.

Lemma clear_slot_range m i :
  0 <= m <= 7 -> 0 <= i < 3 -> 0 <= clear_slot m i <= m.
Proof.
  intros Hm Hi. apply slot_map_enum in Hm. simpl in Hm.
  assert (i = 0 \/ i = 1 \/ i = 2) as [-> | [-> | ->]] by lia;
    repeat (destruct Hm as [<-|Hm]; [vm_compute; split; discriminate|]);
    contradiction.
Qed.

Lemma find_free_tx_slot_range m :
  0 <= m <= 7 ->
  let '(i, m') := find_free_tx_slot (Z.to_nat MCP2515_TX_CNT) 0 m in
  (i = 3 /\ m' = 7 /\ m = 7) \/ (0 <= i < 3 /\ m < m' <= 7).
Proof.
  intros Hm. apply slot_map_enum in Hm. simpl in Hm.
  repeat (destruct Hm as [<-|Hm];
          [vm_compute; first [left; repeat split; reflexivity
                             |right; repeat split; discriminate || reflexivity]|]).
  contradiction.
Qed.

Lemma slots_inv_weak w : slots_inv w -> slots_weak w.
Proof.
  intros (Hl & Hm & Hs & Hq). repeat split; auto; try lia.
  intros Hf. rewrite Hf in Hs. symmetry in Hs. apply Z.leb_gt in Hs.
  change TX_MAP_BUSY with 7 in Hs. lia.
Qed.

Lemma slots_weak_tx_done i w :
  0 <= i < 3 -> slots_weak w -> slots_weak (tx_done_world i w).
Proof.
  intros Hi (Hl & Hm & Hs & Hq). unfold slots_weak. proj.
  pose proof (clear_slot_range _ i Hm Hi).
  rewrite length_insert. repeat split; auto; try lia.
  - intros Hf. specialize (Hs Hf). lia.
  - destruct (skb (priv w) !! Z.to_nat i) as [[?|]|]; exact Hq.
Qed.

Lemma slots_weak_accounted w : slots_weak w -> slots_weak (tx_accounted w).
Proof.
  intros H. unfold tx_accounted.
  repeat match goal with |- context [if ?c then _ else _] => destruct c end;
    repeat apply slots_weak_tx_done; auto; lia.
Qed.

Lemma slots_inv_woken w : slots_weak w -> slots_inv (queue_woken w).
Proof.
  intros (Hl & Hm & Hs & Hq). unfold queue_woken, slots_inv.
  change TX_MAP_BUSY with 7.
  destruct (netif_queue_stopped (priv w)) eqn:Hst;
    destruct (Z.ltb_spec (tx_busy_map (priv w)) 7) as [Hlt|Hge];
    cbn [andb]; proj; rewrite ?Hst;
    (split; [exact Hl|]); (split; [exact Hm|]);
    (split; [symmetry; first [apply Z.leb_gt; lia | apply Z.leb_le; lia]
            | auto]).
Qed.

Lemma tx_accounted_sched w :
  sched_core (tx_accounted w) = sched_core w /\
  lock (priv (tx_accounted w)) = lock (priv w).
Proof.
  unfold tx_accounted, sched_core.
  repeat match goal with |- context [if ?c then _ else _] => destruct c end;
    unfold tx_done_world; proj;
    repeat match goal with |- context [match ?o with Some _ => _ | None => _ end] =>
      destruct o end;
    split; reflexivity.
Qed.

Lemma queue_woken_sched w :
  sched_core (queue_woken w) = sched_core w /\
  lock (priv (queue_woken w)) = lock (priv w).
Proof. unfold queue_woken. destruct (_ && _); split; reflexivity. Qed.

Lemma rx_taken_cores k w :
  sched_core (rx_taken k w) = sched_core w /\
  ring_core (rx_taken k w) = ring_core w /\
  priv (rx_taken k w) = priv w.
Proof.
  unfold rx_taken, sched_core, ring_core. destruct (alloc_can_skb k); repeat split.
Qed.

Lemma slots_inv_core w w' : ring_core w' = ring_core w -> slots_inv w -> slots_inv w'.
Proof.
  unfold ring_core, slots_inv. intros [= -> -> -> ->]. auto.
Qed.

(** A handler that owns the transaction and submits one message. *)
Lemma inv_submit k cb tx len W (log : list spi_call) :
  length tx = 14%nat ->
  lock (priv W) = false ->
  sched_core W = (true, 0%nat, 0%nat, log) ->
  Forall (fun c => call_busy c = true) log ->
  slots_inv W ->
  inv (submit k cb tx len W) /\
  exists c, spi_log (dev (submit k cb tx len W)) = c :: log /\
            call_busy c = true /\
            busy (priv (submit k cb tx len W)) = true.
Proof.
  intros Htx Hlock Hcore Hlog Hslots.
  unfold sched_core in Hcore. injection Hcore as Hb Hi Hu Hl.
  split; [split|].
  - unfold sched_inv, submit. proj.
    destruct (spi_async_ret k =? 0); proj; rewrite ?Hi, ?Hb, ?Hu, ?Hl;
      repeat split; auto; try lia; try (eexists; reflexivity);
      try (constructor; auto); intros; try lia.
  - eapply slots_inv_core; [|exact Hslots].
    unfold ring_core, submit. proj.
    destruct (spi_async_ret k =? 0); reflexivity.
  - unfold submit. proj. rewrite Hb, Hl.
    destruct (spi_async_ret k =? 0); proj; eexists; repeat split.
Qed.

(** A handler that owns the transaction and lets go of it. *)
Lemma inv_idle W (log : list spi_call) :
  length (tx_buf (priv W)) = 14%nat ->
  lock (priv W) = false ->
  sched_core W = (false, 0%nat, 0%nat, log) ->
  Forall (fun c => call_busy c = true) log ->
  slots_inv W ->
  inv W.
Proof.
  intros Htx Hlock Hcore Hlog Hslots.
  unfold sched_core in Hcore. injection Hcore as Hb Hi Hu Hl.
  split; [|exact Hslots].
  unfold sched_inv. rewrite Hi, Hl. repeat split; auto; try lia.
  all: intros; lia.
Qed.

(** A handler that leaves the scheduler as it found it. *)
Lemma inv_quiet W w :
  sched_inv w ->
  length (tx_buf (priv W)) = 14%nat ->
  lock (priv W) = false ->
  sched_core W = sched_core w ->
  message_complete (priv W) = message_complete (priv w) ->
  slots_inv W ->
  inv W /\ wake_effect w W.
Proof.
  intros (Hl0 & Ht0 & Hi0 & Hb0 & Hu0 & Hlog0) Htx Hlock Hcore Hmsg Hslots.
  unfold sched_core in Hcore. injection Hcore as Hb Hi Hu Hl.
  split; [split; [|exact Hslots]|].
  - unfold sched_inv. rewrite Hi, Hl, Hu, Hb, Hmsg. repeat split; auto;
      apply Hb0; assumption.
  - left. auto.
Qed.

(** The world in which a completion callback starts owns the transaction. *)
Lemma completed_owner rx w :
  inv w -> (0 < spi_inflight (dev w))%nat ->
  owner (completed rx w) /\ is_Some (message_complete (priv w)).
Proof.
  intros [(Hl & Ht & Hi & Hb & Hu & Hlog) Hslots] Hpos.
  assert (Hone : spi_inflight (dev w) = 1%nat) by lia.
  destruct (Hb Hone) as [Hbusy Hcb].
  assert (Hs' : slots_inv (completed rx w))
    by (eapply slots_inv_core; [reflexivity | exact Hslots]).
  unfold owner, sched_core. proj. rewrite Hone, Hbusy, Hu.
  split; [|exact Hcb].
  split; [exact Hl|]. split; [exact Ht|]. split; [reflexivity|].
  split; [exact Hlog | exact Hs'].
Qed.

Lemma load_pending_slot_inv k w w' :
  length (tx_buf (priv w)) = 14%nat ->
  load_pending_slot k w = Ok tt w' ->
  exists i m s,
    w' = submit k Cb_load_txb (load_txb_bytes i s (tx_buf (priv w)))
           (5 + can_dlc (skb_data s) + 1)
           (with_priv (fun p => set_loaded_txb (u8 i) (set_lock false
                                  (set_tx_pending_map m p))) w).
Proof.
  intros Hlen. destruct_world w. unfold load_pending_slot. exec.
  destruct (take_pending_slot _ _ _) as [i m]. exec.
  match goal with |- context [?l !! ?n] => destruct (l !! n) as [[s|]|] end;
    destruct (0 <=? i); exec; try discriminate.
  rewrite mcp2515_load_txb_eq by buf_len. intros [= <-].
  exists i, m, s. reflexivity.
Qed.

(** *** The shape of every completion callback *)

Ltac own Hown :=
  let Hlock := fresh "Hlock" in let Htx := fresh "Htx" in
  let Hcore := fresh "Hcore" in let Hlog := fresh "Hlog" in
  let Hslots := fresh "Hslots" in
  pose proof Hown as (Hlock & Htx & Hcore & Hlog & Hslots).

Ltac ok_eq H := injection H as <-.

(** The callback ends by submitting from the world [W]. *)
Ltac submitted W :=
  left; exists W; do 3 eexists; split; [reflexivity|];
  split; [buf_len|]; split; [auto|]; split; [auto|auto].

Lemma ring_core_submit k cb tx len W :
  ring_core (submit k cb tx len W) = ring_core W.
Proof.
  unfold ring_core, submit. proj. destruct (spi_async_ret k =? 0); reflexivity.
Qed.

Lemma load_pending_shape k W wc W0 w' :
  length (tx_buf (priv W)) = 14%nat ->
  sched_core W = sched_core wc ->
  ring_core W = ring_core W0 ->
  load_pending_slot k W = Ok tt w' ->
  done_shape k wc W0 w'.
Proof.
  intros Hlen Hcore Hring Hrun.
  destruct (load_pending_slot_inv k W w' Hlen Hrun) as (i & m & s & ->).
  left. eexists. do 3 eexists. split; [reflexivity|].
  split; [auto using load_txb_bytes_length|].
  split; [reflexivity|]. split; [rewrite <- Hcore|rewrite <- Hring]; reflexivity.
Qed.

Lemma read_flags_shape k wc w' :
  owner wc -> mcp2515_read_flags_complete k wc = Ok tt w' ->
  done_shape k wc wc w'.
Proof.
  intros Hown Hrun. own Hown.
  destruct (Z.testbit (rd (rx_buf (priv wc)) 2) 0) eqn:H0.
  { rewrite read_flags_complete_rx0 in Hrun by auto. ok_eq Hrun.
    submitted (snapshot wc). }
  destruct (Z.testbit (rd (rx_buf (priv wc)) 2) 1) eqn:H1.
  { rewrite read_flags_complete_rx1 in Hrun by auto. ok_eq Hrun.
    submitted (snapshot wc). }
  destruct (Z.eq_dec (rd (rx_buf (priv wc)) 2) 0) as [Hz|Hnz].
  2:{ rewrite read_flags_complete_other in Hrun by auto. ok_eq Hrun.
      submitted (snapshot wc). }
  destruct (Z.eq_dec (tx_pending_map (priv wc)) 0) as [Hp|Hp].
  2:{ rewrite read_flags_complete_some in Hrun by auto.
      eapply load_pending_shape; [| | |exact Hrun]; auto. }
  destruct (interrupt (priv wc)) eqn:Hirq.
  - rewrite read_flags_complete_deferred in Hrun by auto. ok_eq Hrun.
    submitted (with_priv (fun p => set_lock false (set_interrupt false p))
                 (snapshot wc)).
  - rewrite read_flags_complete_idle in Hrun by auto. ok_eq Hrun.
    right. repeat split; auto.
    unfold sched_core in *. proj. injection Hcore as _ Hi Hu. rewrite Hi, Hu.
    reflexivity.
Qed.

Lemma transmit_or_read_flags_shape k W wc w' :
  length (tx_buf (priv W)) = 14%nat ->
  lock (priv W) = false ->
  sched_core W = sched_core wc ->
  ring_core W = ring_core wc ->
  mcp2515_transmit_or_read_flags k W = Ok tt w' ->
  done_shape k wc wc w'.
Proof.
  intros Hlen Hlock Hcore Hring Hrun.
  destruct (Z.eq_dec (tx_pending_map (priv W)) 0) as [Hp|Hp].
  - rewrite transmit_or_read_flags_none in Hrun by auto. ok_eq Hrun.
    submitted (with_priv (set_lock false) W).
  - rewrite transmit_or_read_flags_some in Hrun by auto.
    eapply load_pending_shape; [| | |exact Hrun]; auto.
Qed.

Lemma read_rxb0_shape k wc w' :
  owner wc -> mcp2515_read_rxb0_complete k wc = Ok tt w' ->
  done_shape k wc wc w'.
Proof.
  intros Hown Hrun. own Hown.
  destruct (rx_taken_cores k wc) as (Hc & Hr & Hp).
  rewrite read_rxb0_complete_eq in Hrun.
  destruct (Z.testbit (canintf (priv wc)) 1).
  - rewrite mcp2515_read_rxb1_eq in Hrun by (rewrite Hp; auto). ok_eq Hrun.
    submitted (rx_taken k wc).
  - eapply transmit_or_read_flags_shape; [| | | |exact Hrun]; rewrite ?Hp; auto.
Qed.

Lemma read_rxb1_shape k wc w' :
  owner wc -> mcp2515_read_rxb1_complete k wc = Ok tt w' ->
  done_shape k wc wc w'.
Proof.
  intros Hown Hrun. own Hown.
  destruct (rx_taken_cores k wc) as (Hc & Hr & Hp).
  rewrite read_rxb1_complete_eq in Hrun.
  eapply transmit_or_read_flags_shape; [| | | |exact Hrun]; rewrite ?Hp; auto.
Qed.

Lemma clear_canintf_shape k wc w' :
  owner wc -> mcp2515_clear_canintf_complete k wc = Ok tt w' ->
  done_shape k wc (queue_woken (tx_accounted wc)) w'.
Proof.
  intros Hown Hrun. own Hown.
  pose proof Hslots as (Hskb & _).
  rewrite clear_canintf_complete_eq in Hrun by auto. ok_eq Hrun. cbv zeta.
  destruct (tx_accounted_sched wc) as (Hc1 & Hl1).
  destruct (queue_woken_sched (tx_accounted wc)) as (Hc2 & Hl2).
  assert (sched_core (queue_woken (tx_accounted wc)) = sched_core wc) by congruence.
  assert (lock (priv (queue_woken (tx_accounted wc))) = false) by congruence.
  destruct (nonzero (eflg (priv wc)));
    submitted (queue_woken (tx_accounted wc)).
Qed.

Lemma clear_eflg_shape k wc w' :
  owner wc -> mcp2515_clear_eflg_complete k wc = Ok tt w' ->
  done_shape k wc wc w'.
Proof.
  intros Hown Hrun. own Hown.
  rewrite clear_eflg_complete_eq in Hrun by auto. ok_eq Hrun.
  destruct (nonzero _).
  - submitted (World (priv wc)
                 (set_rx_over_errors (ulong (rx_over_errors (dev wc) + 1)) (dev wc))).
  - submitted wc.
Qed.

Lemma load_txb_shape k wc w' :
  owner wc -> mcp2515_load_txb_complete k wc = Ok tt w' ->
  done_shape k wc wc w'.
Proof.
  intros Hown Hrun. own Hown.
  rewrite load_txb_complete_eq in Hrun by auto. ok_eq Hrun.
  submitted wc.
Qed.

Lemma rts_txb_shape k wc w' :
  owner wc -> mcp2515_rts_txb_complete k wc = Ok tt w' ->
  done_shape k wc wc w'.
Proof.
  intros Hown Hrun. own Hown.
  rewrite rts_txb_complete_eq in Hrun by auto. ok_eq Hrun.
  submitted wc.
Qed.

(** The world whose ring state a completion of callback [cb] leaves. *)
Lemma dispatch_shape cb k wc w' :
  owner wc -> dispatch cb k wc = Ok tt w' ->
  done_shape k wc
    (match cb with
     | Cb_clear_canintf => queue_woken (tx_accounted wc)
     | _ => wc
     end) w'.
Proof.
  intros Hown Hrun. destruct cb; cbn [dispatch] in Hrun;
    eauto using read_flags_shape, read_rxb0_shape, read_rxb1_shape,
      clear_canintf_shape, clear_eflg_shape, load_txb_shape, rts_txb_shape.
Qed.

(** What follows from the shape. *)
Lemma done_shape_inv k wc W0 w' :
  owner wc -> slots_inv W0 -> done_shape k wc W0 w' ->
  inv w' /\ completion_effect wc w' /\ ring_core w' = ring_core W0.
Proof.
  intros Hown HW0 Hshape. own Hown.
  destruct Hshape as [(W & cb & tx & len & -> & Hlen & HlockW & HcoreW & HringW)
                     |(HlockW & Hlen & HcoreW & Htimer & HringW)].
  - assert (HslotsW : slots_inv W) by (eapply slots_inv_core; eauto).
    rewrite Hcore in HcoreW.
    destruct (inv_submit k cb tx len W _ Hlen HlockW HcoreW Hlog HslotsW)
      as [Hinv Heff].
    split; [exact Hinv|]. split; [left; exact Heff|].
    rewrite ring_core_submit. exact HringW.
  - assert (HslotsW : slots_inv w') by (eapply slots_inv_core; eauto).
    split; [eapply inv_idle; eauto|]. split; [|exact HringW].
    right. unfold sched_core in HcoreW. injection HcoreW as Hb Hi Hu Hl. auto.
Qed.

Lemma spi_complete_eq rx k w cb :
  message_complete (priv w) = Some cb ->
  spi_complete rx k w = dispatch cb k (completed rx w).
Proof.
  intros H. unfold spi_complete. cbv [mbind M_bind dev_set priv_set priv_get].
  proj. rewrite H. reflexivity.
Qed.

Lemma step_done_shape rx k w w' :
  inv w -> step (EvSpiDone rx k) w = Some w' ->
  exists cb, message_complete (priv w) = Some cb /\
    owner (completed rx w) /\
    done_shape k (completed rx w)
      (match cb with
       | Cb_clear_canintf => queue_woken (tx_accounted (completed rx w))
       | _ => completed rx w
       end) w'.
Proof.
  intros Hinv Hstep. unfold step, enabled in Hstep.
  case_bool_decide as Hpos; [|discriminate].
  destruct (completed_owner rx w Hinv Hpos) as [Hown [cb Hcb]].
  cbn [fire] in Hstep. rewrite (spi_complete_eq rx k w cb Hcb) in Hstep.
  destruct (dispatch cb k (completed rx w)) as [[] w1|] eqn:Hrun; [|discriminate].
  injection Hstep as <-.
  exists cb. split; [exact Hcb|]. split; [exact Hown|].
  apply dispatch_shape; auto.
Qed.

Lemma accounted_slots_inv wc :
  slots_inv wc -> slots_inv (queue_woken (tx_accounted wc)).
Proof. auto using slots_inv_woken, slots_weak_accounted, slots_inv_weak. Qed.

Lemma step_done rx k w w' :
  inv w -> step (EvSpiDone rx k) w = Some w' ->
  inv w' /\ completion_effect w w'.
Proof.
  intros Hinv Hstep.
  destruct (step_done_shape rx k w w' Hinv Hstep) as (cb & Hcb & Hown & Hshape).
  pose proof Hown as (_ & _ & _ & _ & Hslots).
  eapply done_shape_inv in Hshape; [|exact Hown|].
  - destruct Hshape as (H1 & H2 & _). split; [exact H1 | exact H2].
  - destruct cb; auto using accounted_slots_inv.
Qed.

(** *** The shape of every wake source *)

Lemma wake_submit k cb tx len W w :
  sched_inv w ->
  busy (priv w) = false ->
  length tx = 14%nat ->
  lock (priv W) = false ->
  sched_core W = (true, spi_inflight (dev w), unlocked_busy_writes (dev w),
                  spi_log (dev w)) ->
  slots_inv W ->
  inv (submit k cb tx len W) /\ wake_effect w (submit k cb tx len W).
Proof.
  intros (Hl0 & Ht0 & Hi0 & Hb0 & Hu0 & Hlog0) Hidle Hlen Hlock Hcore Hslots.
  assert (Hzero : spi_inflight (dev w) = 0%nat).
  { destruct (spi_inflight (dev w)) as [|[|n]]; [reflexivity| |lia].
    destruct (Hb0 eq_refl) as [Hb _]. congruence. }
  rewrite Hzero, Hu0 in Hcore.
  destruct (inv_submit k cb tx len W _ Hlen Hlock Hcore Hlog0 Hslots)
    as [Hinv (c & Hc & Hcb & Hb)].
  split; [exact Hinv|]. right. exists c. auto.
Qed.

Ltac quiet :=
  left; split; [reflexivity|]; split; [auto|]; split; [reflexivity|];
  split; reflexivity.

Ltac woke W :=
  right; exists W; do 3 eexists; split; [reflexivity|];
  split; [auto|]; split; [buf_len|]; split; [reflexivity|];
  split; reflexivity.

Lemma softirq_shape k w w' :
  sched_inv w -> mcp2515_softirq_handler k w = Ok tt w' -> wake_shape k w w w'.
Proof.
  intros (Hl & Ht & _) Hrun.
  destruct (busy (priv w)) eqn:Hb.
  - rewrite softirq_busy in Hrun by auto. ok_eq Hrun. quiet.
  - rewrite softirq_idle in Hrun by auto. ok_eq Hrun.
    woke (with_priv (fun p => set_lock false (set_busy true p)) w).
Qed.

Lemma timer_cb_shape k w w' :
  sched_inv w -> read_flags_timer_cb k w = Ok tt w' -> wake_shape k w w w'.
Proof.
  intros (Hl & Ht & _) Hrun.
  destruct (busy (priv w)) eqn:Hb.
  - rewrite timer_cb_busy in Hrun by auto. ok_eq Hrun. quiet.
  - rewrite timer_cb_idle in Hrun by auto. ok_eq Hrun.
    woke (with_priv (fun p => set_extra true (set_skip 0
                                (set_lock false (set_busy true p)))) w).
Qed.

Lemma slot_reserved_props s i m w :
  slots_inv w -> 0 <= i < 3 -> tx_busy_map (priv w) < m <= 7 ->
  slots_inv (slot_reserved s i m w) /\
  sched_core (slot_reserved s i m w) = sched_core w /\
  tx_buf (priv (slot_reserved s i m w)) = tx_buf (priv w) /\
  message_complete (priv (slot_reserved s i m w)) = message_complete (priv w).
Proof.
  intros (Hlen & Hmap & Hst & Hq) Hi Hm.
  assert (Hold : netif_queue_stopped (priv w) = false).
  { rewrite Hst. apply Z.leb_gt. change TX_MAP_BUSY with 7. lia. }
  unfold slot_reserved, slots_inv, sched_core.
  destruct (TX_MAP_BUSY <=? m) eqn:Hfull; proj; rewrite ?length_insert, ?Hfull;
    repeat split; auto; try lia; congruence.
Qed.

(** The host transmit entry point: the frame is dropped as invalid, or the
    lowest free slot [i] is reserved and the frame is either left pending
    or loaded at once. With no free slot the call faults and is no step. *)
Lemma start_xmit_shape s k w r w' :
  inv w -> mcp2515_start_xmit s k w = Ok r w' ->
  (can_dropped_invalid_skb s = true /\ w' = w) \/
  (exists i m,
     can_dropped_invalid_skb s = false /\
     find_free_tx_slot (Z.to_nat MCP2515_TX_CNT) 0 (tx_busy_map (priv w)) = (i, m) /\
     0 <= i < 3 /\ tx_busy_map (priv w) < m <= 7 /\
     wake_shape k w (slot_reserved s i m w) w').
Proof.
  intros [Hsched Hslots] Hrun.
  pose proof Hsched as (Hl & Ht & _).
  pose proof Hslots as (Hlen & Hmap & _).
  destruct (can_dropped_invalid_skb s) eqn:Hv.
  { rewrite start_xmit_dropped in Hrun by auto. injection Hrun as _ <-. auto. }
  right.
  pose proof (find_free_tx_slot_range _ Hmap) as Hfree.
  destruct (find_free_tx_slot _ 0 _) as [i m] eqn:Hf.
  destruct Hfree as [(-> & _) | (Hi & Hm)].
  { rewrite (start_xmit_out_of_bounds s k w 3 m) in Hrun; auto; [discriminate|].
    rewrite Hlen. lia. }
  exists i, m. do 4 (split; [auto|]).
  destruct (slot_reserved_props s i m w Hslots Hi Hm) as (Hs' & Hc' & Ht' & Hm').
  destruct (busy (priv w)) eqn:Hb.
  - rewrite (start_xmit_busy s k w i m) in Hrun by (auto; rewrite Hlen; lia).
    injection Hrun as _ <-.
    left. split; [reflexivity|].
    split; [exact (eq_trans (f_equal length Ht') Ht)|].
    split; [rewrite <- Hc'; reflexivity|].
    split; [exact Hm' | reflexivity].
  - rewrite (start_xmit_idle s k w i m) in Hrun by (auto; rewrite Hlen; lia).
    injection Hrun as _ <-.
    right. eexists. do 3 eexists. split; [reflexivity|].
    split; [auto|]. split; [auto using load_txb_bytes_length|].
    split; [reflexivity|]. split; [|reflexivity].
    unfold sched_core in *. proj. injection Hc' as _ Hi' Hu' Hl'.
    rewrite Hi', Hu', Hl'. reflexivity.
Qed.

Lemma wake_shape_inv k w W0 w' :
  sched_inv w -> slots_inv W0 -> wake_shape k w W0 w' ->
  inv w' /\ wake_effect w w' /\ ring_core w' = ring_core W0.
Proof.
  intros Hsched HW0 Hshape.
  destruct Hshape as [(Hlock & Hlen & Hcore & Hmsg & Hring)
                     |(W & cb & tx & len & -> & Hidle & Hlen & Hlock & Hcore & Hring)].
  - assert (Hslots : slots_inv w') by (eapply slots_inv_core; eauto).
    destruct (inv_quiet w' w Hsched Hlen Hlock Hcore Hmsg Hslots) as [H1 H2].
    auto.
  - assert (Hslots : slots_inv W) by (eapply slots_inv_core; eauto).
    destruct (wake_submit k cb tx len W w Hsched Hidle Hlen Hlock Hcore Hslots)
      as [H1 H2].
    split; [exact H1|]. split; [exact H2|].
    rewrite ring_core_submit. exact Hring.
Qed.

Lemma step_irq k w w' :
  inv w -> step (EvIrq k) w = Some w' ->
  inv w' /\ wake_effect w w' /\ ring_core w' = ring_core w.
Proof.
  intros [Hsched Hslots] Hstep. unfold step in Hstep. cbn [enabled fire] in Hstep.
  destruct (mcp2515_softirq_handler k w) as [[] w1|] eqn:Hrun; [|discriminate].
  injection Hstep as <-.
  eapply wake_shape_inv; eauto using softirq_shape.
Qed.

Lemma fire_timer_eq k w :
  fire (EvTimer k) w = read_flags_timer_cb k (with_priv (set_timer None) w).
Proof. reflexivity. Qed.

Lemma step_timer k w w' :
  inv w -> step (EvTimer k) w = Some w' ->
  inv w' /\ wake_effect w w' /\ ring_core w' = ring_core w.
Proof.
  intros [Hsched Hslots] Hstep. unfold step in Hstep.
  destruct (enabled (EvTimer k) w); [|discriminate].
  rewrite fire_timer_eq in Hstep.
  destruct (read_flags_timer_cb k _) as [[] w1|] eqn:Hrun; [|discriminate].
  injection Hstep as <-.
  assert (Hsched' : sched_inv (with_priv (set_timer None) w)) by exact Hsched.
  assert (Hslots' : slots_inv (with_priv (set_timer None) w)) by exact Hslots.
  destruct (wake_shape_inv k _ _ w1 Hsched' Hslots'
              (timer_cb_shape k _ w1 Hsched' Hrun)) as (H1 & H2 & H3).
  auto.
Qed.

Lemma fire_xmit_eq s k w :
  fire (EvXmit s k) w =
  match mcp2515_start_xmit s k w with
  | Ok _ w1 => Ok tt w1
  | Fault e => Fault e
  end.
Proof. reflexivity. Qed.

Lemma step_xmit s k w w' :
  inv w -> step (EvXmit s k) w = Some w' ->
  inv w' /\ wake_effect w w' /\
  tx_busy_map (priv w) <= tx_busy_map (priv w').
Proof.
  intros Hinv Hstep. unfold step in Hstep. cbn [enabled] in Hstep.
  rewrite fire_xmit_eq in Hstep.
  destruct (mcp2515_start_xmit s k w) as [r w1|] eqn:Hrun; [|discriminate].
  injection Hstep as <-.
  destruct (start_xmit_shape s k w r w1 Hinv Hrun)
    as [[_ ->] | (i & m & _ & _ & Hi & Hm & Hshape)].
  - split; [exact Hinv|]. split; [left; auto | lia].
  - destruct Hinv as [Hsched Hslots].
    destruct (slot_reserved_props s i m w Hslots Hi Hm) as (Hs' & _).
    destruct (wake_shape_inv k w _ w1 Hsched Hs' Hshape) as (H1 & H2 & H3).
    split; [exact H1|]. split; [exact H2|].
    unfold ring_core in H3. injection H3 as _ Hmap _ _.
    rewrite Hmap. unfold slot_reserved.
    destruct (TX_MAP_BUSY <=? m); proj; lia.
Qed.

(** Every step of the session keeps the invariants. *)
Lemma step_inv e w w' : inv w -> step e w = Some w' -> inv w'.
Proof.
  intros Hinv Hstep.
  destruct e;
    [apply (step_irq _ _ _ Hinv Hstep) | apply (step_timer _ _ _ Hinv Hstep)
    |apply (step_xmit _ _ _ _ Hinv Hstep) | apply (step_done _ _ _ _ Hinv Hstep)].
Qed.

Lemma run_inv evs w w' : inv w -> run evs w = Some w' -> inv w'.
Proof.
  revert w. induction evs as [|e evs IH]; intros w Hinv Hrun; cbn [run] in Hrun.
  - injection Hrun as <-. exact Hinv.
  - destruct (step e w) as [w1|] eqn:Hstep; [|discriminate].
    eapply IH; [|exact Hrun]. eapply step_inv; eauto.
Qed.

Lemma inv_world0 : inv world0.
Proof.
  split.
  - unfold sched_inv. cbn. repeat split; auto; try lia; try discriminate.
  - unfold slots_inv. cbn. repeat split; auto; lia.
Qed.

Lemma reachable_inv w : reachable w -> inv w.
Proof. intros [evs Hrun]. exact (run_inv evs world0 w inv_world0 Hrun). Qed.

(** *** Handlers run to their end *)

Lemma load_pending_progress k W wc :
  pending_ok wc ->
  tx_pending_map (priv W) <> 0 ->
  length (tx_buf (priv W)) = 14%nat ->
  tx_pending_map (priv W) = tx_pending_map (priv wc) ->
  skb (priv W) = skb (priv wc) ->
  exists w', load_pending_slot k W = Ok tt w'.
Proof.
  intros [Hz | (i & s & Hlow & Hskb)] Hp Hlen Hmap Hs; [congruence|].
  rewrite <- Hmap in Hlow. rewrite <- Hs in Hskb.
  eexists. apply (load_pending_slot_eq k W i s Hlen Hlow Hskb).
Qed.

Lemma transmit_or_read_flags_progress k W wc :
  pending_ok wc ->
  length (tx_buf (priv W)) = 14%nat ->
  tx_pending_map (priv W) = tx_pending_map (priv wc) ->
  skb (priv W) = skb (priv wc) ->
  exists w', mcp2515_transmit_or_read_flags k W = Ok tt w'.
Proof.
  intros Hok Hlen Hmap Hs.
  destruct (Z.eq_dec (tx_pending_map (priv W)) 0) as [Hp|Hp].
  - rewrite transmit_or_read_flags_none by auto. eauto.
  - rewrite transmit_or_read_flags_some by auto.
    eapply load_pending_progress; eauto.
Qed.

Lemma dispatch_progress cb k wc :
  owner wc -> pending_ok wc -> exists w', dispatch cb k wc = Ok tt w'.
Proof.
  intros Hown Hok. own Hown. pose proof Hslots as (Hskb & _).
  destruct cb; cbn [dispatch].
  - destruct (Z.testbit (rd (rx_buf (priv wc)) 2) 0) eqn:H0.
    { rewrite read_flags_complete_rx0 by auto. eauto. }
    destruct (Z.testbit (rd (rx_buf (priv wc)) 2) 1) eqn:H1.
    { rewrite read_flags_complete_rx1 by auto. eauto. }
    destruct (Z.eq_dec (rd (rx_buf (priv wc)) 2) 0) as [Hz|Hnz].
    2:{ rewrite read_flags_complete_other by auto. eauto. }
    destruct (Z.eq_dec (tx_pending_map (priv wc)) 0) as [Hp|Hp].
    2:{ rewrite read_flags_complete_some by auto.
        eapply load_pending_progress; eauto. }
    destruct (interrupt (priv wc)) eqn:Hirq.
    + rewrite read_flags_complete_deferred by auto. eauto.
    + rewrite read_flags_complete_idle by auto. eauto.
  - rewrite read_rxb0_complete_eq.
    destruct (Z.testbit (canintf (priv wc)) 1).
    + rewrite mcp2515_read_rxb1_eq by auto. eauto.
    + eapply transmit_or_read_flags_progress; eauto.
  - rewrite read_rxb1_complete_eq.
    eapply transmit_or_read_flags_progress; eauto.
  - rewrite clear_canintf_complete_eq by auto. eauto.
  - rewrite clear_eflg_complete_eq by auto. eauto.
  - rewrite load_txb_complete_eq by auto. eauto.
  - rewrite rts_txb_complete_eq by auto. eauto.
Qed.

Lemma step_progress e w :
  inv w -> can_happen e w -> exists w', step e w = Some w'.
Proof.
  intros Hinv Hcan. pose proof Hinv as [Hsched Hslots].
  pose proof Hsched as (Hl & Ht & _). pose proof Hslots as (Hlen & Hmap & _).
  unfold step. destruct e as [k|k|s k|rx k]; cbn [can_happen] in Hcan.
  - cbn [enabled fire].
    destruct (busy (priv w)) eqn:Hb;
      [rewrite softirq_busy by auto | rewrite softirq_idle by auto]; eauto.
  - cbn [enabled]. rewrite bool_decide_eq_true_2 by exact Hcan.
    rewrite fire_timer_eq.
    destruct (busy (priv w)) eqn:Hb;
      [rewrite timer_cb_busy by auto | rewrite timer_cb_idle by auto]; eauto.
  - cbn [enabled]. rewrite fire_xmit_eq.
    destruct (can_dropped_invalid_skb s) eqn:Hv.
    { rewrite start_xmit_dropped by auto. eauto. }
    destruct Hcan as [Hcan|Hfree]; [discriminate|].
    pose proof (find_free_tx_slot_range _ Hmap) as Hr.
    destruct (find_free_tx_slot _ 0 _) as [i m] eqn:Hf.
    destruct Hr as [(_ & _ & H7) | (Hi & Hm)]; [lia|].
    destruct (busy (priv w)) eqn:Hb.
    + rewrite (start_xmit_busy s k w i m) by (auto; rewrite Hlen; lia). eauto.
    + rewrite (start_xmit_idle s k w i m) by (auto; rewrite Hlen; lia). eauto.
  - destruct Hcan as [Hpos Hok]. cbn [enabled].
    rewrite bool_decide_eq_true_2 by exact Hpos.
    destruct (completed_owner rx w Hinv Hpos) as [Hown [cb Hcb]].
    cbn [fire]. rewrite (spi_complete_eq rx k w cb Hcb).
    destruct (dispatch_progress cb k (completed rx w) Hown Hok) as [w' ->].
    eauto.
Qed.

(** ** The scheduler *)

(** The scheduler in runs whose completions return: for every interleaving
    of the tasklet, the timer, the transmit entry point and the completion
    callbacks, whatever bytes the completions carry and whether or not the
    transport accepts a message, after every run of events from the initial
    session at most one message is queued, and only while [busy] is set;
    the lock is free; [busy] has only ever been written with the lock held,
    and every [spi_async] call was made with [busy] set. A wake source
    makes no call, or exactly one after taking [busy] from clear to set. A
    completion callback that returns has made exactly one follow-up call,
    or none, in which case it has cleared [busy] and armed the timer with
    nothing queued. The handlers run to their end always for the tasklet
    and the timer, with a free slot for the transmit entry point, and for a
    completion whenever the pending map is empty or its lowest slot holds a
    frame; in other states they need not. *)
Theorem single_in_flight :
  (forall evs w, run evs world0 = Some w ->
     (spi_inflight (dev w) <= 1)%nat /\
     (spi_inflight (dev w) = 1%nat -> busy (priv w) = true) /\
     lock (priv w) = false /\
     unlocked_busy_writes (dev w) = 0%nat /\
     Forall (fun c => call_busy c = true) (spi_log (dev w))) /\
  (forall w e w', reachable w -> is_wake e -> step e w = Some w' ->
     wake_effect w w') /\
  (forall w rx k w', reachable w -> step (EvSpiDone rx k) w = Some w' ->
     completion_effect w w') /\
  (forall w e, reachable w -> can_happen e w -> exists w', step e w = Some w').
Proof.
  split; [|split; [|split]].
  - intros evs w Hrun.
    destruct (run_inv evs world0 w inv_world0 Hrun)
      as [(Hl & _ & Hi & Hb & Hu & Hlog) _].
    split; [exact Hi|]. split; [intros H; apply (Hb H)|]. auto.
  - intros w e w' Hreach Hwake Hstep. apply reachable_inv in Hreach.
    destruct e as [k|k|s k|rx k]; [| | |contradiction].
    + apply (step_irq k w w' Hreach Hstep).
    + apply (step_timer k w w' Hreach Hstep).
    + apply (step_xmit s k w w' Hreach Hstep).
  - intros w rx k w' Hreach Hstep. apply reachable_inv in Hreach.
    apply (step_done rx k w w' Hreach Hstep).
  - intros w e Hreach Hcan. apply reachable_inv in Hreach.
    apply step_progress; auto.
Qed.

Lemma single_in_flight_witness :
  let k := Env 0 (Some (CanFrame 0 0 (replicate 8 0))) in
  let f := SkBuff (CanFrame 0x123 2 [1; 2; 3; 4; 5; 6; 7; 8]) in
  let evs := [EvIrq k; EvXmit f k; EvIrq k;
              EvSpiDone [0; 0; 1; 0; 0; 0; 0; 0; 0; 0; 0; 0; 0; 0] k;
              EvSpiDone [0; 0x24; 0x60; 0; 0; 2; 7; 7; 0; 0; 0; 0; 0; 0] k] in
  exists w, run evs world0 = Some w /\
            (spi_inflight (dev w) <= 1)%nat /\
            (spi_inflight (dev w) = 1%nat -> busy (priv w) = true).
Proof.
  intros k f evs. eexists. split; [vm_compute; reflexivity|].
  match goal with |- (spi_inflight (dev ?w) <= 1)%nat /\ _ =>
    destruct (proj1 single_in_flight evs w eq_refl) as (H1 & H2 & _)
  end.
  split; [exact H1 | exact H2].
Defined.

(** ** The transmit ring and the host queue *)

Lemma all_slots_full m : 0 <= m <= 7 -> (all_slots m <-> m = 7).
Proof.
  intros Hm. split.
  - intros Hall. apply slot_map_enum in Hm. simpl in Hm.
    assert (H0 := Hall 0 ltac:(unfold MCP2515_TX_CNT; lia)).
    assert (H1 := Hall 1 ltac:(unfold MCP2515_TX_CNT; lia)).
    assert (H2 := Hall 2 ltac:(unfold MCP2515_TX_CNT; lia)).
    repeat (destruct Hm as [<-|Hm];
            [first [reflexivity
                   | vm_compute in H0; discriminate H0
                   | vm_compute in H1; discriminate H1
                   | vm_compute in H2; discriminate H2]|]).
    contradiction.
  - intros -> j Hj. unfold MCP2515_TX_CNT in Hj.
    assert (j = 0 \/ j = 1 \/ j = 2) as [-> | [-> | ->]] by lia; reflexivity.
Qed.

Lemma busy_slots_le m : (busy_slots m <= 3)%nat.
Proof.
  unfold busy_slots.
  etransitivity; [apply length_filter|]. reflexivity.
Qed.

Lemma busy_slots_lt m : 0 <= m <= 7 -> ((busy_slots m < 3)%nat <-> m < 7).
Proof.
  intros Hm. apply slot_map_enum in Hm. simpl in Hm.
  repeat (destruct Hm as [<-|Hm];
          [match goal with |- context [busy_slots ?c] =>
             let v := eval vm_compute in (busy_slots c) in
             change (busy_slots c) with v
           end; lia|]).
  contradiction.
Qed.

Lemma queue_stopped_full w :
  slots_inv w -> (queue_stopped (dev w) = true <-> tx_busy_map (priv w) = 7).
Proof.
  intros (_ & Hm & Hs & Hq). rewrite Hq, Hs. change TX_MAP_BUSY with 7.
  rewrite Z.leb_le. lia.
Qed.

Lemma step_ring e w w' :
  inv w -> step e w = Some w' ->
  tx_busy_map (priv w) <= tx_busy_map (priv w') \/
  exists rx k, e = EvSpiDone rx k /\
               message_complete (priv w) = Some Cb_clear_canintf /\
               ring_core w' = ring_core (queue_woken (tx_accounted (completed rx w))).
Proof.
  intros Hinv Hstep. destruct e as [k|k|s k|rx k].
  - destruct (step_irq k w w' Hinv Hstep) as (_ & _ & Hr).
    unfold ring_core in Hr. injection Hr as _ -> _ _. left; lia.
  - destruct (step_timer k w w' Hinv Hstep) as (_ & _ & Hr).
    unfold ring_core in Hr. injection Hr as _ -> _ _. left; lia.
  - destruct (step_xmit s k w w' Hinv Hstep) as (_ & _ & Hr). left; exact Hr.
  - destruct (step_done_shape rx k w w' Hinv Hstep) as (cb & Hcb & Hown & Hshape).
    pose proof Hown as (_ & _ & _ & _ & Hslots).
    assert (Hacc := accounted_slots_inv _ Hslots).
    destruct cb;
      try (eapply done_shape_inv in Hshape; [|exact Hown|exact Hslots];
           destruct Hshape as (_ & _ & Hr);
           unfold ring_core in Hr; injection Hr as _ Hr _ _;
           left; rewrite Hr; proj; lia).
    eapply done_shape_inv in Hshape; [|exact Hown|exact Hacc].
    destruct Hshape as (_ & _ & Hr).
    right. exists rx, k. auto.
Qed.

Lemma queue_woken_after w :
  slots_weak w ->
  tx_busy_map (priv (queue_woken w)) = tx_busy_map (priv w) /\
  queue_stopped (dev (queue_woken w)) =
    queue_stopped (dev w) && negb (tx_busy_map (priv w) <? TX_MAP_BUSY).
Proof.
  intros (_ & _ & _ & Hq). unfold queue_woken. rewrite <- Hq.
  destruct (queue_stopped (dev w)) eqn:Hst;
    destruct (tx_busy_map (priv w) <? TX_MAP_BUSY); cbn [andb negb]; proj; auto.
Qed.

Lemma tx_done_world_queue i w :
  queue_stopped (dev (tx_done_world i w)) = queue_stopped (dev w).
Proof.
  unfold tx_done_world. proj.
  destruct (skb (priv w) !! Z.to_nat i) as [[?|]|]; reflexivity.
Qed.

Lemma tx_accounted_queue w :
  queue_stopped (dev (tx_accounted w)) = queue_stopped (dev w).
Proof.
  unfold tx_accounted.
  repeat match goal with |- context [if ?c then _ else _] => destruct c end;
    rewrite ?tx_done_world_queue; reflexivity.
Qed.

(** The queue and the ring within one session, handlers running one after
    another: in every state reached from the initial session by events of
    the asynchronous core alone the host queue is stopped, for the stack
    and in the driver's own flag, if and only if all three slots are busy.
    A step resumes a stopped queue only if it is the completion of the
    clear-flags exchange and fewer than three slots are busy afterwards;
    and when that completion runs with the queue stopped, the queue is
    resumed if its accounting leaves fewer than three slots busy and stays
    stopped if it leaves all three busy. Restarting the device is not
    among these events. *)
Theorem queue_stopped_iff_ring_full :
  (forall w, reachable w ->
     (queue_stopped (dev w) = true <-> all_slots (tx_busy_map (priv w))) /\
     netif_queue_stopped (priv w) = queue_stopped (dev w) /\
     (queue_stopped (dev w) = true <-> busy_slots (tx_busy_map (priv w)) = 3%nat)) /\
  (forall w e w', reachable w -> step e w = Some w' ->
     queue_stopped (dev w) = true -> queue_stopped (dev w') = false ->
     exists rx k, e = EvSpiDone rx k /\
       message_complete (priv w) = Some Cb_clear_canintf /\
       (busy_slots (tx_busy_map (priv w')) < 3)%nat) /\
  (forall w rx k w', reachable w ->
     message_complete (priv w) = Some Cb_clear_canintf ->
     step (EvSpiDone rx k) w = Some w' ->
     let after := tx_busy_map (priv (tx_accounted (completed rx w))) in
     tx_busy_map (priv w') = after /\
     queue_stopped (dev w') =
       queue_stopped (dev w) && negb (after <? TX_MAP_BUSY) /\
     ((after <? TX_MAP_BUSY) = true <-> (busy_slots after < 3)%nat)).
Proof.
  split; [|split].
  - intros w Hreach. apply reachable_inv in Hreach. destruct Hreach as [_ Hslots].
    pose proof Hslots as (_ & Hm & Hs & Hq).
    pose proof (queue_stopped_full w Hslots) as Hfull.
    pose proof (busy_slots_lt _ Hm) as Hlt.
    pose proof (busy_slots_le (tx_busy_map (priv w))) as Hle.
    split; [rewrite (all_slots_full _ Hm); exact Hfull|].
    split; [auto|]. rewrite Hfull. lia.
  - intros w e w' Hreach Hstep Hon Hoff. apply reachable_inv in Hreach.
    pose proof (step_inv e w w' Hreach Hstep) as [_ Hslots'].
    pose proof Hreach as [_ Hslots].
    pose proof Hslots as (_ & Hm & _). pose proof Hslots' as (_ & Hm' & _).
    apply (queue_stopped_full w Hslots) in Hon.
    assert (Hlt : tx_busy_map (priv w') < 7).
    { destruct (Z.eq_dec (tx_busy_map (priv w')) 7) as [H7|]; [|lia].
      apply (queue_stopped_full w' Hslots') in H7. congruence. }
    destruct (step_ring e w w' Hreach Hstep) as [Hle | (rx & k & -> & Hcb & _)];
      [lia|].
    exists rx, k. split; [reflexivity|]. split; [exact Hcb|].
    apply busy_slots_lt; auto.
  - intros w rx k w' Hreach Hcb Hstep after. apply reachable_inv in Hreach.
    destruct (step_done_shape rx k w w' Hreach Hstep) as (cb & Hcb' & Hown & Hshape).
    rewrite Hcb in Hcb'. injection Hcb' as <-.
    pose proof Hown as (_ & _ & _ & _ & Hslots).
    pose proof (slots_weak_accounted _ (slots_inv_weak _ Hslots)) as Hweak.
    eapply done_shape_inv in Hshape; [|exact Hown|apply accounted_slots_inv; exact Hslots].
    destruct Hshape as (_ & _ & Hr).
    destruct (queue_woken_after _ Hweak) as (Hmap & Hq).
    unfold ring_core in Hr. injection Hr as _ Hr1 _ Hr2.
    assert (Hqa : queue_stopped (dev (tx_accounted (completed rx w))) =
                  queue_stopped (dev w))
      by (rewrite tx_accounted_queue; reflexivity).
    split; [rewrite Hr1; exact Hmap|].
    split; [rewrite Hr2, Hq, Hqa; reflexivity|].
    destruct Hweak as (_ & Hm & _). subst after.
    change TX_MAP_BUSY with 7. rewrite Z.ltb_lt. symmetry. apply busy_slots_lt; auto.
Qed.

(** ** Deferred interrupts *)

Lemma run_app evs1 evs2 w :
  run (evs1 ++ evs2) w =
  match run evs1 w with
  | Some w1 => run evs2 w1
  | None => None
  end.
Proof.
  revert w. induction evs1 as [|e evs1 IH]; intros w; cbn [run app].
  - reflexivity.
  - destruct (step e w); [apply IH | reflexivity].
Qed.

Lemma deferred_idem w : deferred (deferred w) = deferred w.
Proof. destruct w as [[] d]. reflexivity. Qed.

Lemma step_irq_busy k w :
  busy (priv w) = true -> step (EvIrq k) w = Some (deferred w).
Proof.
  intros Hb. unfold step. cbn [enabled fire].
  rewrite softirq_busy by auto. reflexivity.
Qed.

Lemma run_irqs_deferred ks w :
  busy (priv w) = true ->
  run (map EvIrq ks) (deferred w) = Some (deferred w).
Proof.
  intros Hb. induction ks as [|k ks IH]; cbn [map run].
  - reflexivity.
  - rewrite step_irq_busy by exact Hb. rewrite deferred_idem. exact IH.
Qed.

(** Any number of notifications while busy leaves what one leaves. *)
Lemma run_irqs_busy ks w :
  busy (priv w) = true -> ks <> [] ->
  run (map EvIrq ks) w = Some (deferred w).
Proof.
  intros Hb Hne. destruct ks as [|k ks]; [congruence|].
  cbn [map run]. rewrite step_irq_busy by auto.
  apply run_irqs_deferred. exact Hb.
Qed.

Lemma step_done_eq rx k w cb w' :
  (0 < spi_inflight (dev w))%nat ->
  message_complete (priv w) = Some cb ->
  dispatch cb k (completed rx w) = Ok tt w' ->
  step (EvSpiDone rx k) w = Some w'.
Proof.
  intros Hpos Hcb Hrun. unfold step. cbn [enabled fire].
  rewrite bool_decide_eq_true_2 by exact Hpos.
  rewrite (spi_complete_eq rx k w cb Hcb), Hrun. reflexivity.
Qed.

(** *** Notifications ride along a busy run *)






























(** ** A completion that cannot run to its end *)

(** C1: a completion handler does not always issue a follow-up exchange or
    reach idle. A frame is queued while a status read is outstanding, so
    slot 0 is busy and pending; the read reports TX0IF; the flags are
    cleared, and the accounting of [mcp2515_clear_canintf_complete] empties
    slot 0 but leaves its pending bit; the status read that follows reports
    nothing. Its completion handler starts with [busy] set and its message
    taken off the queue, takes slot 0 from the pending map and hands the
    empty slot to [mcp2515_load_txb], which dereferences it: the handler
    does not return, no follow-up exchange is issued and [busy] is never
    cleared. *)
Theorem pending_slot_emptied_by_accounting :
  let k := Env 0 None in
  let f := SkBuff (CanFrame 0x123 2 [1; 2; 3; 4; 5; 6; 7; 8]) in
  let z := replicate 14 0 in
  let tx0 := [0; 0; 4; 0; 0; 0; 0; 0; 0; 0; 0; 0; 0; 0] in
  exists w,
    run [EvIrq k; EvXmit f k; EvSpiDone tx0 k; EvSpiDone z k] world0 = Some w /\
    busy (priv w) = true /\
    spi_inflight (dev w) = 1%nat /\
    message_complete (priv w) = Some Cb_read_flags /\
    tx_pending_map (priv w) = 1 /\
    skb (priv w) = [None; None; None] /\
    mcp2515_read_flags_complete k (completed z w) = Fault NullPointer /\
    fire (EvSpiDone z k) w = Fault NullPointer /\
    step (EvSpiDone z k) w = None.
Proof.
  intros k f z tx0. eexists. split; [vm_compute; reflexivity|].
  repeat split.
Qed.

Lemma queue_stopped_iff_ring_full_witness :
  let k := Env 0 None in
  let f := SkBuff (CanFrame 0x123 2 [1; 2; 3; 4; 5; 6; 7; 8]) in
  exists w,
    run [EvXmit f k; EvXmit f k; EvXmit f k] world0 = Some w /\
    (queue_stopped (dev w) = true <-> all_slots (tx_busy_map (priv w))) /\
    queue_stopped (dev w) = true.
Proof.
  intros k f. eexists. split; [vm_compute; reflexivity|].
  match goal with |- (queue_stopped (dev ?w) = true <-> _) /\ _ =>
    destruct (proj1 queue_stopped_iff_ring_full w) as (H & _);
      [exists [EvXmit f k; EvXmit f k; EvXmit f k]; vm_compute; reflexivity|]
  end.
  split; [exact H | reflexivity].
Defined.

(** * The codec on arbitrary buffers *)

Lemma byte_bit_high b n : is_byte b -> 8 <= n -> Z.testbit b n = false.
Proof. intros H Hn. apply (testbit_high b 8); [exact H | lia]. Qed.

Lemma lor_disjoint_add a b : Z.land a b = 0 -> Z.lor a b = a + b.
Proof.
  intros H. rewrite <- Z.lxor_lor by exact H. symmetry. apply Z.add_nocarry_lxor, H.
Qed.

(** A value below [2^k] shares no bit with a value shifted left by [k]. *)
Lemma lor_low_shiftl x y k :
  0 <= k -> 0 <= x < 2 ^ k -> Z.lor x (Z.shiftl y k) = x + y * 2 ^ k.
Proof.
  intros Hk Hx. rewrite lor_disjoint_add; [rewrite Z.shiftl_mul_pow2 by lia; reflexivity|].
  apply Z.bits_inj'. intros n Hn. rewrite Z.land_spec, Z.bits_0.
  destruct (Z.ltb_spec n k).
  - rewrite Z.shiftl_spec_low by lia. apply andb_false_r.
  - rewrite (testbit_high x k n) by lia. reflexivity.
Qed.

Lemma rxb_sid_bits b1 b2 :
  is_byte b2 ->
  b1 * 8 + b2 / 32 = Z.lor (Z.shiftr b2 5) (Z.shiftl b1 3).
Proof.
  intros H2. unfold is_byte in *.
  rewrite Z.shiftr_div_pow2 by lia. change (2 ^ 5) with 32.
  assert (Hq : 0 <= b2 / 32 < 2 ^ 3)
    by (change (2 ^ 3) with 8; Z.div_mod_to_equations; lia).
  rewrite (lor_low_shiftl _ b1 3 ltac:(lia) Hq). change (2 ^ 3) with 8. lia.
Qed.

Lemma rxb_eid_bits b1 b2 b3 b4 :
  is_byte b1 -> is_byte b2 -> is_byte b3 -> is_byte b4 ->
  (b1 * 8 + b2 / 32) * 2 ^ 18 + (b2 mod 4) * 2 ^ 16 + b3 * 2 ^ 8 + b4 =
  Z.lor (Z.lor (Z.lor (Z.lor b4 (Z.shiftl b3 8)) (Z.shiftl (Z.land b2 3) 16))
               (Z.shiftl (Z.shiftr b2 5) 18))
        (Z.shiftl b1 21).
Proof.
  intros H1 H2 H3 H4. unfold is_byte in *.
  change 3 with (Z.ones 2). rewrite Z.land_ones by lia.
  rewrite Z.shiftr_div_pow2 by lia. change (2 ^ 5) with 32. change (2 ^ 2) with 4.
  assert (Hq : 0 <= b2 / 32 < 8) by (Z.div_mod_to_equations; lia).
  assert (Hm : 0 <= b2 mod 4 < 4) by (Z.div_mod_to_equations; lia).
  rewrite (lor_low_shiftl b4 b3 8) by lia.
  rewrite (lor_low_shiftl _ (b2 mod 4) 16) by lia.
  rewrite (lor_low_shiftl _ (b2 / 32) 18) by lia.
  rewrite (lor_low_shiftl _ b1 21) by lia.
  lia.
Qed.

Lemma rxb_ident_valid buf :
  is_byte (rd buf 1) -> is_byte (rd buf 2) -> is_byte (rd buf 3) -> is_byte (rd buf 4) ->
  valid_ident (Z.testbit (rd buf 2) 3) (rxb_ident buf).
Proof.
  unfold is_byte, valid_ident, rxb_ident, CAN_EFF_MASK, CAN_SFF_MASK.
  intros H1 H2 H3 H4.
  destruct (Z.testbit (rd buf 2) 3); Z.div_mod_to_equations; lia.
Qed.

(** Rewrite the bits of a byte above bit 7 to [false]. *)
Ltac byte_bits :=
  repeat match goal with
  | Hb : is_byte ?b |- context [Z.testbit ?b (Zpos ?q)] =>
    rewrite (byte_bit_high b (Zpos q) Hb) by lia
  end.

Ltac bitblast32_bytes :=
  apply bits32_inj;
  let n := fresh "n" in let Hn := fresh "Hn" in
  intros n Hn; apply bit_index_cases in Hn; simpl in Hn;
  repeat (destruct Hn as [<-|Hn]; [push_testbit; literal_bits; byte_bits; bool_cases|]);
  contradiction.

Lemma decode_rxb_ident (frame : can_frame) (buf : list Z) :
  is_byte (rd buf 1) -> is_byte (rd buf 2) -> is_byte (rd buf 3) -> is_byte (rd buf 4) ->
  let ext := Z.testbit (rd buf 2) 3 in
  valid_ident ext (rxb_ident buf) /\
  can_id (mcp2515_decode_rxb frame buf) = mk_can_id ext (rxb_rtr buf) (rxb_ident buf).
Proof.
  intros H1 H2 H3 H4 ext.
  pose proof (rxb_ident_valid buf H1 H2 H3 H4) as Hv. fold ext in Hv.
  assert (Hid : can_id (mcp2515_decode_rxb frame buf) =
                mk_can_id ext (rxb_rtr buf) (rxb_ident buf)).
  { rewrite <- (mk_can_id_u32 ext (rxb_rtr buf) (rxb_ident buf) Hv).
    unfold mcp2515_decode_rxb, rxb_rtr, rxb_ident. cbn [can_id]. fold ext.
    change RXBSIDL_IDE with (BIT 3). change RXBSIDL_SRR with (BIT 4).
    change RXBDLC_RTR with (BIT 6).
    rewrite !nonzero_land_BIT by lia. fold ext.
    destruct ext.
    - rewrite rxb_eid_bits by assumption.
      unfold mk_can_id, CAN_EFF_FLAG, CAN_RTR_FLAG.
      destruct (Z.testbit (rd buf 5) 6).
      + unfold u32 at 2. bitblast32_bytes.
      + bitblast32_bytes.
    - rewrite rxb_sid_bits by assumption.
      unfold mk_can_id, CAN_EFF_FLAG, CAN_RTR_FLAG.
      destruct (Z.testbit (rd buf 2) 4) eqn:E4.
      + unfold u32 at 2. bitblast32_bytes.
      + bitblast32_bytes. }
  split; [exact Hv | exact Hid].
Qed.

(** X1: [mcp2515_decode_rxb] reads the identifier of any receive buffer as
    the data sheet lays it out. The [can_id] it stores is the 11-bit
    identifier of SIDH and SIDL, or with EXIDE set the 29-bit identifier
    continued in SIDL, EID8 and EID0, together with the EFF flag for EXIDE
    and the RTR flag taken from the DLC byte (extended) or from SRR
    (standard). The identifier is always in range and the error flag, bit
    29, is never set. *)
Theorem decode_rxb_can_id (frame : can_frame) (buf : list Z) :
  is_byte (rd buf 1) -> is_byte (rd buf 2) -> is_byte (rd buf 3) -> is_byte (rd buf 4) ->
  let ext := Z.testbit (rd buf 2) 3 in
  valid_ident ext (rxb_ident buf) /\
  can_id (mcp2515_decode_rxb frame buf) = mk_can_id ext (rxb_rtr buf) (rxb_ident buf) /\
  Z.testbit (can_id (mcp2515_decode_rxb frame buf)) 29 = false.
Proof.
  intros H1 H2 H3 H4 ext.
  destruct (decode_rxb_ident frame buf H1 H2 H3 H4) as [Hv Hid]. fold ext in Hv, Hid.
  split; [exact Hv|]. split; [exact Hid|].
  rewrite Hid, mk_can_id_bits by lia.
  rewrite (ident_high_bits ext _ 29 Hv) by lia.
  destruct ext, (rxb_rtr buf); reflexivity.
Qed.

Lemma decode_rxb_can_id_witness :
  let buf := [0x90; 0x24; 0x68; 0x12; 0x34; 0x42; 1; 2; 3; 4; 5; 6; 7; 8] in
  can_id (mcp2515_decode_rxb (CanFrame 0 0 (replicate 8 0)) buf) =
  mk_can_id true true 0x48C1234.
Proof.
  intros buf.
  destruct (decode_rxb_can_id (CanFrame 0 0 (replicate 8 0)) buf)
    as (_ & H & _); try (unfold is_byte; cbn; lia).
  exact H.
Defined.

Lemma bits8_inj a b :
  (forall n, 0 <= n < 8 -> Z.testbit a n = Z.testbit b n) -> u8 a = u8 b.
Proof.
  intros H. unfold u8. apply Z.bits_inj'. intros n Hn.
  rewrite !Z.land_spec. change 255 with (Z.ones 8).
  destruct (Z.ltb_spec n 8).
  - rewrite H by lia. reflexivity.
  - rewrite Z.ones_spec_high by lia. now rewrite !andb_false_r.
Qed.

Lemma byte_index_cases n : 0 <= n < 8 -> In n [0; 1; 2; 3; 4; 5; 6; 7].
Proof. intros H. apply slot_map_enum. lia. Qed.

Ltac bitblast8_bytes :=
  apply bits8_inj;
  let n := fresh "n" in let Hn := fresh "Hn" in
  intros n Hn; apply byte_index_cases in Hn; simpl in Hn;
  repeat (destruct Hn as [<-|Hn]; [push_testbit; literal_bits; byte_bits; bool_cases|]);
  contradiction.

Lemma u8_of_bits x :
  (forall n, 8 <= n -> Z.testbit x n = false) -> u8 x = x.
Proof.
  intros H. unfold u8. apply Z.bits_inj'. intros n Hn.
  rewrite Z.land_spec. change 255 with (Z.ones 8).
  destruct (Z.ltb_spec n 8).
  - rewrite Z.ones_spec_low by lia. apply andb_true_r.
  - rewrite H by lia. reflexivity.
Qed.

(** The header bytes the encoder writes for a decoded identifier. *)
Lemma reencode_ext_header b1 b2 b3 b4 rtr :
  is_byte b1 -> is_byte b2 -> is_byte b3 -> is_byte b4 ->
  let id := mk_can_id true rtr
              (Z.lor (Z.lor (Z.lor (Z.lor b4 (Z.shiftl b3 8)) (Z.shiftl (Z.land b2 3) 16))
                            (Z.shiftl (Z.shiftr b2 5) 18))
                     (Z.shiftl b1 21)) in
  u8 (Z.shiftr id 21) = b1 /\
  u8 (Z.lor (Z.lor (Z.land (Z.shiftr id 13) 0xe0) 8) (Z.land (Z.shiftr id 16) 3)) =
    Z.lor (Z.land b2 0xe3) 8 /\
  u8 (Z.shiftr id 8) = b3 /\
  u8 id = b4.
Proof.
  intros H1 H2 H3 H4 id.
  assert (Hb : u8 (Z.lor (Z.land b2 0xe3) 8) = Z.lor (Z.land b2 0xe3) 8).
  { apply u8_of_bits. intros n Hn. rewrite Z.lor_spec, Z.land_spec.
    rewrite (testbit_high 0xe3 8 n), (testbit_high 8 8 n) by lia.
    now rewrite andb_false_r. }
  subst id. unfold mk_can_id, CAN_EFF_FLAG, CAN_RTR_FLAG.
  destruct rtr; (split; [|split; [|split]]);
    (etransitivity; [|first [apply (u8_id b1 H1) | exact Hb
                            | apply (u8_id b3 H3) | apply (u8_id b4 H4)]]);
    bitblast8_bytes.
Qed.

Lemma reencode_std_header b1 b2 rtr :
  is_byte b1 -> is_byte b2 ->
  let id := mk_can_id false rtr (Z.lor (Z.shiftr b2 5) (Z.shiftl b1 3)) in
  u8 (Z.shiftr id 3) = b1 /\
  u8 (u32 (Z.shiftl id 5)) = Z.land b2 0xe0.
Proof.
  intros H1 H2 id.
  assert (Hb : u8 (Z.land b2 0xe0) = Z.land b2 0xe0).
  { apply u8_of_bits. intros n Hn. rewrite Z.land_spec.
    rewrite (testbit_high 0xe0 8 n) by lia. now rewrite andb_false_r. }
  subst id. unfold mk_can_id, CAN_EFF_FLAG, CAN_RTR_FLAG, u32.
  destruct rtr; split;
    (etransitivity; [|first [apply (u8_id b1 H1) | exact Hb]]);
    bitblast8_bytes.
Qed.

Lemma decode_rxb_data_length frame buf :
  length (data (mcp2515_decode_rxb frame buf)) = length (data frame).
Proof.
  rewrite decode_rxb_data. destruct (is_rtr _); [reflexivity|].
  unfold memcpy. apply length_inserts.
Qed.

Lemma dlc_rtr_byte dlc (rtr : bool) :
  0 <= dlc <= 8 ->
  (if rtr then u8 (Z.lor dlc 0x40) else dlc) = Z.lor dlc (if rtr then 0x40 else 0).
Proof.
  intros H.
  assert (Hc : In dlc [0; 1; 2; 3; 4; 5; 6; 7; 8]).
  { replace dlc with (Z.of_nat (Z.to_nat dlc)) by lia.
    change [0; 1; 2; 3; 4; 5; 6; 7; 8] with (map Z.of_nat (seq 0 9)).
    apply in_map, in_seq. lia. }
  simpl in Hc.
  repeat (destruct Hc as [<-|Hc]; [destruct rtr; reflexivity|]). contradiction.
Qed.

(** X2: decoding a receive buffer with [mcp2515_decode_rxb] and encoding
    the frame again with [mcp2515_set_txbuf] gives back the header of the
    buffer: SIDH; SIDL reduced to its identifier bits, with EXIDE set for an
    extended frame; EID8 and EID0 for an extended frame and zero for a
    standard one; the length, clamped to 8, with the remote-request bit;
    and, for a data frame, the payload bytes. *)
Theorem encode_decoded_rxb (frame : can_frame) (buf old : list Z) :
  length buf = 14%nat -> length old = 13%nat -> length (data frame) = 8%nat ->
  is_byte (rd buf 1) -> is_byte (rd buf 2) -> is_byte (rd buf 3) -> is_byte (rd buf 4) ->
  let f := mcp2515_decode_rxb frame buf in
  let enc := fst (mcp2515_set_txbuf old (SkBuff f)) in
  let ext := Z.testbit (rd buf 2) 3 in
  let n := Z.to_nat (can_dlc f) in
  rd enc 0 = rd buf 1 /\
  rd enc 1 = (if ext then Z.lor (Z.land (rd buf 2) 0xe3) 8 else Z.land (rd buf 2) 0xe0) /\
  rd enc 2 = (if ext then rd buf 3 else 0) /\
  rd enc 3 = (if ext then rd buf 4 else 0) /\
  rd enc 4 = Z.lor (Z.min (Z.land (rd buf 5) 0xf) 8) (if rxb_rtr buf then 0x40 else 0) /\
  (rxb_rtr buf = false -> take n (drop 5 enc) = take n (drop 6 buf)).
Proof.
  intros Hbuf Hold Hdata H1 H2 H3 H4 f enc ext n. subst f enc n.
  destruct (decode_rxb_ident frame buf H1 H2 H3 H4) as (Hv & Hid).
  fold ext in Hid, Hv.
  pose proof (decode_rxb_dlc frame buf) as Hdlc.
  pose proof (low4_range (rd buf 5)) as Hlow.
  assert (Hrange : 0 <= can_dlc (mcp2515_decode_rxb frame buf) <= 8) by lia.
  pose proof (decode_rxb_data_length frame buf) as Hlen.
  rewrite Hdata in Hlen.
  destruct (mk_can_id_flags ext (rxb_rtr buf) (rxb_ident buf) Hv) as [Heff Hrtr].
  assert (Hd := decode_rxb_data frame buf).
  destruct (mcp2515_decode_rxb frame buf) as [id dlc payload].
  cbn [can_id can_dlc data] in *.
  destruct (set_txbuf_layout old id dlc payload Hold Hrange Hlen)
    as (h0 & h1 & h2 & h3 & Henc & Hh).
  rewrite Henc. clear Henc.
  rewrite <- Hid in Heff, Hrtr.
  change CAN_EFF_FLAG with (BIT 31) in Hh.
  rewrite nonzero_land_BIT, Heff in Hh by lia. rewrite rtr_test, Hrtr.
  cbn [rd default from_option lookup list_lookup drop]. rewrite drop_0.
  rewrite dlc_rtr_byte by exact Hrange. rewrite <- Hdlc.
  assert (Hpay : rxb_rtr buf = false ->
            take (Z.to_nat dlc)
              (take (Z.to_nat dlc) payload ++ drop (5 + Z.to_nat dlc) old) =
            take (Z.to_nat dlc) (drop 6 buf)).
  { intros Hnr. rewrite take_take_app by lia.
    unfold is_rtr in Hd. cbn [data can_id can_dlc] in Hd.
    rewrite Hrtr, Hnr in Hd. rewrite Hd.
    rewrite memcpy_spec by (rewrite ?length_drop; lia).
    rewrite take_0. cbn [app]. apply take_take_app. rewrite length_drop. lia. }
  unfold rxb_ident in Hid. fold ext in Hid.
  destruct ext.
  - rewrite rxb_eid_bits in Hid by assumption. subst id.
    destruct (reencode_ext_header _ _ _ _ (rxb_rtr buf) H1 H2 H3 H4)
      as (E0 & E1 & E2 & E3).
    injection Hh as -> -> -> ->. cbn [id]. rewrite E0, E1, E2, E3. auto 10.
  - rewrite rxb_sid_bits in Hid by assumption. subst id.
    destruct (reencode_std_header _ _ (rxb_rtr buf) H1 H2) as (E0 & E1).
    injection Hh as -> -> -> ->. cbn [id]. rewrite E0, E1. auto 10.
Qed.

Lemma encode_decoded_rxb_witness :
  let buf := [0x90; 0x24; 0x60; 0; 0; 2; 7; 9; 0; 0; 0; 0; 0; 0] in
  let f := mcp2515_decode_rxb (CanFrame 0 0 (replicate 8 0)) buf in
  let enc := fst (mcp2515_set_txbuf (replicate 13 0) (SkBuff f)) in
  rd enc 0 = 0x24 /\ rd enc 1 = 0x60 /\ take 2 (drop 5 enc) = [7; 9].
Proof.
  intros buf f enc.
  destruct (encode_decoded_rxb (CanFrame 0 0 (replicate 8 0)) buf (replicate 13 0))
    as (H0 & H1 & _ & _ & _ & Hp);
    try reflexivity; try (unfold is_byte; cbn; lia).
  split; [exact H0|]. split; [exact H1 | exact (Hp eq_refl)].
Defined.

Lemma std_ide_bit id : Z.testbit (u8 (u32 (Z.shiftl id 5))) 3 = false.
Proof. unfold u8, u32. push_testbit. literal_bits. bool_cases. Qed.

(** X3: for a frame of valid length [mcp2515_set_txbuf] reports 5 + dlc
    bytes, keeps the length of the buffer and every byte past those,
    copies the first dlc payload bytes behind the five header bytes, sets
    EXIDE exactly for an extended frame and the RTR bit of the length byte
    exactly for a remote request, puts the length in the low nibble, and
    writes byte values only. *)
Theorem set_txbuf_frame_format (buf : list Z) (id dlc : Z) (payload : list Z) :
  length buf = 13%nat -> 0 <= dlc <= CAN_MAX_DLC -> length payload = 8%nat ->
  Forall is_byte payload ->
  let out := fst (mcp2515_set_txbuf buf (SkBuff (CanFrame id dlc payload))) in
  let n := snd (mcp2515_set_txbuf buf (SkBuff (CanFrame id dlc payload))) in
  n = 5 + dlc /\
  length out = 13%nat /\
  drop (Z.to_nat n) out = drop (Z.to_nat n) buf /\
  take (Z.to_nat dlc) (drop 5 out) = take (Z.to_nat dlc) payload /\
  Z.testbit (rd out 1) 3 = Z.testbit id 31 /\
  Z.testbit (rd out 4) 6 = Z.testbit id 30 /\
  Z.land (rd out 4) 0xf = dlc /\
  Forall is_byte (take (Z.to_nat n) out).
Proof.
  intros Hbuf Hdlc Hpay Hbytes out n. unfold CAN_MAX_DLC in Hdlc.
  destruct (set_txbuf_layout buf id dlc payload Hbuf Hdlc Hpay)
    as (h0 & h1 & h2 & h3 & Henc & Hh).
  assert (Hn : n = 5 + dlc) by reflexivity.
  assert (Hlen : length out = 13%nat)
    by (subst out; rewrite set_txbuf_length; exact Hbuf).
  fold out in Henc.
  change CAN_EFF_FLAG with (BIT 31) in Hh. change CAN_RTR_FLAG with (BIT 30) in Henc.
  rewrite nonzero_land_BIT in Hh, Henc by lia.
  destruct (dlc_byte (Z.testbit id 30) dlc Hdlc) as [Hlow Hbit6].
  set (d := if Z.testbit id 30 then u8 (Z.lor dlc 64) else dlc) in *.
  assert (Hd : is_byte d).
  { subst d. destruct (Z.testbit id 30); [apply u8_range | unfold is_byte; lia]. }
  assert (Hhb : is_byte h0 /\ is_byte h1 /\ is_byte h2 /\ is_byte h3 /\
                Z.testbit h1 3 = Z.testbit id 31).
  { destruct (Z.testbit id 31); injection Hh as -> -> -> ->;
      repeat split; try apply u8_range; try (unfold is_byte; lia);
      [apply ext_ide_bit | apply std_ide_bit]. }
  destruct Hhb as (B0 & B1 & B2 & B3 & Hide).
  split; [exact Hn|]. split; [exact Hlen|].
  rewrite Hn, Henc.
  replace (Z.to_nat (5 + dlc)) with (5 + Z.to_nat dlc)%nat by lia.
  cbn [drop take Nat.add rd default from_option lookup list_lookup].
  split; [|split; [|split; [|split; [|split]]]].
  - rewrite drop_app_length' by (rewrite length_take; lia). reflexivity.
  - apply take_take_app. lia.
  - exact Hide.
  - exact Hbit6.
  - subst d. clear -Hdlc.
    assert (Hc : In dlc [0; 1; 2; 3; 4; 5; 6; 7; 8]).
    { replace dlc with (Z.of_nat (Z.to_nat dlc)) by lia.
      change [0; 1; 2; 3; 4; 5; 6; 7; 8] with (map Z.of_nat (seq 0 9)).
      apply in_map, in_seq. lia. }
    simpl in Hc.
    repeat (destruct Hc as [<-|Hc]; [destruct (Z.testbit id 30); reflexivity|]).
    contradiction.
  - repeat (constructor; [assumption|]).
    rewrite take_app_length' by (rewrite length_take; lia).
    apply Forall_take. exact Hbytes.
Qed.

Lemma set_txbuf_frame_format_witness :
  let r := mcp2515_set_txbuf (replicate 13 0xaa)
             (SkBuff (CanFrame 0x123 2 [1; 2; 3; 4; 5; 6; 7; 8])) in
  snd r = 7 /\ drop 7 (fst r) = replicate 6 0xaa /\
  take 2 (drop 5 (fst r)) = [1; 2].
Proof.
  intros r.
  destruct (set_txbuf_frame_format (replicate 13 0xaa) 0x123 2
              [1; 2; 3; 4; 5; 6; 7; 8])
    as (Hn & _ & Hrest & Hpay & _); try reflexivity.
  - unfold CAN_MAX_DLC. lia.
  - repeat constructor; unfold is_byte; lia.
  - split; [exact Hn|]. split; [exact Hrest | exact Hpay].
Defined.

(** * The books of a run *)

Lemma ledger_submit k cb tx len W : ledger (submit k cb tx len W) = ledger W.
Proof. unfold ledger, submit. proj. destruct (spi_async_ret k =? 0); reflexivity. Qed.

Lemma ledger_queue_woken w : ledger (queue_woken w) = ledger w.
Proof. unfold queue_woken. destruct (_ && _); reflexivity. Qed.

Lemma load_pending_ledger k W w' :
  length (tx_buf (priv W)) = 14%nat ->
  load_pending_slot k W = Ok tt w' -> ledger w' = ledger W.
Proof.
  intros Hlen Hrun.
  destruct (load_pending_slot_inv k W w' Hlen Hrun) as (i & m & s & ->).
  rewrite ledger_submit. reflexivity.
Qed.

Lemma transmit_or_read_flags_ledger k W w' :
  length (tx_buf (priv W)) = 14%nat ->
  mcp2515_transmit_or_read_flags k W = Ok tt w' -> ledger w' = ledger W.
Proof.
  intros Hlen Hrun.
  destruct (Z.eq_dec (tx_pending_map (priv W)) 0) as [Hp|Hp].
  - rewrite transmit_or_read_flags_none in Hrun by auto. ok_eq Hrun.
    rewrite ledger_submit. reflexivity.
  - rewrite transmit_or_read_flags_some in Hrun by auto.
    apply load_pending_ledger in Hrun; [|exact Hlen]. exact Hrun.
Qed.

Lemma read_flags_complete_ledger k wc w' :
  length (tx_buf (priv wc)) = 14%nat ->
  mcp2515_read_flags_complete k wc = Ok tt w' -> ledger w' = ledger wc.
Proof.
  intros Htx Hrun.
  destruct (Z.testbit (rd (rx_buf (priv wc)) 2) 0) eqn:H0.
  { rewrite read_flags_complete_rx0 in Hrun by auto. ok_eq Hrun.
    rewrite ledger_submit. reflexivity. }
  destruct (Z.testbit (rd (rx_buf (priv wc)) 2) 1) eqn:H1.
  { rewrite read_flags_complete_rx1 in Hrun by auto. ok_eq Hrun.
    rewrite ledger_submit. reflexivity. }
  destruct (Z.eq_dec (rd (rx_buf (priv wc)) 2) 0) as [Hz|Hnz].
  2:{ rewrite read_flags_complete_other in Hrun by auto. ok_eq Hrun.
      rewrite ledger_submit. reflexivity. }
  destruct (Z.eq_dec (tx_pending_map (priv wc)) 0) as [Hp|Hp].
  2:{ rewrite read_flags_complete_some in Hrun by auto.
      apply load_pending_ledger in Hrun; [|exact Htx]. exact Hrun. }
  destruct (interrupt (priv wc)) eqn:Hirq.
  - rewrite read_flags_complete_deferred in Hrun by auto. ok_eq Hrun.
    rewrite ledger_submit. reflexivity.
  - rewrite read_flags_complete_idle in Hrun by auto. ok_eq Hrun. reflexivity.
Qed.

Lemma dispatch_ledger cb k wc w' :
  length (tx_buf (priv wc)) = 14%nat -> length (skb (priv wc)) = 3%nat ->
  dispatch cb k wc = Ok tt w' -> ledger w' = ledger (accounted cb k wc).
Proof.
  intros Htx Hskb Hrun. destruct cb; cbn [dispatch accounted] in *.
  - eauto using read_flags_complete_ledger.
  - rewrite read_rxb0_complete_eq in Hrun.
    destruct (rx_taken_cores k wc) as (_ & _ & Hp).
    destruct (Z.testbit (canintf (priv wc)) 1).
    + rewrite mcp2515_read_rxb1_eq in Hrun by (rewrite Hp; auto). ok_eq Hrun.
      apply ledger_submit.
    + apply transmit_or_read_flags_ledger in Hrun; [exact Hrun | rewrite Hp; auto].
  - rewrite read_rxb1_complete_eq in Hrun.
    destruct (rx_taken_cores k wc) as (_ & _ & Hp).
    apply transmit_or_read_flags_ledger in Hrun; [exact Hrun | rewrite Hp; auto].
  - rewrite clear_canintf_complete_eq in Hrun by auto. ok_eq Hrun. cbv zeta.
    destruct (nonzero (eflg (priv wc))); rewrite ledger_submit, ledger_queue_woken;
      reflexivity.
  - rewrite clear_eflg_complete_eq in Hrun by auto. ok_eq Hrun.
    rewrite ledger_submit, overflow_test. reflexivity.
  - rewrite load_txb_complete_eq in Hrun by auto. ok_eq Hrun. apply ledger_submit.
  - rewrite rts_txb_complete_eq in Hrun by auto. ok_eq Hrun. apply ledger_submit.
Qed.

(** Every event changes the books by its own entry and nothing else. *)
Lemma step_ledger e w w' :
  inv w -> step e w = Some w' -> ledger w' = ledger (booked e w).
Proof.
  intros Hinv Hstep. pose proof Hinv as [Hsched Hslots].
  pose proof Hsched as (Hl & Ht & _). pose proof Hslots as (Hlen & Hmap & _).
  destruct e as [k|k|s k|rx k]; cbn [booked].
  - unfold step in Hstep. cbn [enabled fire] in Hstep.
    destruct (busy (priv w)) eqn:Hb;
      [rewrite softirq_busy in Hstep by auto | rewrite softirq_idle in Hstep by auto];
      injection Hstep as <-; rewrite ?ledger_submit; reflexivity.
  - unfold step in Hstep. destruct (enabled _ w); [|discriminate].
    rewrite fire_timer_eq in Hstep.
    destruct (busy (priv w)) eqn:Hb;
      [rewrite timer_cb_busy in Hstep by auto | rewrite timer_cb_idle in Hstep by auto];
      injection Hstep as <-; rewrite ?ledger_submit; reflexivity.
  - unfold step in Hstep. cbn [enabled] in Hstep. rewrite fire_xmit_eq in Hstep.
    destruct (mcp2515_start_xmit s k w) as [r w1|] eqn:Hrun; [|discriminate].
    injection Hstep as <-.
    destruct (can_dropped_invalid_skb s) eqn:Hv.
    { rewrite start_xmit_dropped in Hrun by auto. injection Hrun as _ <-. reflexivity. }
    pose proof (find_free_tx_slot_range _ Hmap) as Hfree.
    destruct (find_free_tx_slot _ 0 _) as [i m] eqn:Hf.
    destruct Hfree as [(-> & _) | (Hi & Hm)].
    { rewrite (start_xmit_out_of_bounds s k w 3 m) in Hrun; auto; [discriminate|].
      rewrite Hlen. lia. }
    destruct (busy (priv w)) eqn:Hb.
    + rewrite (start_xmit_busy s k w i m) in Hrun by (auto; rewrite Hlen; lia).
      injection Hrun as _ <-. reflexivity.
    + rewrite (start_xmit_idle s k w i m) in Hrun by (auto; rewrite Hlen; lia).
      injection Hrun as _ <-. rewrite ledger_submit. reflexivity.
  - unfold step, enabled in Hstep.
    case_bool_decide as Hpos; [|discriminate].
    destruct (completed_owner rx w Hinv Hpos) as [Hown [cb Hcb]].
    cbn [fire] in Hstep. rewrite (spi_complete_eq rx k w cb Hcb) in Hstep.
    destruct (dispatch cb k (completed rx w)) as [[] w1|] eqn:Hrun; [|discriminate].
    injection Hstep as <-. rewrite Hcb.
    apply dispatch_ledger; auto.
Qed.

Lemma clear_slot_bits m i j :
  0 <= i -> 0 <= j < 8 ->
  Z.testbit (clear_slot m i) j = Z.testbit m j && negb (i =? j).
Proof.
  intros Hi Hj. unfold clear_slot, u8. rewrite BIT_pow2 by lia.
  rewrite !Z.land_spec, Z.lnot_spec, Z.pow2_bits_eqb by lia.
  change 255 with (Z.ones 8). rewrite Z.ones_spec_low by lia.
  now rewrite andb_true_r.
Qed.

Lemma set_slot_bits m i j :
  0 <= i -> 0 <= j < 8 ->
  Z.testbit (u8 (Z.lor m (BIT i))) j = Z.testbit m j || (i =? j).
Proof.
  intros Hi Hj. unfold u8. rewrite BIT_pow2 by lia.
  rewrite Z.land_spec, Z.lor_spec, Z.pow2_bits_eqb by lia.
  change 255 with (Z.ones 8). rewrite Z.ones_spec_low by lia.
  now rewrite andb_true_r.
Qed.

Lemma slot_holds_frame_insert w i j (o : option sk_buff) (f : mcp2515_priv -> mcp2515_priv) d :
  (forall p, skb (f p) = skb p) ->
  0 <= i < Z.of_nat (length (skb (priv w))) -> 0 <= j ->
  slot_holds_frame (World (f (set_skb (<[Z.to_nat i := o]> (skb (priv w))) (priv w))) d) j =
  if i =? j then bool_decide (is_Some o) else slot_holds_frame w j.
Proof.
  intros Hf Hi Hj. unfold slot_holds_frame. cbn [priv]. rewrite Hf. proj.
  destruct (Z.eqb_spec i j) as [->|Hne].
  - rewrite list_lookup_insert_eq by lia. destruct o; reflexivity.
  - rewrite list_lookup_insert_ne by lia. reflexivity.
Qed.

Lemma tx_done_world_frames i w :
  length (skb (priv w)) = 3%nat -> 0 <= i < 3 ->
  frames_inv w -> frames_inv (tx_done_world i w).
Proof.
  intros Hlen Hi Hinv j Hj. unfold MCP2515_TX_CNT in Hj.
  unfold tx_done_world.
  rewrite (slot_holds_frame_insert w i j None (set_tx_busy_map _)) by (auto; lia).
  proj. rewrite clear_slot_bits by lia. rewrite (Hinv j) by (unfold MCP2515_TX_CNT; lia).
  destruct (i =? j); [apply andb_false_r | apply andb_true_r].
Qed.

Lemma tx_accounted_frames w :
  length (skb (priv w)) = 3%nat -> frames_inv w -> frames_inv (tx_accounted w).
Proof.
  intros Hlen H. unfold tx_accounted.
  repeat match goal with |- context [if ?c then _ else _] => destruct c end;
    repeat (apply tx_done_world_frames;
            [rewrite ?tx_done_world_skb_length; exact Hlen | lia |]);
    exact H.
Qed.

Lemma frames_inv_ledger w w' : ledger w' = ledger w -> frames_inv w -> frames_inv w'.
Proof.
  unfold ledger, frames_inv, slot_holds_frame. intros [= Hs Hm _ _ _ _ _ _ _] H.
  rewrite Hs, Hm. exact H.
Qed.

Lemma slot_reserved_frames s i m w :
  length (skb (priv w)) = 3%nat ->
  find_free_tx_slot (Z.to_nat MCP2515_TX_CNT) 0 (tx_busy_map (priv w)) = (i, m) ->
  0 <= i < 3 ->
  frames_inv w -> frames_inv (slot_reserved s i m w).
Proof.
  intros Hlen Hf Hi Hinv j Hj. unfold MCP2515_TX_CNT in Hj.
  destruct (free_slot_cases (tx_busy_map (priv w))) as [[i' Hlow] | Hfull].
  2:{ rewrite find_free_tx_slot_full in Hf by auto. injection Hf as <- _. lia. }
  rewrite (find_free_tx_slot_lowest _ _ Hlow) in Hf. injection Hf as <- <-.
  unfold slot_reserved.
  unfold slot_holds_frame.
  destruct (TX_MAP_BUSY <=? _); proj; rewrite set_slot_bits by lia;
    rewrite (Hinv j) by (unfold MCP2515_TX_CNT; lia); unfold slot_holds_frame;
    (destruct (Z.eqb_spec i' j) as [->|Hne];
     [rewrite list_lookup_insert_eq by lia; apply orb_true_r
     |rewrite list_lookup_insert_ne by lia; apply orb_false_r]).
Qed.

Lemma booked_frames e w :
  inv w -> frames_inv w -> frames_inv (booked e w).
Proof.
  intros [Hsched Hslots] H. pose proof Hslots as (Hlen & Hmap & _).
  destruct e as [k|k|s k|rx k]; cbn [booked]; auto.
  - destruct (can_dropped_invalid_skb s); [exact H|].
    pose proof (find_free_tx_slot_range _ Hmap) as Hfree.
    destruct (find_free_tx_slot _ 0 _) as [i m] eqn:Hf.
    destruct Hfree as [(-> & -> & H7) | (Hi & Hm)].
    + (* no free slot: the step faults, the entry is never made *)
      intros j Hj. unfold MCP2515_TX_CNT in Hj. unfold slot_reserved.
      change (TX_MAP_BUSY <=? 7) with true. proj.
      unfold slot_holds_frame. proj.
      rewrite list_insert_ge by (rewrite Hlen; change (Z.to_nat 3) with 3%nat; lia).
      rewrite <- H7. apply (H j). unfold MCP2515_TX_CNT. lia.
    + apply slot_reserved_frames; auto.
  - destruct (message_complete (priv w)) as [cb|]; [|exact H].
    assert (Hc : frames_inv (completed rx w)) by exact H.
    destruct cb; cbn [accounted]; try exact Hc.
    + apply tx_accounted_frames; auto.
    + unfold overrun_counted. destruct (_ || _); exact Hc.
Qed.

(** In every state of a session a slot's busy bit is set exactly when the
    slot holds a frame. *)
Lemma step_frames e w w' :
  inv w -> frames_inv w -> step e w = Some w' -> frames_inv w'.
Proof.
  intros Hinv H Hstep.
  eapply frames_inv_ledger; [apply (step_ledger e w w' Hinv Hstep)|].
  apply booked_frames; auto.
Qed.

Lemma busy_slots_clear m i :
  0 <= m <= 7 -> 0 <= i < 3 ->
  Z.of_nat (busy_slots (clear_slot m i)) =
  Z.of_nat (busy_slots m) - (if Z.testbit m i then 1 else 0).
Proof.
  intros Hm Hi. apply slot_map_enum in Hm. simpl in Hm.
  assert (i = 0 \/ i = 1 \/ i = 2) as [-> | [-> | ->]] by lia;
    repeat (destruct Hm as [<-|Hm]; [vm_compute; reflexivity|]);
    contradiction.
Qed.

Lemma busy_slots_reserve m i m' :
  0 <= m <= 7 ->
  find_free_tx_slot (Z.to_nat MCP2515_TX_CNT) 0 m = (i, m') -> 0 <= i < 3 ->
  busy_slots m' = S (busy_slots m).
Proof.
  intros Hm Hf Hi. apply slot_map_enum in Hm. simpl in Hm.
  repeat (destruct Hm as [<-|Hm];
          [vm_compute in Hf; injection Hf as <- <-; first [reflexivity | lia]|]).
  contradiction.
Qed.

Lemma ulong_succ a : ulong (ulong a + 1) = ulong (a + 1).
Proof. unfold ulong. apply Z.add_mod_idemp_l. discriminate. Qed.

Lemma tx_done_world_balance n i w :
  length (skb (priv w)) = 3%nat -> 0 <= i < 3 ->
  0 <= tx_busy_map (priv w) <= 7 ->
  frames_inv w -> tx_balance n w -> tx_balance n (tx_done_world i w).
Proof.
  intros Hlen Hi Hm Hfr Hbal. unfold tx_balance, tx_done_world in *. proj.
  rewrite busy_slots_clear by auto.
  rewrite (Hfr i) by (unfold MCP2515_TX_CNT; lia). unfold slot_holds_frame.
  destruct (skb (priv w) !! Z.to_nat i) as [[s|]|]; proj.
  - rewrite Hbal, ulong_succ. f_equal. lia.
  - rewrite Hbal. f_equal. lia.
  - rewrite Hbal. f_equal. lia.
Qed.

Lemma tx_done_world_map i w :
  0 <= i < 3 -> 0 <= tx_busy_map (priv w) <= 7 ->
  0 <= tx_busy_map (priv (tx_done_world i w)) <= 7.
Proof.
  intros Hi Hm. unfold tx_done_world. proj.
  pose proof (clear_slot_range _ i Hm Hi). lia.
Qed.

Lemma tx_accounted_balance n w :
  length (skb (priv w)) = 3%nat -> 0 <= tx_busy_map (priv w) <= 7 ->
  frames_inv w -> tx_balance n w -> tx_balance n (tx_accounted w).
Proof.
  intros Hlen Hm Hfr Hbal. unfold tx_accounted.
  repeat match goal with |- context [if ?c then _ else _] => destruct c end;
    repeat (apply tx_done_world_balance;
            [rewrite ?tx_done_world_skb_length; exact Hlen | lia
            |repeat apply tx_done_world_map; first [lia | exact Hm]
            |repeat (apply tx_done_world_frames;
                     [rewrite ?tx_done_world_skb_length; exact Hlen | lia |]);
             exact Hfr
            |]);
    exact Hbal.
Qed.

Lemma tx_balance_ledger n w w' : ledger w' = ledger w -> tx_balance n w -> tx_balance n w'.
Proof.
  unfold ledger, tx_balance. intros [= _ Hm _ _ _ _ Ht _ _] H.
  rewrite Ht, Hm. exact H.
Qed.

Lemma step_balance e w w' n :
  inv w -> frames_inv w -> tx_balance n w -> step e w = Some w' ->
  tx_balance (n + Z.of_nat (accepted [e])) w'.
Proof.
  intros Hinv Hfr Hbal Hstep. pose proof Hinv as [Hsched Hslots].
  pose proof Hslots as (Hlen & Hmap & _).
  eapply tx_balance_ledger; [apply (step_ledger e w w' Hinv Hstep)|].
  destruct e as [k|k|s k|rx k]; cbn [booked accepted].
  - rewrite Z.add_0_r. exact Hbal.
  - rewrite Z.add_0_r. exact Hbal.
  - unfold step in Hstep. cbn [enabled] in Hstep. rewrite fire_xmit_eq in Hstep.
    destruct (mcp2515_start_xmit s k w) as [r w1|] eqn:Hrun; [|discriminate].
    destruct (start_xmit_shape s k w r w1 Hinv Hrun)
      as [[Hv _] | (i & m & Hv & Hf & Hi & Hm & _)]; rewrite Hv.
    + rewrite Z.add_0_r. exact Hbal.
    + rewrite Hf. unfold tx_balance, slot_reserved in *.
      assert (Hb := busy_slots_reserve _ i m Hmap Hf Hi).
      destruct (TX_MAP_BUSY <=? m); proj; rewrite Hbal, Hb; f_equal; lia.
  - rewrite Z.add_0_r.
    destruct (message_complete (priv w)) as [cb|]; [|exact Hbal].
    assert (Hc : tx_balance n (completed rx w)) by exact Hbal.
    destruct cb; cbn [accounted];
      first [ exact Hc
            | unfold rx_taken; destruct (alloc_can_skb k); exact Hc
            | unfold overrun_counted; destruct (_ || _); exact Hc
            | apply tx_accounted_balance; auto ].
Qed.

Lemma run_balance evs w w' n :
  inv w -> frames_inv w -> tx_balance n w -> run evs w = Some w' ->
  frames_inv w' /\ tx_balance (n + Z.of_nat (accepted evs)) w'.
Proof.
  revert w n. induction evs as [|e evs IH]; intros w n Hinv Hfr Hbal Hrun;
    cbn [run] in Hrun.
  - injection Hrun as <-. cbn [accepted]. rewrite Z.add_0_r. auto.
  - destruct (step e w) as [w1|] eqn:Hstep; [|discriminate].
    pose proof (step_inv e w w1 Hinv Hstep) as Hinv1.
    pose proof (step_frames e w w1 Hinv Hfr Hstep) as Hfr1.
    pose proof (step_balance e w w1 n Hinv Hfr Hbal Hstep) as Hbal1.
    destruct (IH w1 _ Hinv1 Hfr1 Hbal1 Hrun) as [H1 H2].
    split; [exact H1|].
    replace (n + Z.of_nat (accepted (e :: evs)))
      with (n + Z.of_nat (accepted [e]) + Z.of_nat (accepted evs)); [exact H2|].
    destruct e; cbn [accepted]; lia.
Qed.

(** X4: in runs whose handlers execute one after another, none
    overlapping another, after every run of events from the initial state
    that ends without a fault the busy map marks exactly the slots of the
    transmit ring that hold a frame, at most three, and [tx_packets] is the
    number of valid frames [mcp2515_start_xmit] took into a slot less the
    frames still in a slot, modulo the width of the counter. (The source
    does not make the handlers exclude one another:
    [mcp2515_clear_canintf_complete] updates the ring without the lock, and
    an execution in which it overlaps [mcp2515_start_xmit] is not covered.) *)
Theorem tx_slots_conserved (evs : list event) (w : world) :
  run evs world0 = Some w ->
  (forall i, 0 <= i < MCP2515_TX_CNT ->
     Z.testbit (tx_busy_map (priv w)) i = slot_holds_frame w i) /\
  tx_packets (dev w) =
    ulong (Z.of_nat (accepted evs) - Z.of_nat (busy_slots (tx_busy_map (priv w)))) /\
  (busy_slots (tx_busy_map (priv w)) <= 3)%nat.
Proof.
  intros Hrun.
  assert (Hfr0 : frames_inv world0).
  { intros i Hi. unfold MCP2515_TX_CNT in Hi.
    assert (i = 0 \/ i = 1 \/ i = 2) as [-> | [-> | ->]] by lia; reflexivity. }
  assert (Hb0 : tx_balance 0 world0) by reflexivity.
  destruct (run_balance evs world0 w 0 inv_world0 Hfr0 Hb0 Hrun) as [H1 H2].
  split; [exact H1|]. split; [exact H2 | apply busy_slots_le].
Qed.

Lemma tx_slots_conserved_witness :
  let k := Env 0 None in
  let f := SkBuff (CanFrame 0x123 2 [1; 2; 3; 4; 5; 6; 7; 8]) in
  exists w,
    run [EvXmit f k; EvXmit f k] world0 = Some w /\
    tx_packets (dev w) = 0 /\ slot_holds_frame w 1 = true.
Proof.
  intros k f. eexists. split; [vm_compute; reflexivity|].
  match goal with |- tx_packets (dev ?w) = _ /\ _ =>
    destruct (tx_slots_conserved [EvXmit f k; EvXmit f k] w eq_refl)
      as (Hs & Hp & _)
  end.
  split; [exact Hp|].
  rewrite <- Hs by (unfold MCP2515_TX_CNT; lia). reflexivity.
Defined.

Lemma ulong_add_l a b : ulong (ulong a + b) = ulong (a + b).
Proof. unfold ulong. apply Z.add_mod_idemp_l. discriminate. Qed.

Lemma rx_taken_books k w : rx_books w -> rx_books (rx_taken k w).
Proof.
  intros (Hp & Hb & Hd). unfold rx_books, rx_taken.
  destruct (alloc_can_skb k) as [frame|]; proj; [|auto].
  split; [|split].
  - rewrite Hp, ulong_add_l. f_equal. cbn [length]. lia.
  - rewrite Hb, ulong_add_l. f_equal. unfold frames_bytes. cbn [fold_right]. lia.
  - constructor; [|exact Hd].
    rewrite decode_rxb_dlc. pose proof (low4_range (rd (rx_buf (priv w)) 5)).
    unfold CAN_MAX_DLC. lia.
Qed.

Lemma rx_books_ledger w w' : ledger w' = ledger w -> rx_books w -> rx_books w'.
Proof.
  unfold ledger, rx_books. intros [= _ _ Hp Hb _ _ _ _ Hd] H.
  rewrite Hp, Hb, Hd. exact H.
Qed.

Lemma tx_done_world_rx i w :
  rx_books w -> rx_books (tx_done_world i w).
Proof.
  unfold rx_books, tx_done_world. proj.
  destruct (skb (priv w) !! Z.to_nat i) as [[s|]|]; auto.
Qed.

Lemma booked_rx e w : rx_books w -> rx_books (booked e w).
Proof.
  intros H. destruct e as [k|k|s k|rx k]; cbn [booked]; auto.
  - destruct (can_dropped_invalid_skb s); [exact H|].
    destruct (find_free_tx_slot _ 0 _) as [i m]. unfold slot_reserved.
    destruct (TX_MAP_BUSY <=? m); exact H.
  - destruct (message_complete (priv w)) as [cb|]; [|exact H].
    assert (Hc : rx_books (completed rx w)) by exact H.
    destruct cb; cbn [accounted];
      first [ exact Hc
            | apply rx_taken_books; exact Hc
            | unfold overrun_counted; destruct (_ || _); exact Hc
            | idtac ].
    unfold tx_accounted.
    repeat match goal with |- context [if ?c then _ else _] => destruct c end;
      repeat apply tx_done_world_rx; exact Hc.
Qed.

Lemma step_rx e w w' : inv w -> rx_books w -> step e w = Some w' -> rx_books w'.
Proof.
  intros Hinv H Hstep.
  eapply rx_books_ledger; [apply (step_ledger e w w' Hinv Hstep)|].
  apply booked_rx; auto.
Qed.

Lemma run_rx evs w w' : inv w -> rx_books w -> run evs w = Some w' -> rx_books w'.
Proof.
  revert w. induction evs as [|e evs IH]; intros w Hinv H Hrun; cbn [run] in Hrun.
  - injection Hrun as <-. exact H.
  - destruct (step e w) as [w1|] eqn:Hstep; [|discriminate].
    eapply IH; [| |exact Hrun]; eauto using step_inv, step_rx.
Qed.

(** X5: after every run of events from the initial state that ends without
    a fault, [rx_packets] is the number of frames handed to the stack and
    [rx_bytes] the sum of their lengths, both modulo the width of the
    counter, and every frame handed over has a length from 0 to 8. *)
Theorem rx_statistics_agree (evs : list event) (w : world) :
  run evs world0 = Some w ->
  rx_packets (dev w) = ulong (Z.of_nat (length (rx_delivered (dev w)))) /\
  rx_bytes (dev w) = ulong (frames_bytes (rx_delivered (dev w))) /\
  Forall (fun f => 0 <= can_dlc f <= CAN_MAX_DLC) (rx_delivered (dev w)).
Proof.
  intros Hrun. apply (run_rx evs world0 w inv_world0); [|exact Hrun].
  repeat split. constructor.
Qed.

Lemma rx_statistics_agree_witness :
  let k := Env 0 (Some (CanFrame 0 0 (replicate 8 0))) in
  let evs := [EvIrq k;
              EvSpiDone [0; 0; 1; 0; 0; 0; 0; 0; 0; 0; 0; 0; 0; 0] k;
              EvSpiDone [0; 0x24; 0x60; 0; 0; 2; 7; 7; 0; 0; 0; 0; 0; 0] k] in
  exists w, run evs world0 = Some w /\
            rx_packets (dev w) = 1 /\ rx_bytes (dev w) = 2.
Proof.
  intros k evs. eexists. split; [vm_compute; reflexivity|].
  match goal with |- rx_packets (dev ?w) = _ /\ _ =>
    destruct (rx_statistics_agree evs w eq_refl) as (Hp & Hb & _)
  end.
  split; [exact Hp | exact Hb].
Defined.

(** * The scheduler at rest *)

(** A step makes no call, or ends with the one call of a handler that owns
    the transaction. *)
Lemma step_call_cases e w w' :
  inv w -> step e w = Some w' ->
  spi_log (dev w') = spi_log (dev w) \/
  exists k cb tx len W,
    w' = submit k cb tx len W /\ busy (priv W) = true /\
    spi_inflight (dev W) = 0%nat /\ spi_log (dev W) = spi_log (dev w).
Proof.
  intros Hinv Hstep. pose proof Hinv as [Hsched Hslots].
  assert (Hwake : forall k W0, wake_shape k w W0 w' ->
            spi_log (dev w') = spi_log (dev w) \/
            exists k cb tx len W,
              w' = submit k cb tx len W /\ busy (priv W) = true /\
              spi_inflight (dev W) = 0%nat /\ spi_log (dev W) = spi_log (dev w)).
  { intros k W0 [(_ & _ & Hcore & _) | (W & cb & tx & len & -> & Hidle & _ & _ & Hcore & _)].
    - left. unfold sched_core in Hcore. injection Hcore as _ _ _ Hl. exact Hl.
    - right. exists k, cb, tx, len, W. split; [reflexivity|].
      unfold sched_core in Hcore. injection Hcore as Hb Hi _ Hl.
      destruct Hsched as (_ & _ & Hle & Hone & _).
      assert (spi_inflight (dev w) = 0%nat).
      { destruct (spi_inflight (dev w)) as [|[|n]]; [reflexivity| |lia].
        destruct (Hone eq_refl) as [Hb' _]. congruence. }
      split; [exact Hb|]. split; [congruence | exact Hl]. }
  destruct e as [k|k|s k|rx k].
  - unfold step in Hstep. cbn [enabled fire] in Hstep.
    destruct (mcp2515_softirq_handler k w) as [[] w1|] eqn:Hrun; [|discriminate].
    injection Hstep as <-. eauto using softirq_shape.
  - unfold step in Hstep. destruct (enabled (EvTimer k) w); [|discriminate].
    rewrite fire_timer_eq in Hstep.
    destruct (read_flags_timer_cb k _) as [[] w1|] eqn:Hrun; [|discriminate].
    injection Hstep as <-.
    assert (Hsched' : sched_inv (with_priv (set_timer None) w)) by exact Hsched.
    pose proof (timer_cb_shape k _ w1 Hsched' Hrun) as Hshape.
    apply (Hwake k (with_priv (set_timer None) w)).
    destruct Hshape as [H|H]; [left|right]; exact H.
  - unfold step in Hstep. cbn [enabled] in Hstep. rewrite fire_xmit_eq in Hstep.
    destruct (mcp2515_start_xmit s k w) as [r w1|] eqn:Hrun; [|discriminate].
    injection Hstep as <-.
    destruct (start_xmit_shape s k w r w1 Hinv Hrun)
      as [[_ ->] | (i & m & _ & _ & _ & _ & Hshape)]; [left; reflexivity|].
    eauto.
  - destruct (step_done_shape rx k w w' Hinv Hstep) as (cb & Hcb & Hown & Hshape).
    destruct Hown as (_ & _ & Hcore & _).
    destruct Hshape as [(W & cb' & tx & len & -> & _ & _ & HcoreW & _)
                       |(_ & _ & HcoreW & _)].
    + right. exists k, cb', tx, len, W. split; [reflexivity|].
      rewrite Hcore in HcoreW. unfold sched_core in HcoreW.
      injection HcoreW as Hb Hi _ Hl. auto.
    + left. unfold sched_core in HcoreW. injection HcoreW as _ _ _ Hl. exact Hl.
Qed.

Lemma list_cons_neq {A} (x : A) l : l <> x :: l.
Proof.
  intros H. apply (f_equal length) in H. cbn [length] in H. lia.
Qed.

(** A call the transport rejects leaves the scheduler stalled. *)
Lemma rejected_call_stalls e w w' c :
  inv w -> step e w = Some w' ->
  spi_log (dev w') = c :: spi_log (dev w) -> call_accepted c = false ->
  stalled w'.
Proof.
  intros Hinv Hstep Hlog Hrej.
  destruct (step_call_cases e w w' Hinv Hstep)
    as [Hsame | (k & cb & tx & len & W & -> & Hb & Hi & Hl)].
  - rewrite Hsame in Hlog. destruct (list_cons_neq c _ Hlog).
  - unfold submit in *. cbn [dev priv] in Hlog.
    destruct (spi_async_ret k =? 0) eqn:Hacc; cbn in Hlog;
      rewrite Hl in Hlog; injection Hlog as <- ; cbn [call_accepted] in Hrej.
    + discriminate.
    + split; proj; assumption.
Qed.

Lemma step_stalled e w w' :
  inv w -> stalled w -> step e w = Some w' ->
  stalled w' /\ spi_log (dev w') = spi_log (dev w).
Proof.
  intros Hinv [Hb Hi] Hstep. pose proof Hinv as [Hsched Hslots].
  pose proof Hslots as (Hlen & Hmap & _).
  destruct e as [k|k|s k|rx k].
  - unfold step in Hstep. cbn [enabled fire] in Hstep.
    rewrite softirq_busy in Hstep by auto. injection Hstep as <-.
    repeat split; assumption.
  - unfold step in Hstep. destruct (enabled (EvTimer k) w); [|discriminate].
    rewrite fire_timer_eq, timer_cb_busy in Hstep by auto. injection Hstep as <-.
    repeat split; assumption.
  - unfold step in Hstep. cbn [enabled] in Hstep. rewrite fire_xmit_eq in Hstep.
    destruct (mcp2515_start_xmit s k w) as [r w1|] eqn:Hrun; [|discriminate].
    injection Hstep as <-.
    destruct (start_xmit_shape s k w r w1 Hinv Hrun)
      as [[_ ->] | (i & m & Hv & Hf & Hi' & Hm & _)]; [repeat split; assumption|].
    rewrite (start_xmit_busy s k w i m) in Hrun by (auto; rewrite Hlen; lia).
    injection Hrun as _ <-. unfold stalled, slot_reserved.
    destruct (TX_MAP_BUSY <=? m); proj; repeat split; assumption.
  - unfold step, enabled in Hstep.
    case_bool_decide as Hpos; [lia | discriminate].
Qed.

(** X6: when [spi_async] rejects a message the driver does nothing about
    it: after the step [busy] is set and no message is queued. From such a
    state no interrupt, timer expiry or transmit request changes that or
    makes another call to [spi_async]: the scheduler stays stalled. *)
Theorem rejected_submission_is_final :
  (forall e w w' c, reachable w -> step e w = Some w' ->
     spi_log (dev w') = c :: spi_log (dev w) -> call_accepted c = false ->
     stalled w') /\
  (forall evs w w', reachable w -> stalled w -> run evs w = Some w' ->
     stalled w' /\ spi_log (dev w') = spi_log (dev w)).
Proof.
  split.
  - intros e w w' c Hreach. apply rejected_call_stalls, reachable_inv, Hreach.
  - intros evs. induction evs as [|e evs IH]; intros w w' Hreach Hst Hrun;
      cbn [run] in Hrun.
    + injection Hrun as <-. auto.
    + destruct (step e w) as [w1|] eqn:Hstep; [|discriminate].
      destruct (step_stalled e w w1 (reachable_inv w Hreach) Hst Hstep) as [Hst1 Hl1].
      assert (Hreach1 : reachable w1).
      { destruct Hreach as [evs0 H0]. exists (evs0 ++ [e]).
        rewrite run_app, H0. cbn [run]. rewrite Hstep. reflexivity. }
      destruct (IH w1 w' Hreach1 Hst1 Hrun) as [H1 H2].
      split; [exact H1 | congruence].
Qed.

Lemma rejected_submission_is_final_witness :
  let k := Env (-5) None in
  exists w, step (EvIrq k) world0 = Some w /\ stalled w /\
            forall evs w', run evs w = Some w' ->
              spi_log (dev w') = spi_log (dev w).
Proof.
  intros k. eexists. split; [vm_compute; reflexivity|].
  destruct rejected_submission_is_final as [H1 H2].
  match goal with |- stalled ?w /\ _ =>
    assert (Hst : stalled w);
      [apply (H1 (EvIrq k) world0 w
                (SpiCall [0x03; 0x2c; 0; 0] (Some Cb_read_flags) false true));
         [exists []; reflexivity | reflexivity | reflexivity | reflexivity]|];
    assert (Hreach : reachable w) by (exists [EvIrq k]; vm_compute; reflexivity)
  end.
  split; [exact Hst|].
  intros evs w' Hrun. exact (proj2 (H2 evs _ w' Hreach Hst Hrun)).
Defined.

(** The idle scheduler has its fallback timer armed, once it has issued
    anything at all. *)
Lemma step_idle_timer e w w' :
  inv w ->
  (busy (priv w) = false ->
   spi_log (dev w) = [] \/ timer (priv w) = Some READ_FLAGS_TIMER_VAL_MS) ->
  step e w = Some w' ->
  busy (priv w') = false ->
  spi_log (dev w') = [] \/ timer (priv w') = Some READ_FLAGS_TIMER_VAL_MS.
Proof.
  intros Hinv HP Hstep Hidle. pose proof Hinv as [Hsched Hslots].
  pose proof Hsched as (Hl & Ht & _). pose proof Hslots as (Hlen & Hmap & _).
  destruct e as [k|k|s k|rx k].
  - unfold step in Hstep. cbn [enabled fire] in Hstep.
    destruct (busy (priv w)) eqn:Hb;
      [rewrite softirq_busy in Hstep by auto | rewrite softirq_idle in Hstep by auto];
      injection Hstep as <-; cbn in Hidle; congruence.
  - unfold step in Hstep. destruct (enabled (EvTimer k) w); [|discriminate].
    rewrite fire_timer_eq in Hstep.
    destruct (busy (priv w)) eqn:Hb;
      [rewrite timer_cb_busy in Hstep by auto | rewrite timer_cb_idle in Hstep by auto];
      injection Hstep as <-; cbn in Hidle; congruence.
  - unfold step in Hstep. cbn [enabled] in Hstep. rewrite fire_xmit_eq in Hstep.
    destruct (mcp2515_start_xmit s k w) as [r w1|] eqn:Hrun; [|discriminate].
    injection Hstep as <-.
    destruct (start_xmit_shape s k w r w1 Hinv Hrun)
      as [[_ ->] | (i & m & Hv & Hf & Hi & Hm & _)]; [auto|].
    destruct (busy (priv w)) eqn:Hb.
    + rewrite (start_xmit_busy s k w i m) in Hrun by (auto; rewrite Hlen; lia).
      injection Hrun as _ <-. unfold slot_reserved in Hidle.
      destruct (TX_MAP_BUSY <=? m); cbn in Hidle; congruence.
    + rewrite (start_xmit_idle s k w i m) in Hrun by (auto; rewrite Hlen; lia).
      injection Hrun as _ <-. cbn in Hidle. discriminate.
  - destruct (step_done rx k w w' Hinv Hstep) as [_ [(c & _ & _ & Hb) | (_ & _ & _ & Htimer)]].
    + congruence.
    + right. exact Htimer.
Qed.

(** X7: whenever the scheduler is idle ([busy] clear) after a run from the
    initial state, no message is in flight, and, unless the driver has never
    called [spi_async] at all, the fallback timer is armed with
    [READ_FLAGS_TIMER_VAL_MS]. *)
Theorem idle_scheduler_has_timer (evs : list event) (w : world) :
  run evs world0 = Some w ->
  busy (priv w) = false ->
  spi_inflight (dev w) = 0%nat /\
  (spi_log (dev w) = [] \/ timer (priv w) = Some READ_FLAGS_TIMER_VAL_MS).
Proof.
  intros Hrun Hidle.
  assert (Hinv : inv w) by (apply reachable_inv; exists evs; exact Hrun).
  split.
  { destruct Hinv as [(_ & _ & Hle & Hone & _) _].
    destruct (spi_inflight (dev w)) as [|[|n]]; [reflexivity| |lia].
    destruct (Hone eq_refl) as [Hb _]. congruence. }
  clear Hinv. revert Hidle.
  assert (Hgen : forall w0, inv w0 ->
            (busy (priv w0) = false ->
             spi_log (dev w0) = [] \/ timer (priv w0) = Some READ_FLAGS_TIMER_VAL_MS) ->
            run evs w0 = Some w ->
            busy (priv w) = false ->
            spi_log (dev w) = [] \/ timer (priv w) = Some READ_FLAGS_TIMER_VAL_MS).
  { clear Hrun. induction evs as [|e evs IH]; intros w0 Hinv HP Hrun; cbn [run] in Hrun.
    - injection Hrun as <-. exact HP.
    - destruct (step e w0) as [w1|] eqn:Hstep; [|discriminate].
      apply (IH w1); [eapply step_inv; eauto | | exact Hrun].
      apply (step_idle_timer e w0 w1 Hinv HP Hstep). }
  apply (Hgen world0 inv_world0); [left; reflexivity | exact Hrun].
Qed.

Lemma idle_scheduler_has_timer_witness :
  let k := Env 0 None in
  let evs := [EvIrq k; EvSpiDone (replicate 14 0) k] in
  exists w, run evs world0 = Some w /\
            spi_inflight (dev w) = 0%nat /\
            timer (priv w) = Some READ_FLAGS_TIMER_VAL_MS.
Proof.
  intros k evs. eexists. split; [vm_compute; reflexivity|].
  match goal with |- spi_inflight (dev ?w) = _ /\ _ =>
    destruct (idle_scheduler_has_timer evs w eq_refl eq_refl) as (Hi & [Hl | Ht])
  end.
  - discriminate Hl.
  - split; [exact Hi | exact Ht].
Defined.

(** * The messages of the transmit and flag exchanges *)

Lemma last_call_submit k cb tx len W :
  last_call (submit k cb tx len W) =
  Some (SpiCall (take (Z.to_nat len) tx) (Some cb) (spi_async_ret k =? 0) (busy (priv W))).
Proof.
  unfold last_call, submit. proj. destruct (spi_async_ret k =? 0); reflexivity.
Qed.

Lemma spi_log_submit k cb tx len W :
  spi_log (dev (submit k cb tx len W)) =
  SpiCall (take (Z.to_nat len) tx) (Some cb) (spi_async_ret k =? 0) (busy (priv W))
    :: spi_log (dev W).
Proof.
  unfold submit. proj. destruct (spi_async_ret k =? 0); reflexivity.
Qed.

Lemma dev_submit k cb tx len W :
  rx_delivered (dev (submit k cb tx len W)) = rx_delivered (dev W) /\
  rx_dropped (dev (submit k cb tx len W)) = rx_dropped (dev W).
Proof. unfold submit. destruct (spi_async_ret k =? 0); split; reflexivity. Qed.

Lemma dev_completed rx W :
  rx_delivered (dev (completed rx W)) = rx_delivered (dev W) /\
  rx_dropped (dev (completed rx W)) = rx_dropped (dev W) /\
  spi_log (dev (completed rx W)) = spi_log (dev W) /\
  rx_buf (priv (completed rx W)) = rx.
Proof. repeat split. Qed.

Lemma dev_with_priv f W : dev (with_priv f W) = dev W.
Proof. reflexivity. Qed.

Lemma rx_taken_frame k f W :
  alloc_can_skb k = Some f ->
  rx_delivered (dev (rx_taken k W)) =
    mcp2515_decode_rxb f (rx_buf (priv W)) :: rx_delivered (dev W) /\
  rx_dropped (dev (rx_taken k W)) = rx_dropped (dev W) /\
  spi_log (dev (rx_taken k W)) = spi_log (dev W).
Proof. intros H. unfold rx_taken. rewrite H. repeat split. Qed.

(** X8: [mcp2515_clear_canintf] makes one bit-modify call on CANINTF with
    data 0 and a mask that is the flag snapshot without the two receive
    flags: RX0IF and RX1IF are never cleared by it, every other flag of the
    snapshot is. The snapshot, the ring and the statistics stay as they
    were. *)
Theorem clear_canintf_mask (k : env) (w : world) :
  length (tx_buf (priv w)) = 14%nat ->
  exists w' m,
    mcp2515_clear_canintf k w = Ok tt w' /\
    spi_log (dev w') =
      SpiCall [MCP2515_INSTRUCTION_BIT_MODIFY; CANINTF; m; 0] (Some Cb_clear_canintf)
              (spi_async_ret k =? 0) (busy (priv w)) :: spi_log (dev w) /\
    is_byte m /\
    Z.testbit m 0 = false /\ Z.testbit m 1 = false /\
    (forall j, 2 <= j < 8 -> Z.testbit m j = Z.testbit (canintf (priv w)) j) /\
    canintf (priv w') = canintf (priv w) /\ ledger w' = ledger w.
Proof.
  intros Hlen. rewrite mcp2515_clear_canintf_eq by exact Hlen.
  eexists. exists (u8 (Z.land (canintf (priv w)) (Z.lnot (Z.lor CANINTF_RX0IF CANINTF_RX1IF)))).
  split; [reflexivity|]. split.
  { rewrite spi_log_submit. unfold clear_canintf_bytes. reflexivity. }
  split; [apply u8_range|].
  change (Z.lor CANINTF_RX0IF CANINTF_RX1IF) with 3. unfold u8.
  split; [|split; [|split; [|split]]].
  - rewrite !Z.land_spec, Z.lnot_spec by lia. cbn. now rewrite andb_false_r.
  - rewrite !Z.land_spec, Z.lnot_spec by lia. cbn. now rewrite andb_false_r.
  - intros j Hj. rewrite !Z.land_spec, Z.lnot_spec by lia.
    change 255 with (Z.ones 8). rewrite Z.ones_spec_low by lia.
    rewrite (testbit_high 3 2 j) by lia. cbn. now rewrite !andb_true_r.
  - reflexivity.
  - apply ledger_submit.
Qed.

Lemma clear_canintf_mask_witness :
  let k := Env 0 None in
  let w := with_priv (set_canintf 0x1f) world0 in
  exists w' m,
    mcp2515_clear_canintf k w = Ok tt w' /\
    spi_log (dev w') =
      [SpiCall [0x05; 0x2c; m; 0] (Some Cb_clear_canintf) true false] /\
    Z.testbit m 0 = false /\ Z.testbit m 1 = false /\ Z.testbit m 2 = true.
Proof.
  intros k w.
  destruct (clear_canintf_mask k w eq_refl)
    as (w' & m & H & Hlog & _ & H0 & H1 & Hj & _).
  exists w', m. split; [exact H|]. split; [exact Hlog|].
  split; [exact H0|]. split; [exact H1|]. apply (Hj 2). lia.
Defined.

Lemma instruction_load_txb abc :
  0 <= abc < 3 -> u8 (MCP2515_INSTRUCTION_LOAD_TXB abc) = 0x40 + 2 * abc.
Proof.
  intros H. assert (abc = 0 \/ abc = 1 \/ abc = 2) as [-> | [-> | ->]] by lia; reflexivity.
Qed.

Lemma instruction_rts abc :
  0 <= abc < 3 -> u8 (MCP2515_INSTRUCTION_RTS abc) = 0x80 + 2 ^ abc.
Proof.
  intros H. assert (abc = 0 \/ abc = 1 \/ abc = 2) as [-> | [-> | ->]] by lia; reflexivity.
Qed.

(** X9: loading a frame into transmit buffer [abc] sends the load
    instruction 0x40 + 2 * abc followed by the 5 + dlc bytes of the encoded
    frame, and the completion of that message sends the one-byte
    request-to-send 0x80 + 2 ^ abc for the same buffer, which
    [loaded_txb] remembers. *)
Theorem load_then_request_to_send (k k' : env) (s : sk_buff) (abc : Z)
    (rx : list Z) (w : world) :
  length (tx_buf (priv w)) = 14%nat ->
  0 <= abc < MCP2515_TX_CNT ->
  0 <= can_dlc (skb_data s) <= CAN_MAX_DLC ->
  exists w1 w2 body,
    mcp2515_load_txb (Some s) k abc w = Ok tt w1 /\
    mcp2515_load_txb_complete k' (completed rx w1) = Ok tt w2 /\
    fst (mcp2515_set_txbuf (drop 1 (tx_buf (priv w))) s) = body /\
    spi_log (dev w2) =
      SpiCall [0x80 + 2 ^ abc] (Some Cb_rts_txb) (spi_async_ret k' =? 0) (busy (priv w))
      :: SpiCall ((0x40 + 2 * abc) :: take (Z.to_nat (5 + can_dlc (skb_data s))) body)
           (Some Cb_load_txb) (spi_async_ret k =? 0) (busy (priv w))
      :: spi_log (dev w) /\
    loaded_txb (priv w2) = abc.
Proof.
  intros Hlen Habc Hdlc. unfold MCP2515_TX_CNT, CAN_MAX_DLC in *.
  rewrite mcp2515_load_txb_eq by exact Hlen.
  eexists. eexists. eexists. split; [reflexivity|].
  rewrite load_txb_complete_eq by (apply load_txb_bytes_length; exact Hlen).
  split; [reflexivity|]. split; [reflexivity|].
  rewrite spi_log_submit. cbn [completed dev priv spi_log].
  unfold set_spi_inflight. cbn [spi_log].
  rewrite spi_log_submit. proj.
  rewrite (u8_id abc) by lia.
  unfold rts_txb_bytes, load_txb_bytes.
  rewrite instruction_rts, instruction_load_txb by lia.
  change (Z.to_nat 1) with 1%nat. cbn [take].
  replace (Z.to_nat (5 + can_dlc (skb_data s) + 1))
    with (S (Z.to_nat (5 + can_dlc (skb_data s)))) by lia.
  cbn [take]. split; reflexivity.
Qed.

Lemma load_then_request_to_send_witness :
  let k := Env 0 None in
  let s := SkBuff (CanFrame 0x123 2 [1; 2; 3; 4; 5; 6; 7; 8]) in
  exists w1 w2,
    mcp2515_load_txb (Some s) k 1 world0 = Ok tt w1 /\
    mcp2515_load_txb_complete k (completed (replicate 14 0) w1) = Ok tt w2 /\
    map call_tx (spi_log (dev w2)) = [[0x82]; [0x42; 0x24; 0x60; 0; 0; 2; 1; 2]] /\
    loaded_txb (priv w2) = 1.
Proof.
  intros k s.
  destruct (load_then_request_to_send k k s 1 (replicate 14 0) world0)
    as (w1 & w2 & body & H1 & H2 & Hbody & Hlog & Hl).
  - reflexivity.
  - unfold MCP2515_TX_CNT. lia.
  - unfold CAN_MAX_DLC. cbn. lia.
  - exists w1, w2. split; [exact H1|]. split; [exact H2|].
    split; [|exact Hl]. rewrite Hlog, <- Hbody. reflexivity.
Defined.

(** X10: when the flags read reports both receive buffers full and no
    transmission is pending, the driver reads RXB0 (instruction 0x90), then
    RXB1 (0x94), hands the two decoded frames to the stack in that order,
    and then reads the flags again; no frame is dropped. *)
Theorem both_receive_buffers_in_order (k0 k1 k2 : env) (flags rx0 rx1 : list Z)
    (f0 f1 : can_frame) (w : world) :
  reachable w ->
  message_complete (priv w) = Some Cb_read_flags ->
  spi_inflight (dev w) = 1%nat ->
  tx_pending_map (priv w) = 0 ->
  Z.testbit (rd flags 2) 0 = true -> Z.testbit (rd flags 2) 1 = true ->
  spi_async_ret k0 = 0 -> spi_async_ret k1 = 0 ->
  alloc_can_skb k1 = Some f0 -> alloc_can_skb k2 = Some f1 ->
  exists w3,
    run [EvSpiDone flags k0; EvSpiDone rx0 k1; EvSpiDone rx1 k2] w = Some w3 /\
    rx_delivered (dev w3) =
      mcp2515_decode_rxb f1 rx1 :: mcp2515_decode_rxb f0 rx0 :: rx_delivered (dev w) /\
    map (fun c => (call_tx c, call_complete c)) (take 3 (spi_log (dev w3))) =
      [([MCP2515_INSTRUCTION_READ; CANINTF; 0; 0], Some Cb_read_flags);
       (0x94 :: replicate 13 0, Some Cb_read_rxb1);
       (0x90 :: replicate 13 0, Some Cb_read_rxb0)] /\
    drop 3 (spi_log (dev w3)) = spi_log (dev w) /\
    rx_dropped (dev w3) = rx_dropped (dev w).
Proof.
  intros Hreach Hcb Hone Hp Hb0 Hb1 Hr0 Hr1 Ha1 Ha2.
  apply reachable_inv in Hreach. destruct Hreach as [(Hl & Ht & _) _].
  assert (Hacc0 : (spi_async_ret k0 =? 0) = true) by (apply Z.eqb_eq; exact Hr0).
  assert (Hacc1 : (spi_async_ret k1 =? 0) = true) by (apply Z.eqb_eq; exact Hr1).
  set (wa := submit k0 Cb_read_rxb0 (read_rxb_bytes 0) 14 (snapshot (completed flags w))).
  assert (Hs1 : step (EvSpiDone flags k0) w = Some wa).
  { apply (step_done_eq flags k0 w Cb_read_flags); [lia | exact Hcb|].
    cbn [dispatch]. apply read_flags_complete_rx0; auto. }
  assert (Hia : spi_inflight (dev wa) = 1%nat).
  { subst wa. unfold submit. proj. rewrite Hacc0. proj. rewrite Hone. reflexivity. }
  set (wb := submit k1 Cb_read_rxb1 (read_rxb_bytes 1) 14 (rx_taken k1 (completed rx0 wa))).
  assert (Hs2 : step (EvSpiDone rx0 k1) wa = Some wb).
  { apply (step_done_eq rx0 k1 wa Cb_read_rxb0); [lia | reflexivity|].
    cbn [dispatch]. rewrite read_rxb0_complete_eq.
    assert (Hc : canintf (priv (completed rx0 wa)) = rd flags 2) by reflexivity.
    rewrite Hc, Hb1. apply mcp2515_read_rxb1_eq. reflexivity. }
  assert (Hib : spi_inflight (dev wb) = 1%nat).
  { subst wb. unfold submit, rx_taken. rewrite Ha1. proj. rewrite Hacc1. proj.
    rewrite Hia. reflexivity. }
  set (wc := submit k2 Cb_read_flags (read_flags_bytes (read_rxb_bytes 1)) 4
               (with_priv (set_lock false) (rx_taken k2 (completed rx1 wb)))).
  assert (Hs3 : step (EvSpiDone rx1 k2) wb = Some wc).
  { apply (step_done_eq rx1 k2 wb Cb_read_rxb1); [lia | reflexivity|].
    cbn [dispatch]. rewrite read_rxb1_complete_eq.
    rewrite transmit_or_read_flags_none; [reflexivity | reflexivity|].
    subst wb wa. unfold rx_taken. rewrite Ha1, Ha2. exact Hp. }
  exists wc. cbn [run]. rewrite Hs1, Hs2, Hs3. split; [reflexivity|].
  destruct (rx_taken_frame k2 f1 (completed rx1 wb) Ha2) as (Hd2 & Hx2 & Hl2).
  destruct (rx_taken_frame k1 f0 (completed rx0 wa) Ha1) as (Hd1 & Hx1 & Hl1).
  destruct (dev_completed rx1 wb) as (Cd2 & Cx2 & Cl2 & Cb2).
  destruct (dev_completed rx0 wa) as (Cd1 & Cx1 & Cl1 & Cb1).
  destruct (dev_completed flags w) as (Cd0 & Cx0 & Cl0 & _).
  rewrite Cb2, Cd2 in Hd2. rewrite Cb1, Cd1 in Hd1.
  rewrite Cx2 in Hx2. rewrite Cx1 in Hx1. rewrite Cl2 in Hl2. rewrite Cl1 in Hl1.
  assert (Hwa : rx_delivered (dev wa) = rx_delivered (dev w) /\
                rx_dropped (dev wa) = rx_dropped (dev w) /\
                spi_log (dev wa) =
                  SpiCall (take (Z.to_nat 14) (read_rxb_bytes 0)) (Some Cb_read_rxb0)
                    (spi_async_ret k0 =? 0) (busy (priv (snapshot (completed flags w))))
                  :: spi_log (dev w)).
  { unfold wa. rewrite spi_log_submit.
    rewrite (proj1 (dev_submit _ _ _ _ _)), (proj2 (dev_submit _ _ _ _ _)).
    repeat split. }
  destruct Hwa as (Wd & Wx & Wl). rewrite Wd in Hd1. rewrite Wx in Hx1. rewrite Wl in Hl1.
  assert (Hwb : rx_delivered (dev wb) = mcp2515_decode_rxb f0 rx0 :: rx_delivered (dev w) /\
                rx_dropped (dev wb) = rx_dropped (dev w) /\
                spi_log (dev wb) =
                  SpiCall (take (Z.to_nat 14) (read_rxb_bytes 1)) (Some Cb_read_rxb1)
                    (spi_async_ret k1 =? 0) (busy (priv (rx_taken k1 (completed rx0 wa))))
                  :: spi_log (dev (rx_taken k1 (completed rx0 wa)))).
  { unfold wb. rewrite spi_log_submit.
    rewrite (proj1 (dev_submit _ _ _ _ _)), (proj2 (dev_submit _ _ _ _ _)).
    rewrite Hd1, Hx1. repeat split. }
  destruct Hwb as (Vd & Vx & Vl). rewrite Hl1 in Vl.
  rewrite Vd in Hd2. rewrite Vx in Hx2. rewrite Vl in Hl2.
  unfold wc. rewrite spi_log_submit.
  rewrite (proj1 (dev_submit _ _ _ _ _)), (proj2 (dev_submit _ _ _ _ _)).
  rewrite dev_with_priv.
  rewrite Hd2, Hx2, Hl2.
  cbn [take map drop call_tx call_complete]. repeat split.
Qed.

Lemma both_receive_buffers_in_order_witness :
  let z := CanFrame 0 0 (replicate 8 0) in
  let k := Env 0 (Some z) in
  let flags := [0; 0; 3; 0; 0; 0; 0; 0; 0; 0; 0; 0; 0; 0] in
  let rx0 := [0; 0x24; 0x60; 0; 0; 2; 7; 7; 0; 0; 0; 0; 0; 0] in
  let rx1 := [0; 0x24; 0x80; 0; 0; 1; 9; 0; 0; 0; 0; 0; 0; 0] in
  exists w w3,
    run [EvIrq k] world0 = Some w /\
    run [EvSpiDone flags k; EvSpiDone rx0 k; EvSpiDone rx1 k] w = Some w3 /\
    rx_delivered (dev w3) = [mcp2515_decode_rxb z rx1; mcp2515_decode_rxb z rx0].
Proof.
  intros z k flags rx0 rx1. eexists. 
  match goal with |- exists w3, run _ world0 = Some ?w /\ _ =>
    assert (Hr : run [EvIrq k] world0 = Some w) by (vm_compute; reflexivity);
    destruct (both_receive_buffers_in_order k k k flags rx0 rx1 z z w)
      as (w3 & Hrun & Hd & _);
      [exists [EvIrq k]; exact Hr | reflexivity | reflexivity | reflexivity
      | reflexivity | reflexivity | reflexivity | reflexivity | reflexivity
      | reflexivity |]
  end.
  exists w3. split; [vm_compute; reflexivity|]. split; [exact Hrun | exact Hd].
Defined.

(** * The completion handlers *)

(** X11: with nothing pending, [mcp2515_transmit_or_read_flags] releases
    the lock and reads the flags. Otherwise it takes the lowest pending
    slot, clears its pending bit and loads the frame of that slot; when the
    slot holds no frame, [mcp2515_load_txb] is handed a null pointer and
    dereferences it. *)
Theorem transmit_or_read_flags_spec (k : env) (w : world) :
  length (tx_buf (priv w)) = 14%nat ->
  0 <= tx_pending_map (priv w) <= 7 ->
  (tx_pending_map (priv w) = 0 ->
     mcp2515_transmit_or_read_flags k w =
     Ok tt (submit k Cb_read_flags (read_flags_bytes (tx_buf (priv w))) 4
              (with_priv (set_lock false) w))) /\
  (forall i, lowest_slot (tx_pending_map (priv w)) i ->
     (forall s, skb (priv w) !! Z.to_nat i = Some (Some s) ->
        mcp2515_transmit_or_read_flags k w =
        Ok tt (submit k Cb_load_txb (load_txb_bytes i s (tx_buf (priv w)))
                 (5 + can_dlc (skb_data s) + 1)
                 (with_priv (fun p => set_loaded_txb i (set_lock false
                              (set_tx_pending_map (clear_slot (tx_pending_map p) i) p)))
                    w))) /\
     (skb (priv w) !! Z.to_nat i = Some None ->
        mcp2515_transmit_or_read_flags k w = Fault NullPointer)) /\
  (tx_pending_map (priv w) = 0 \/ exists i, lowest_slot (tx_pending_map (priv w)) i).
Proof.
  intros Hlen Hmap. split; [|split].
  - intros Hp. apply transmit_or_read_flags_none; auto.
  - intros i Hlow.
    assert (Hnz : tx_pending_map (priv w) <> 0).
    { pose proof (nonzero_lowest_slot _ _ Hlow) as Hn. intros Hz.
      rewrite Hz in Hn. discriminate. }
    rewrite transmit_or_read_flags_some by exact Hnz. split.
    + intros s Hs. rewrite (load_pending_slot_eq k _ i s); auto.
    + intros Hs. apply (load_pending_slot_null k _ i); auto.
  - apply slot_map_cases, Hmap.
Qed.

Lemma transmit_or_read_flags_spec_witness :
  let k := Env 0 None in
  let w := with_priv (set_tx_pending_map 2) world0 in
  mcp2515_transmit_or_read_flags k w = Fault NullPointer.
Proof.
  intros k w.
  destruct (transmit_or_read_flags_spec k w) as (_ & H & _).
  - reflexivity.
  - cbn. lia.
  - apply (H 1); [|reflexivity].
    split; [unfold MCP2515_TX_CNT; lia|]. split; [reflexivity|].
    intros j Hj. assert (j = 0) as -> by lia. reflexivity.
Defined.

Lemma tx_accounted_skb w i :
  length (skb (priv w)) = 3%nat -> 0 <= i < 3 ->
  skb (priv (tx_accounted w)) !! Z.to_nat i =
  if Z.testbit (canintf (priv w)) (i + 2) then Some None
  else skb (priv w) !! Z.to_nat i.
Proof.
  intros Hlen Hi. destruct w as [p d]. cbn [priv] in *.
  destruct (skb p) as [|o0 [|o1 [|o2 [|? ?]]]] eqn:Es; try discriminate Hlen.
  unfold tx_accounted, tx_done_world. cbn [priv canintf].
  assert (i = 0 \/ i = 1 \/ i = 2) as [-> | [-> | ->]] by lia;
    change (0 + 2) with 2; change (1 + 2) with 3; change (2 + 2) with 4;
    destruct (Z.testbit (canintf p) 2), (Z.testbit (canintf p) 3),
             (Z.testbit (canintf p) 4);
    proj; rewrite ?Es; reflexivity.
Qed.

Lemma tx_accounted_map w i :
  0 <= i < 3 ->
  Z.testbit (tx_busy_map (priv (tx_accounted w))) i =
  Z.testbit (tx_busy_map (priv w)) i && negb (Z.testbit (canintf (priv w)) (i + 2)).
Proof.
  intros Hi. unfold tx_accounted, tx_done_world.
  assert (i = 0 \/ i = 1 \/ i = 2) as [-> | [-> | ->]] by lia;
    change (0 + 2) with 2; change (1 + 2) with 3; change (2 + 2) with 4;
    destruct (Z.testbit (canintf (priv w)) 2), (Z.testbit (canintf (priv w)) 3),
             (Z.testbit (canintf (priv w)) 4);
    proj; rewrite ?clear_slot_bits by lia; cbn [Z.eqb Pos.eqb negb];
    rewrite ?andb_true_r, ?andb_false_r; reflexivity.
Qed.

Lemma ulong_small x y :
  0 <= x < 2 ^ BITS_PER_LONG -> y = 0 -> x = ulong (x + y).
Proof.
  intros Hx ->. rewrite Z.add_0_r. symmetry. apply Z.mod_small. exact Hx.
Qed.

Lemma tx_accounted_stats w :
  length (skb (priv w)) = 3%nat ->
  0 <= tx_packets (dev w) < 2 ^ BITS_PER_LONG ->
  0 <= tx_bytes (dev w) < 2 ^ BITS_PER_LONG ->
  tx_packets (dev (tx_accounted w)) =
    ulong (tx_packets (dev w) + (ack_packets w 0 + ack_packets w 1 + ack_packets w 2)) /\
  tx_bytes (dev (tx_accounted w)) =
    ulong (tx_bytes (dev w) + (ack_bytes w 0 + ack_bytes w 1 + ack_bytes w 2)).
Proof.
  intros Hlen Hp Hb. destruct_world w. destruct_buf Hlen.
  unfold tx_accounted, tx_done_world, ack_packets, ack_bytes, slot_holds_frame.
  proj.
  change (0 + 2) with 2; change (1 + 2) with 3; change (2 + 2) with 4.
  change (Z.to_nat 0) with 0%nat; change (Z.to_nat 1) with 1%nat;
    change (Z.to_nat 2) with 2%nat.
  repeat match goal with |- context [Z.testbit ?c ?i] => destruct (Z.testbit c i) end;
    repeat match goal with o : option sk_buff |- _ => destruct o end;
    proj; cbn [lookup list_lookup insert list_insert andb]; proj;
    (split;
     first [ apply ulong_small; [assumption | reflexivity]
           | repeat (rewrite <- ?Z.add_assoc; rewrite ulong_add_l); f_equal; lia ]).
Qed.

Lemma ledger_fields w w' :
  ledger w' = ledger w ->
  skb (priv w') = skb (priv w) /\
  tx_busy_map (priv w') = tx_busy_map (priv w) /\
  tx_packets (dev w') = tx_packets (dev w) /\
  tx_bytes (dev w') = tx_bytes (dev w).
Proof. unfold ledger. intros [= Hs Hm _ _ _ _ Htp Htb _]. auto. Qed.

(** X12: [mcp2515_clear_canintf_complete] empties each slot whose
    transmit-complete flag is in the snapshot and clears its busy bit,
    leaving the other slots alone; [tx_packets] goes up by the number of
    those slots that held a frame and [tx_bytes] by the lengths of their
    frames; the follow-up call clears EFLG when error flags were seen and
    reads the flags otherwise. *)
Theorem clear_canintf_complete_accounting (k : env) (w : world) :
  length (skb (priv w)) = 3%nat -> length (tx_buf (priv w)) = 14%nat ->
  0 <= tx_packets (dev w) < 2 ^ BITS_PER_LONG ->
  0 <= tx_bytes (dev w) < 2 ^ BITS_PER_LONG ->
  exists w',
    mcp2515_clear_canintf_complete k w = Ok tt w' /\
    (forall i, 0 <= i < MCP2515_TX_CNT ->
       skb (priv w') !! Z.to_nat i =
         (if Z.testbit (canintf (priv w)) (i + 2) then Some None
          else skb (priv w) !! Z.to_nat i) /\
       Z.testbit (tx_busy_map (priv w')) i =
         Z.testbit (tx_busy_map (priv w)) i &&
         negb (Z.testbit (canintf (priv w)) (i + 2))) /\
    tx_packets (dev w') =
      ulong (tx_packets (dev w) + (ack_packets w 0 + ack_packets w 1 + ack_packets w 2)) /\
    tx_bytes (dev w') =
      ulong (tx_bytes (dev w) + (ack_bytes w 0 + ack_bytes w 1 + ack_bytes w 2)) /\
    last_call w' =
      Some (if nonzero (eflg (priv w))
            then SpiCall [MCP2515_INSTRUCTION_BIT_MODIFY; EFLAG; u8 (eflg (priv w)); 0]
                   (Some Cb_clear_eflg) (spi_async_ret k =? 0) (busy (priv w))
            else SpiCall [MCP2515_INSTRUCTION_READ; CANINTF; 0; 0]
                   (Some Cb_read_flags) (spi_async_ret k =? 0) (busy (priv w))).
Proof.
  intros Hskb Htx Hp Hb.
  rewrite clear_canintf_complete_eq by auto. cbv zeta.
  eexists. split; [reflexivity|].
  assert (Hled : forall cb tx len,
            ledger (submit k cb tx len (queue_woken (tx_accounted w))) =
            ledger (tx_accounted w))
    by (intros; rewrite ledger_submit; apply ledger_queue_woken).
  destruct (tx_accounted_stats w Hskb Hp Hb) as [Hap Hab].
  destruct (tx_accounted_sched w) as [Hcore _].
  destruct (queue_woken_sched (tx_accounted w)) as [Hcore' _].
  assert (Hbusy : busy (priv (queue_woken (tx_accounted w))) = busy (priv w)).
  { unfold sched_core in Hcore, Hcore'. congruence. }
  destruct (nonzero (eflg (priv w)));
    (match goal with |- context [submit k ?cb ?tx ?len _] =>
       destruct (ledger_fields _ _ (Hled cb tx len)) as (Hs & Hm & Htp & Htb) end);
    (split; [intros i Hi; unfold MCP2515_TX_CNT in Hi; rewrite Hs, Hm;
             split; [apply tx_accounted_skb; auto | apply tx_accounted_map; auto]|]);
    (split; [rewrite Htp; exact Hap|]); (split; [rewrite Htb; exact Hab|]);
    rewrite last_call_submit, Hbusy; reflexivity.
Qed.

Lemma clear_canintf_complete_accounting_witness :
  let k := Env 0 None in
  let s := SkBuff (CanFrame 0x123 2 [1; 2; 3; 4; 5; 6; 7; 8]) in
  let w := with_priv (fun p => set_canintf 0x04 (set_tx_busy_map 1
                                 (set_skb [Some s; None; None] p))) world0 in
  exists w',
    mcp2515_clear_canintf_complete k w = Ok tt w' /\
    skb (priv w') !! 0%nat = Some None /\
    Z.testbit (tx_busy_map (priv w')) 0 = false /\
    tx_packets (dev w') = 1 /\ tx_bytes (dev w') = 2.
Proof.
  intros k s w.
  destruct (clear_canintf_complete_accounting k w)
    as (w' & H & Hslot & Hp & Hb & _).
  - reflexivity.
  - reflexivity.
  - cbn. unfold BITS_PER_LONG. lia.
  - cbn. unfold BITS_PER_LONG. lia.
  - exists w'. split; [exact H|].
    destruct (Hslot 0) as [Hs Hm]; [unfold MCP2515_TX_CNT; lia|].
    split; [exact Hs|]. split; [exact Hm|]. split; [exact Hp | exact Hb].
Defined.

(** X13: when [alloc_can_skb] fails, [mcp2515_read_rxb_complete] only
    counts the frame in [rx_dropped]: nothing is handed to the stack and the
    packet and byte counters stay. The completion callbacks of both
    receive buffers then go on as after a delivered frame. With nothing
    pending, or with the lowest pending slot holding its frame, they make
    exactly one follow-up call: the read of RXB1 when the callback of RXB0
    finds RX1IF in the snapshot, otherwise the status read when no slot is
    pending and the load of the lowest pending slot when one is. When the
    lowest pending slot is empty, the callback hands a null frame to
    [mcp2515_load_txb], which dereferences it, and no call is made. *)
Theorem read_rxb_complete_no_memory (k : env) (w : world) :
  alloc_can_skb k = None ->
  (exists w',
     mcp2515_read_rxb_complete k w = Ok tt w' /\
     priv w' = priv w /\
     rx_dropped (dev w') = ulong (rx_dropped (dev w) + 1) /\
     rx_delivered (dev w') = rx_delivered (dev w) /\
     rx_packets (dev w') = rx_packets (dev w) /\
     rx_bytes (dev w') = rx_bytes (dev w) /\
     spi_log (dev w') = spi_log (dev w)) /\
  (length (tx_buf (priv w)) = 14%nat -> pending_ok w ->
   (exists w' c,
      mcp2515_read_rxb0_complete k w = Ok tt w' /\
      spi_log (dev w') = c :: spi_log (dev w) /\
      call_complete c =
        Some (if Z.testbit (canintf (priv w)) 1 then Cb_read_rxb1
              else if tx_pending_map (priv w) =? 0 then Cb_read_flags
              else Cb_load_txb) /\
      rx_dropped (dev w') = ulong (rx_dropped (dev w) + 1) /\
      rx_delivered (dev w') = rx_delivered (dev w)) /\
   (exists w' c,
      mcp2515_read_rxb1_complete k w = Ok tt w' /\
      spi_log (dev w') = c :: spi_log (dev w) /\
      call_complete c =
        Some (if tx_pending_map (priv w) =? 0 then Cb_read_flags
              else Cb_load_txb) /\
      rx_dropped (dev w') = ulong (rx_dropped (dev w) + 1) /\
      rx_delivered (dev w') = rx_delivered (dev w))) /\
  (forall i, lowest_slot (tx_pending_map (priv w)) i ->
     skb (priv w) !! Z.to_nat i = Some None ->
     mcp2515_read_rxb1_complete k w = Fault NullPointer /\
     (Z.testbit (canintf (priv w)) 1 = false ->
      mcp2515_read_rxb0_complete k w = Fault NullPointer)).
Proof.
  intros Ha.
  assert (Hrx : rx_taken k w =
                World (priv w) (set_rx_dropped (ulong (rx_dropped (dev w) + 1)) (dev w)))
    by (unfold rx_taken; rewrite Ha; reflexivity).
  assert (Hnext : length (tx_buf (priv w)) = 14%nat -> pending_ok w ->
            exists w' c,
              mcp2515_transmit_or_read_flags k (rx_taken k w) = Ok tt w' /\
              spi_log (dev w') = c :: spi_log (dev w) /\
              call_complete c =
                Some (if tx_pending_map (priv w) =? 0 then Cb_read_flags
                      else Cb_load_txb) /\
              rx_dropped (dev w') = ulong (rx_dropped (dev w) + 1) /\
              rx_delivered (dev w') = rx_delivered (dev w)).
  { intros Hlen [Hp | (i & s & Hlow & Hs)]; rewrite Hrx.
    - rewrite transmit_or_read_flags_none by auto. rewrite Hp.
      eexists. eexists. split; [reflexivity|]. rewrite spi_log_submit.
      split; [reflexivity|]. split; [reflexivity|].
      unfold submit. proj. destruct (spi_async_ret k =? 0); split; reflexivity.
    - assert (Hnz : tx_pending_map (priv w) <> 0).
      { pose proof (nonzero_lowest_slot _ _ Hlow) as Hn. intros Hz.
        rewrite Hz in Hn. discriminate. }
      rewrite transmit_or_read_flags_some by exact Hnz.
      rewrite (load_pending_slot_eq k _ i s) by auto.
      replace (tx_pending_map (priv w) =? 0) with false
        by (symmetry; apply Z.eqb_neq; exact Hnz).
      eexists. eexists. split; [reflexivity|]. rewrite spi_log_submit.
      split; [reflexivity|]. split; [reflexivity|].
      unfold submit. proj. destruct (spi_async_ret k =? 0); split; reflexivity. }
  split; [|split].
  { rewrite read_rxb_complete_eq, Hrx. eexists. split; [reflexivity|].
    repeat split. }
  - intros Hlen Hp. split.
    + rewrite read_rxb0_complete_eq.
      destruct (Z.testbit (canintf (priv w)) 1); [|exact (Hnext Hlen Hp)].
      rewrite Hrx, mcp2515_read_rxb1_eq by exact Hlen.
      eexists. eexists. split; [reflexivity|]. rewrite spi_log_submit.
      split; [reflexivity|]. split; [reflexivity|].
      unfold submit. proj. destruct (spi_async_ret k =? 0); split; reflexivity.
    + rewrite read_rxb1_complete_eq. exact (Hnext Hlen Hp).
  - intros i Hlow Hs.
    assert (Hnz : tx_pending_map (priv w) <> 0).
    { pose proof (nonzero_lowest_slot _ _ Hlow) as Hn. intros Hz.
      rewrite Hz in Hn. discriminate. }
    assert (Hf : mcp2515_transmit_or_read_flags k (rx_taken k w) = Fault NullPointer).
    { rewrite Hrx, transmit_or_read_flags_some by exact Hnz.
      apply (load_pending_slot_null k _ i); auto. }
    split.
    + rewrite read_rxb1_complete_eq. exact Hf.
    + intros Hb. rewrite read_rxb0_complete_eq, Hb. exact Hf.
Qed.

Lemma read_rxb_complete_no_memory_witness :
  let k := Env 0 None in
  let f := SkBuff (CanFrame 0x123 2 [1; 2; 3; 4; 5; 6; 7; 8]) in
  exists w w' c,
    run [EvIrq k; EvXmit f k] world0 = Some w /\
    tx_pending_map (priv w) = 1 /\
    mcp2515_read_rxb1_complete k w = Ok tt w' /\
    spi_log (dev w') = c :: spi_log (dev w) /\
    call_complete c = Some Cb_load_txb /\
    rx_dropped (dev w') = 1 /\ rx_delivered (dev w') = [].
Proof.
  intros k f. eexists.
  match goal with |- exists w' c, run _ _ = Some ?w /\ _ =>
    assert (Hw : run [EvIrq k; EvXmit f k] world0 = Some w)
      by (vm_compute; reflexivity)
  end.
  match type of Hw with _ = Some ?w =>
    destruct (read_rxb_complete_no_memory k w eq_refl) as (_ & Hnext & _);
    destruct (Hnext eq_refl) as (_ & w' & c & H & Hlog & Hcb & Hd & Hl)
  end.
  - right. exists 0, f. split; [|reflexivity].
    split; [unfold MCP2515_TX_CNT; lia|]. split; [reflexivity|].
    intros j Hj. assert (j = 0) by lia. lia.
  - exists w', c. split; [exact Hw|]. split; [reflexivity|].
    split; [exact H|]. split; [exact Hlog|]. split; [exact Hcb|].
    split; [exact Hd | exact Hl].
Defined.

(** * The device in process context *)

(** ** Process context, step by step *)

Ltac kproj :=
  cbv [set_core set_state set_irq_requested set_candev_open
       set_candev_registered set_sync_log set_regulator_log set_dev_err_log
       set_answers core state ctrlmode bittiming power transceiver
       irq_requested candev_open candev_registered sync_log regulator_log
       dev_err_log HZ answers] in *.

Lemma kbind_inv {A B} (m : K A) (f : A -> K B) h r h' :
  (m ≫= f) h = Some (r, h') ->
  exists a h1, m h = Some (a, h1) /\ f a h1 = Some (r, h').
Proof.
  unfold mbind, K_bind. destruct (m h) as [[a h1]|]; [eauto | discriminate].
Qed.

Lemma next_answer_inv h a h' :
  next_answer h = Some (a, h') ->
  exists rest, answers h = a :: rest /\ h' = set_answers rest h.
Proof.
  unfold next_answer. destruct (answers h) as [|a0 rest]; [discriminate|].
  intros [= <- <-]. eauto.
Qed.

Lemma in_core_inv {A} (m : M A) h a h' :
  in_core m h = Some (a, h') ->
  exists w, m (core h) = Ok a w /\ h' = set_core w h.
Proof.
  unfold in_core. destruct (m (core h)) as [a0 w|]; [|discriminate].
  intros [= <- <-]. eauto.
Qed.

Lemma kret_inv {A} (x : A) h r h' :
  (mret x : K A) h = Some (r, h') -> r = x /\ h' = h.
Proof. intros [= <- <-]. auto. Qed.

Lemma kget_inv {A} (f : host -> A) h r h' :
  kget f h = Some (r, h') -> r = f h /\ h' = h.
Proof. intros [= <- <-]. auto. Qed.

Lemma kset_inv (f : host -> host) h r h' : kset f h = Some (r, h') -> h' = f h.
Proof. intros [= _ <-]. auto. Qed.

(** Take a run [m h = Some (r, h')] apart, down to the kernel's answers and
    the calls of other driver functions. *)
Ltac kinv H :=
  lazymatch type of H with
  | (_ ≫= _) _ = Some _ =>
    let a := fresh "a" in let h1 := fresh "h" in
    let H1 := fresh "H" in
    apply kbind_inv in H as (a & h1 & H1 & H);
    kinv H1; kinv H
  | (let '(_, _) := ?p in _) _ = Some _ => destruct p; kinv H
  | (if ?c then _ else _) _ = Some _ =>
    let E := fresh "E" in destruct c eqn:E; kinv H
  | match ?o with Some _ => _ | None => _ end _ = Some _ =>
    let E := fresh "E" in destruct o eqn:E; kinv H
  | mret _ _ = Some _ => apply kret_inv in H as [? ?]
  | kget _ _ = Some _ => apply kget_inv in H as [? ?]
  | kset _ _ = Some _ => apply kset_inv in H
  | next_answer _ = Some _ =>
    let rest := fresh "rest" in let E := fresh "E" in
    apply next_answer_inv in H as (rest & E & ->)
  | in_core _ _ = Some _ =>
    let w := fresh "w" in let E := fresh "E" in
    apply in_core_inv in H as (w & E & ->)
  | spi_write _ _ _ = Some _ => unfold spi_write in H; kinv H
  | spi_write_then_read _ _ _ _ = Some _ => unfold spi_write_then_read in H; kinv H
  | regulator_enable _ _ = Some _ => unfold regulator_enable in H; kinv H
  | regulator_disable _ _ = Some _ => unfold regulator_disable in H; kinv H
  | open_candev _ = Some _ => unfold open_candev in H; kinv H
  | close_candev _ = Some _ => unfold close_candev in H; kinv H
  | request_irq _ = Some _ => unfold request_irq in H; kinv H
  | free_irq _ = Some _ => unfold free_irq in H; kinv H
  | register_candev _ = Some _ => unfold register_candev in H; kinv H
  | dev_err _ = Some _ => unfold dev_err in H; kinv H
  | dev_dbg _ = Some _ => unfold dev_dbg in H; kinv H
  | netdev_info _ = Some _ => unfold netdev_info in H; kinv H
  | schedule _ = Some _ => unfold schedule in H; kinv H
  | jiffies _ = Some _ => unfold jiffies in H; kinv H
  | mcp2515_write_reg _ _ _ = Some _ => unfold mcp2515_write_reg in H; kinv H
  | mcp2515_read_reg _ _ = Some _ => unfold mcp2515_read_reg in H; kinv H
  | mcp2515_hw_reset _ = Some _ => unfold mcp2515_hw_reset in H; kinv H
  | mcp2515_hw_sleep _ = Some _ => unfold mcp2515_hw_sleep in H; kinv H
  | mcp2515_switch_regulator _ _ _ = Some _ =>
    unfold mcp2515_switch_regulator in H; kinv H
  | _ => idtac
  end.

Lemma tx_write_inv i v w a w' :
  tx_write i v w = Ok a w' ->
  w' = World (set_tx_buf (<[i := u8 v]> (tx_buf (priv w))) (priv w)) (dev w).
Proof. intros [= _ <-]. reflexivity. Qed.

Lemma priv_get_inv {A} (f : mcp2515_priv -> A) w a w' :
  priv_get f w = Ok a w' -> a = f (priv w) /\ w' = w.
Proof. intros [= <- <-]. auto. Qed.

Ltac core_inv :=
  repeat match goal with
  | E : tx_write _ _ _ = Ok _ _ |- _ => apply tx_write_inv in E
  | E : priv_get _ _ = Ok _ _ |- _ => apply priv_get_inv in E as [? ?]
  end.

Ltac ksubst :=
  core_inv;
  repeat match goal with
  | H : ?x = _ |- _ => is_var x; subst x
  | H : (_, _) = (_, _) |- _ => injection H as ? ?
  end;
  kproj.

(** *** Synchronous register access *)

(** What a register read sends, and what it gives back. *)
Lemma mcp2515_read_reg_inv reg h err v h' :
  mcp2515_read_reg reg h = Some (err, v, h') ->
  exists a rest,
    answers h = a :: rest /\ err = ans_ret a /\ v = u8 (rd (ans_data a) 0) /\
    h' = set_answers rest
           (set_sync_log ([MCP2515_INSTRUCTION_READ; u8 reg] :: sync_log h) h).
Proof.
  intros H. kinv H. ksubst.
  eexists. eexists. split; [eassumption|]. split; [reflexivity|]. split; [|reflexivity].
  match goal with |- context [ans_data ?a] => destruct (ans_data a) end; reflexivity.
Qed.

(** *** Waiting for the requested mode *)

(** The wait touches nothing but the bus; when it ends well the chip has
    reported the requested mode in its last answer. *)
Lemma wait_for_mode_inv fuel mode timeout h r h' :
  wait_for_mode fuel mode timeout h = Some (r, h') ->
  device h' = device h /\
  (exists later, sync_log h' = later ++ sync_log h /\
     Forall (fun m => m = [MCP2515_INSTRUCTION_READ; CANSTAT]) later) /\
  (r = 0 -> exists a, In a (answers h) /\ ans_ret a = 0 /\
                      Z.land (u8 (rd (ans_data a) 0)) CANCTRL_REQOP_MASK = mode).
Proof.
  revert h. induction fuel as [|fuel IH]; intros h H; [discriminate|].
  cbn [wait_for_mode] in H.
  apply kbind_inv in H as ([err stat] & h1 & Hread & H).
  apply mcp2515_read_reg_inv in Hread as (a & rest & Ea & -> & -> & ->).
  assert (Hlog1 : forall later l,
            l = later ++ [MCP2515_INSTRUCTION_READ; u8 CANSTAT] :: sync_log h ->
            Forall (fun m => m = [MCP2515_INSTRUCTION_READ; CANSTAT]) later ->
            exists later', l = later' ++ sync_log h /\
              Forall (fun m => m = [MCP2515_INSTRUCTION_READ; CANSTAT]) later').
  { intros later l -> Hall. exists (later ++ [[MCP2515_INSTRUCTION_READ; CANSTAT]]).
    split; [rewrite <- app_assoc; reflexivity|].
    apply Forall_app. split; [exact Hall | repeat constructor]. }
  destruct (nonzero (ans_ret a)) eqn:Herr.
  { kinv H. ksubst. split; [reflexivity|]. split.
    - apply (Hlog1 []); [reflexivity | constructor].
    - intros Hr. rewrite Hr in Herr. discriminate. }
  destruct (Z.eqb_spec (Z.land (u8 (rd (ans_data a) 0)) CANCTRL_REQOP_MASK) mode)
    as [Hmode|Hmode].
  { kinv H. ksubst. split; [reflexivity|]. split.
    - apply (Hlog1 []); [reflexivity | constructor].
    - intros _. exists a. rewrite Ea. split; [left; reflexivity|].
      split; [|exact Hmode].
      unfold nonzero in Herr. apply negb_false_iff, Z.eqb_eq in Herr. exact Herr. }
  apply kbind_inv in H as (? & h2 & Hs & H). kinv Hs. subst h2.
  apply kbind_inv in H as (now & h3 & Hj & H). kinv Hj. ksubst.
  destruct (time_after _ timeout).
  { kinv H. ksubst. split; [reflexivity|]. split.
    - apply (Hlog1 []); [reflexivity | constructor].
    - unfold EBUSY. discriminate. }
  destruct (IH _ H) as (Hdev & (later & Hlog & Hall) & Hok).
  split; [exact Hdev|]. split.
  - apply (Hlog1 later); [exact Hlog | exact Hall].
  - intros Hr. destruct (Hok Hr) as (a' & Hin & Ha').
    exists a'. split; [|exact Ha']. rewrite Ea. right.
    kproj. match goal with E : rest = _ :: _ |- _ => rewrite E end.
    right. exact Hin.
Qed.

(** *** Starting the chip *)

Lemma core_kept_refl h : length (tx_buf (priv (core h))) = 14%nat -> core_kept h h.
Proof. intros _. split; [destruct (core h) as [[] ?]|]; reflexivity. Qed.

(** Run a function of process context forwards on a device whose fields
    are named. *)
Ltac destruct_host h :=
  let w := fresh "w" in
  destruct h as [w ? ? ? ? ? ? ? ? ? ? ? ? ?]; destruct_world w.

Ltac kexec_in H :=
  cbv [mbind K_bind mret K_ret kget kset in_core next_answer
       spi_write spi_write_then_read regulator_enable regulator_disable
       open_candev close_candev request_irq free_irq register_candev
       dev_err dev_dbg netdev_info schedule jiffies
       netif_start_queue netif_stop_queue netif_wake_queue
       mcp2515_write_reg mcp2515_read_reg
       mcp2515_hw_reset mcp2515_hw_sleep mcp2515_switch_regulator
       tx_write priv_get priv_set dev_get dev_set M_bind M_ret
       set_core set_state set_irq_requested set_candev_open
       set_candev_registered set_sync_log set_regulator_log set_dev_err_log
       set_answers core state ctrlmode bittiming power transceiver
       irq_requested candev_open candev_registered sync_log regulator_log
       dev_err_log HZ answers
       set_tx_buf set_queue_stopped priv dev tx_buf queue_stopped
       canintf eflg skb lock busy interrupt netif_queue_stopped
       loaded_txb tx_busy_map tx_pending_map extra skip message_complete
       transfer_len rx_buf timer rx_packets rx_bytes rx_dropped
       rx_over_errors tx_packets tx_bytes rx_delivered
       spi_inflight spi_log err_log unlocked_busy_writes] in H.

(** Case on what the run in [H] is stuck on: the next answer of the kernel,
    a condition, an absent regulator, or the call of a function that is not
    unfolded. *)
Ltac khead E H :=
  lazymatch E with
  | match ?x with Some _ => _ | None => _ end =>
    tryif is_var x then destruct x else khead x H
  | match ?l with [] => _ | _ :: _ => _ end =>
    tryif is_var l then (destruct l as [|? l]; [discriminate H|]) else khead l H
  | if ?c then _ else _ =>
    let E := fresh "E" in destruct c eqn:E
  | (if ?c then _ else _) _ =>
    let E := fresh "E" in destruct c eqn:E
  | (match ?x with Some _ => _ | None => _ end) _ =>
    tryif is_var x then destruct x else khead x H
  | let (_, _) := ?p in _ => khead p H
  end.

Ltac kcase H :=
  lazymatch type of H with
  | Some _ = _ => fail
  | None = _ => fail
  | ?E = _ => khead E H
  end.

Ltac kexec H :=
  kexec_in H;
  change (nonzero 1) with true in H; change (nonzero 0) with false in H;
  change (nonzero (- ENODEV)) with true in H;
  kexec_in H.

Lemma nonzero_false_eqb x : nonzero x = false -> (x =? 0) = true.
Proof. unfold nonzero. now destruct (x =? 0). Qed.

Lemma nonzero_true_eqb x : nonzero x = true -> (x =? 0) = false.
Proof. unfold nonzero. now destruct (x =? 0). Qed.

Lemma eqb_true_nonzero x : (x =? 0) = true -> nonzero x = false.
Proof. unfold nonzero. now intros ->. Qed.

Lemma eqb_false_nonzero x : (x =? 0) = false -> nonzero x = true.
Proof. unfold nonzero. now intros ->. Qed.

(** Use what is known of a result wherever the run tests it again. *)
Ltac ksync H :=
  repeat match goal with
  | E : nonzero ?x = false |- _ => rewrite (nonzero_false_eqb x E) in H
  | E : nonzero ?x = true |- _ => rewrite (nonzero_true_eqb x E) in H
  | E : (?x =? 0) = true |- _ => rewrite (eqb_true_nonzero x E) in H
  | E : (?x =? 0) = false |- _ => rewrite (eqb_false_nonzero x E) in H
  end.

Ltac krun H := kexec H; repeat (kcase H; ksync H; kexec H).

(** The call of [wait_for_mode] the run in [H] has reached. *)
Ltac kwait H :=
  match type of H with
  | context [wait_for_mode ?f ?m ?t ?h] =>
    let r := fresh "r" in let h1 := fresh "h" in
    let Hdev := fresh "Hdev" in let Hlog := fresh "Hlog" in
    let Hok := fresh "Hok" in
    destruct (wait_for_mode f m t h) as [[r h1]|] eqn:Hcall; [|discriminate H];
    apply wait_for_mode_inv in Hcall as (Hdev & Hlog & Hok);
    destruct h1;
    cbv [device core state ctrlmode bittiming power transceiver irq_requested
         candev_open candev_registered regulator_log HZ sync_log answers] in Hdev, Hlog, Hok;
    injection Hdev as -> -> -> -> -> -> -> -> -> -> ->
  end.

Lemma mode_byte ctrl :
  (let mode :=
     if nonzero (Z.land ctrl CAN_CTRLMODE_LOOPBACK) then CANCTRL_REQOP_LOOPBACK
     else if nonzero (Z.land ctrl CAN_CTRLMODE_LISTENONLY)
          then CANCTRL_REQOP_LISTEN_ONLY
          else CANCTRL_REQOP_NORMAL in
   if nonzero (Z.land mode CAN_CTRLMODE_ONE_SHOT)
   then u8 (Z.lor mode CANCTRL_OSM) else mode) = requested_mode ctrl.
Proof.
  cbv zeta. unfold requested_mode.
  change CAN_CTRLMODE_LOOPBACK with (BIT 0).
  change CAN_CTRLMODE_LISTENONLY with (BIT 1).
  rewrite !nonzero_land_BIT by lia.
  destruct (Z.testbit ctrl 0); [reflexivity|].
  destruct (Z.testbit ctrl 1); reflexivity.
Qed.

Lemma requested_mode_cases ctrl :
  requested_mode ctrl = 0x40 \/ requested_mode ctrl = 0x60 \/ requested_mode ctrl = 0.
Proof.
  unfold requested_mode. destruct (Z.testbit ctrl 0); [auto|].
  destruct (Z.testbit ctrl 1); auto.
Qed.

Lemma u8_requested_mode ctrl : u8 (requested_mode ctrl) = requested_mode ctrl.
Proof. destruct (requested_mode_cases ctrl) as [-> | [-> | ->]]; reflexivity. Qed.

Lemma cnf1_byte bt :
  bittiming_in_range bt ->
  u8 (Z.lor (u32 (Z.shiftl (u32 (sjw bt - 1)) 6)) (u32 (brp bt - 1))) = cnf1_value bt.
Proof.
  intros (_ & _ & _ & Hs & Hb). unfold cnf1_value.
  rewrite (u32_id (sjw bt - 1)), (u32_id (brp bt - 1)) by lia.
  rewrite Z.shiftl_mul_pow2 by lia. change (2 ^ 6) with 64.
  rewrite (u32_id ((sjw bt - 1) * 64)) by lia.
  rewrite Z.lor_comm. rewrite <- (Z.shiftl_mul_pow2 _ 6) by lia.
  rewrite lor_low_shiftl by (change (2 ^ 6) with 64; lia).
  change (2 ^ 6) with 64. rewrite u8_id by lia.
  rewrite ?Z.shiftl_mul_pow2 by lia. change (2 ^ 6) with 64. lia.
Qed.

Lemma cnf3_byte bt :
  bittiming_in_range bt -> u8 (u32 (phase_seg2 bt - 1)) = cnf3_value bt.
Proof.
  intros (_ & _ & Hp & _). unfold cnf3_value.
  rewrite u32_id, u8_id by lia. reflexivity.
Qed.

Lemma cnf2_byte bt ctrl :
  bittiming_in_range bt ->
  u8 (Z.lor (Z.lor (Z.lor CNF2_BTLMODE
                          (if nonzero (Z.land ctrl CAN_CTRLMODE_3_SAMPLES)
                           then CNF2_SAM else 0))
                   (u32 (Z.shiftl (u32 (phase_seg1 bt - 1)) 3)))
            (u32 (prop_seg bt - 1))) = cnf2_value bt ctrl.
Proof.
  intros (Hp & Hs1 & _). unfold cnf2_value.
  change CAN_CTRLMODE_3_SAMPLES with (BIT 2). rewrite nonzero_land_BIT by lia.
  rewrite (u32_id (phase_seg1 bt - 1)), (u32_id (prop_seg bt - 1)) by lia.
  rewrite Z.shiftl_mul_pow2 by lia. change (2 ^ 3) with 8.
  rewrite (u32_id ((phase_seg1 bt - 1) * 8)) by lia.
  set (hi := Z.lor CNF2_BTLMODE (if Z.testbit ctrl 2 then CNF2_SAM else 0)).
  assert (Hhi : hi = (if Z.testbit ctrl 2 then 3 else 2) * 64)
    by (subst hi; destruct (Z.testbit ctrl 2); reflexivity).
  rewrite <- (Z.shiftl_mul_pow2 _ 3) by lia.
  rewrite (Z.lor_comm hi), (Z.lor_comm _ (prop_seg bt - 1)), Z.lor_assoc.
  rewrite (lor_low_shiftl (prop_seg bt - 1)) by (change (2 ^ 3) with 8; lia).
  change (2 ^ 3) with 8. rewrite Hhi.
  rewrite <- (Z.shiftl_mul_pow2 _ 6) by lia.
  rewrite lor_low_shiftl by (change (2 ^ 6) with 64; lia).
  change (2 ^ 6) with 64.
  rewrite u8_id by (destruct (Z.testbit ctrl 2); lia).
  rewrite ?Z.shiftl_mul_pow2 by lia. change (2 ^ 3) with 8. change (2 ^ 6) with 64.
  destruct (Z.testbit ctrl 2); lia.
Qed.

Lemma nonzero_false_inv x : nonzero x = false -> x = 0.
Proof. unfold nonzero. destruct (Z.eqb_spec x 0); [auto | discriminate]. Qed.

Lemma nonzero_true_inv x : nonzero x = true -> x <> 0.
Proof. unfold nonzero. destruct (Z.eqb_spec x 0); [discriminate | auto]. Qed.

Lemma votes_cancel x y log :
  votes x ((y, false) :: (y, true) :: log) = votes x log.
Proof. cbn [votes]. destruct (regulator_eqb y x); lia. Qed.

(** Close the goal about a finished run [H : Some (_, _) = Some (r, h')]. *)
Lemma some_pair_inv {A B} (a c : A) (b d : B) :
  Some (a, b) = Some (c, d) -> a = c /\ b = d.
Proof. intros E. injection E. auto. Qed.

Ltac kdone H :=
  apply some_pair_inv in H as [<- <-];
  cbv [config_kept core_kept core state ctrlmode bittiming power transceiver
       irq_requested candev_open candev_registered sync_log regulator_log
       dev_err_log HZ answers priv dev tx_buf set_tx_buf].

Lemma chip_start_inv h r h' :
  mcp2515_chip_start h = Some (r, h') ->
  length (tx_buf (priv (core h))) = 14%nat ->
  config_kept h h' /\ core_kept h h' /\
  irq_requested h' = irq_requested h /\ candev_open h' = candev_open h /\
  (r = 0 ->
     state h' = CAN_STATE_ERROR_ACTIVE /\
     regulator_log h' =
       match transceiver h with Some x => [(x, true)] | None => [] end
       ++ regulator_log h /\
     (bittiming_in_range (bittiming h) ->
      exists later,
        sync_log h' =
          later ++ chip_start_messages (bittiming h) (ctrlmode h) ++ sync_log h /\
        Forall (fun m => m = [MCP2515_INSTRUCTION_READ; CANSTAT]) later) /\
     exists a, In a (answers h) /\ ans_ret a = 0 /\
       Z.land (u8 (rd (ans_data a) 0)) CANCTRL_REQOP_MASK =
       requested_mode (ctrlmode h)) /\
  (r <> 0 ->
     state h' = state h /\
     forall x, votes x (regulator_log h') = votes x (regulator_log h)).
Proof.
  intros H Hlen. unfold mcp2515_chip_start in H. destruct_host h.
  pose proof (mode_byte ctrlmode0) as Hmode. cbv zeta in Hmode.
  krun H; rewrite ?Hmode in H.
  1-3: kdone H; repeat split; intros; try reflexivity;
       try (exfalso; match goal with
            | H : ?x = 0, E : nonzero ?x = true |- _ => rewrite H in E; discriminate E
            end).
  all: kwait H; krun H.
  all: kdone H; repeat split; intros; try reflexivity;
       try (exfalso; match goal with
            | H : ?x = 0, E : nonzero ?x = true |- _ => rewrite H in E; discriminate E
            | H : 0 <> 0 |- _ => apply H; reflexivity
            end).
  all: clear Hmode.
  all: try apply votes_cancel.
  all: try (destruct (Hok (nonzero_false_inv _ E2)) as (b & Hin & Hb);
            exists b; split; [cbn [In]; tauto | exact Hb]).
  all: destruct Hlog as (later & -> & HF); exists later; split; [|exact HF].
  all: cbn in Hlen; destruct_buf Hlen.
  all: unfold chip_start_messages; cbn [app]; do 4 f_equal.
  all: cbv [firstn insert list_insert].
  all: rewrite ?u8_requested_mode, ?cnf1_byte, ?cnf2_byte, ?cnf3_byte by assumption.
  all: reflexivity.
Qed.

(** *** Opening and closing the device *)

Lemma core_kept_buf h h' :
  core_kept h h' ->
  exists buf, core h' = World (set_tx_buf buf (priv (core h))) (dev (core h)).
Proof.
  intros [Hp Hd]. exists (tx_buf (priv (core h'))).
  destruct (core h') as [p d]. cbn in *. now rewrite <- Hp, <- Hd.
Qed.

Lemma votes_app x l1 l2 : votes x (l1 ++ l2) = votes x l1 + votes x l2.
Proof.
  induction l1 as [|[y on] l1 IH]; cbn [app votes]; [reflexivity|].
  rewrite IH. lia.
Qed.

(** The call of [mcp2515_chip_start] the run in [H] has reached, on a
    device whose transmit buffer has the length [Hlen] states. *)
Ltac kstart H Hlen :=
  match type of H with
  | context [mcp2515_chip_start ?h] =>
    let r := fresh "r" in let h1 := fresh "h" in
    let Hs := fresh "Hs" in let Hcfg := fresh "Hcfg" in
    let Hcore := fresh "Hcore" in let Hok := fresh "Hok" in
    let Hfail := fresh "Hfail" in let buf := fresh "buf" in
    destruct (mcp2515_chip_start h) as [[r h1]|] eqn:Hs; [|discriminate H];
    apply chip_start_inv in Hs; [|exact Hlen];
    destruct Hs as (Hcfg & Hcore & Hirq & Hopen & Hok & Hfail);
    apply core_kept_buf in Hcore as (buf & Hcore);
    destruct h1;
    cbv [config_kept core state ctrlmode bittiming power transceiver
         irq_requested candev_open candev_registered regulator_log HZ
         sync_log answers priv dev] in Hcfg, Hcore, Hirq, Hopen, Hok, Hfail;
    destruct Hcfg as (-> & -> & -> & -> & -> & ->);
    subst
  end.

(** A branch the conditions met so far exclude. *)
Ltac kcontra :=
  exfalso;
  match goal with
  | H : ?x = 0, E : nonzero ?x = true |- _ => rewrite H in E; discriminate E
  | H : 0 <> 0 |- _ => apply H; reflexivity
  | H : ?x <> 0, E : nonzero ?x = false |- _ => apply H, nonzero_false_inv, E
  | E : nonzero ?x = true, E0 : (?x =? 0) = true |- _ =>
    apply Z.eqb_eq in E0; rewrite E0 in E; discriminate E
  | E : nonzero ?x = false, E0 : (?x =? 0) = false |- _ =>
    apply nonzero_false_inv in E; rewrite E in E0; discriminate E0
  end.

(** Unfold the vocabulary on a device whose fields are named. *)
Ltac kvocab :=
  cbv [config_kept core_kept last_sync vote_for
       core state ctrlmode bittiming power transceiver
       irq_requested candev_open candev_registered sync_log regulator_log
       dev_err_log HZ answers priv dev tx_buf set_tx_buf set_queue_stopped
       queue_stopped head] in *.

(** What [mcp2515_chip_start] did, by the result the run went on with. *)
Ltac kresult :=
  try match goal with
  | Hok : ?r = 0 -> _, E : nonzero ?r = false |- _ =>
    destruct (Hok (nonzero_false_inv _ E)) as (-> & -> & _); clear Hok
  end;
  try match goal with
  | Hfail : ?r <> 0 -> _, E : nonzero ?r = true |- _ =>
    let Hv := fresh "Hv" in
    destruct (Hfail (nonzero_true_inv _ E)) as (-> & Hv); clear Hfail
  end.

(** Count the votes of a regulator log. *)
Ltac kvotes :=
  repeat match goal with
  | |- context [match ?t with Some _ => _ | None => _ end] => is_var t; destruct t
  end;
  cbn [votes app];
  repeat match goal with
  | Hv : forall x, votes x _ = _ |- _ => rewrite Hv; clear Hv
  end;
  cbn [votes app];
  repeat match goal with
  | |- context [regulator_eqb ?a ?b] => destruct (regulator_eqb a b)
  end;
  lia.

Lemma open_core h r h' :
  mcp2515_open h = Some (r, h') ->
  length (tx_buf (priv (core h))) = 14%nat ->
  irq_requested h = false -> candev_open h = false ->
  (exists buf, priv (core h') = set_tx_buf buf (priv (core h))) /\
  (r = 0 -> dev (core h') = set_queue_stopped false (dev (core h))).
Proof.
  intros H Hlen Hirq Hopen. unfold mcp2515_open, open_failed in H.
  destruct_host h. cbn in Hlen, Hirq, Hopen. subst.
  krun H; try solve [kcontra].
  all: try (kstart H Hlen; krun H; kresult).
  all: kdone H; kvocab.
  all: repeat split; intros; try reflexivity; try solve [kcontra]; eauto.
  all: kvotes.
Qed.

(** The device leaves at least [n] answers of the kernel. *)
Tactic Notation "kanswers" hyp(Hn) integer(n) :=
  do n (match goal with
        | l : list answer |- _ =>
          destruct l as [|? l]; [cbn [length] in Hn; lia|]
        end).

(** Run the call the goal is about, which returns. *)
Ltac kcall call :=
  let H := fresh "H" in let r := fresh "r" in let h1 := fresh "h" in
  destruct call as [[r h1]|] eqn:H;
  cbv [mcp2515_close mcp2515_chip_stop mcp2515_set_mode
       mcp2515_register_candev] in H;
  krun H; try discriminate H;
  apply some_pair_inv in H as [<- <-].

Ltac ktotal :=
  match goal with
  | |- exists h', ?call = Some (_, h') /\ _ =>
    kcall call; eexists; (split; [reflexivity|])
  | |- exists r h', ?call = Some (r, h') /\ _ =>
    kcall call; do 2 eexists; (split; [reflexivity|])
  end.

Lemma close_core h :
  (4 <= length (answers h))%nat ->
  exists h',
    mcp2515_close h = Some (0, h') /\
    irq_requested h' = false /\ candev_open h' = false /\
    core h' = World (priv (core h)) (set_queue_stopped true (dev (core h))).
Proof.
  intros Hn. destruct_host h. cbn [answers] in Hn. kanswers Hn 4.
  destruct power0, transceiver0; ktotal.
  all: kvocab; repeat split; intros; try reflexivity.
  all: kvotes.
Qed.

(** *** Registration *)

Lemma rd_read1 data : rd (u8 <$> take 1 (data ++ replicate 1 0)) 0 = u8 (rd data 0).
Proof. destruct data; reflexivity. Qed.

Lemma detect_cond s c e1 e2 :
  negb ((Z.land s 0xee =? 0x80) && (Z.land c 0x17 =? 0x07))
  || nonzero (Z.lor (Z.lor 0 e1) e2) =
  negb (chip_detected s c && (e1 =? 0) && (e2 =? 0)).
Proof.
  unfold chip_detected, nonzero. rewrite Z.lor_0_l.
  destruct ((Z.land s 0xee =? 0x80) && (Z.land c 0x17 =? 0x07)); cbn [negb orb andb].
  2: reflexivity.
  f_equal.
  destruct (Z.eqb_spec (Z.lor e1 e2) 0) as [E|E].
  - apply Z.lor_eq_0_iff in E as [-> ->]. reflexivity.
  - destruct (Z.eqb_spec e1 0) as [->|]; [|reflexivity].
    destruct (Z.eqb_spec e2 0) as [->|]; [|reflexivity].
    now contradiction E.
Qed.

Lemma register_candev_spec h pre a_stat a_ctrl a_reg rest :
  answers h = pre ++ a_stat :: a_ctrl :: a_reg :: rest ->
  length pre = match power h with Some _ => 2%nat | None => 1%nat end ->
  (2 <= length rest)%nat ->
  candev_registered h = false ->
  let found :=
    chip_detected (u8 (rd (ans_data a_stat) 0)) (u8 (rd (ans_data a_ctrl) 0))
    && (ans_ret a_stat =? 0) && (ans_ret a_ctrl =? 0) in
  exists r h',
    mcp2515_register_candev h = Some (r, h') /\
    r = (if found then ans_ret a_reg else - ENODEV) /\
    candev_registered h' = found && (ans_ret a_reg =? 0) /\
    core h' = core h /\ state h' = state h /\
    irq_requested h' = irq_requested h /\ candev_open h' = candev_open h /\
    last_sync h' = Some sleep_message /\
    forall x, votes x (regulator_log h') = votes x (regulator_log h).
Proof.
  intros Ha Hpre Hrest Hreg found. subst found. destruct_host h.
  cbn in Ha, Hpre, Hreg. subst.
  destruct rest as [|? [|? rest]]; try (cbn in Hrest; lia).
  destruct power0; repeat (destruct pre as [|? pre]; try discriminate Hpre);
    cbn [app]; ktotal.
  all: rewrite ?rd_read1, detect_cond in E.
  all: kvocab; destruct (chip_detected _ _ && _ && _); try discriminate E.
  all: cbn [andb]; repeat split; intros; try reflexivity; try solve [kvotes].
  all: match goal with
       | E : nonzero ?x = true |- _ = (?x =? 0) =>
         now rewrite (nonzero_true_eqb _ E)
       | E : nonzero ?x = false |- _ = (?x =? 0) =>
         now rewrite (nonzero_false_eqb _ E)
       | E : nonzero ?x = false |- 0 = ?x =>
         symmetry; exact (nonzero_false_inv _ E)
       end.
Qed.

(** *** The device operations *)

Lemma cnf_fields bt ctrl :
  bittiming_in_range bt ->
  cnf1_value bt / 64 + 1 = sjw bt /\ cnf1_value bt mod 64 + 1 = brp bt /\
  cnf2_value bt ctrl / 64 = 2 + (if Z.testbit ctrl 2 then 1 else 0) /\
  cnf2_value bt ctrl / 8 mod 8 + 1 = phase_seg1 bt /\
  cnf2_value bt ctrl mod 8 + 1 = prop_seg bt /\
  cnf3_value bt + 1 = phase_seg2 bt.
Proof.
  unfold bittiming_in_range, cnf1_value, cnf2_value, cnf3_value.
  intros (H1 & H2 & H3 & H4 & H5).
  destruct (Z.testbit ctrl 2); repeat split; Z.div_mod_to_equations; lia.
Qed.

(** X14: when [mcp2515_chip_start] succeeds on a bit timing within the
    register ranges, it has sent exactly the reset instruction, one write of
    CNF3, CNF2, CNF1 and CANINTE (0x3f), one write of RXB0CTRL and RXB1CTRL
    (0x64, 0x60) and one write of CANCTRL, followed only by reads of
    CANSTAT. The three CNF bytes hold each bit-timing field less one in its
    own bit field, so the timing can be read back from them, and the CANCTRL
    byte is the bare operating mode: the one-shot bit is never written,
    whatever the control mode. *)
Theorem chip_start_programs_chip h h' :
  mcp2515_chip_start h = Some (0, h') ->
  length (tx_buf (priv (core h))) = 14%nat ->
  bittiming_in_range (bittiming h) ->
  (exists polls,
     sync_log h' =
       polls ++ chip_start_messages (bittiming h) (ctrlmode h) ++ sync_log h /\
     Forall (fun m => m = [MCP2515_INSTRUCTION_READ; CANSTAT]) polls) /\
  Z.land (requested_mode (ctrlmode h)) CANCTRL_OSM = 0 /\
  cnf1_value (bittiming h) / 64 + 1 = sjw (bittiming h) /\
  cnf1_value (bittiming h) mod 64 + 1 = brp (bittiming h) /\
  cnf2_value (bittiming h) (ctrlmode h) / 64 =
    2 + (if Z.testbit (ctrlmode h) 2 then 1 else 0) /\
  cnf2_value (bittiming h) (ctrlmode h) / 8 mod 8 + 1 = phase_seg1 (bittiming h) /\
  cnf2_value (bittiming h) (ctrlmode h) mod 8 + 1 = prop_seg (bittiming h) /\
  cnf3_value (bittiming h) + 1 = phase_seg2 (bittiming h).
Proof.
  intros H Hlen Hbt.
  destruct (chip_start_inv h 0 h' H Hlen) as (_ & _ & _ & _ & Hok & _).
  destruct (Hok eq_refl) as (_ & _ & Hlog & _).
  split; [exact (Hlog Hbt)|].
  split; [|exact (cnf_fields _ _ Hbt)].
  destruct (requested_mode_cases (ctrlmode h)) as [-> | [-> | ->]]; reflexivity.
Qed.

Lemma chip_start_programs_chip_witness :
  exists h',
    mcp2515_chip_start (host0 [ok; ok; ok; ok; ok; ok; ok]) = Some (0, h') /\
    sync_log h' =
      [[0x03; 0x0e]; [0x02; 0x0f; 0x00]; [0x02; 0x60; 0x64; 0x60];
       [0x02; 0x28; 5; 177; 3; 0x3f]; [0xc0]].
Proof.
  eexists. split; [vm_compute; reflexivity|].
  match goal with |- sync_log ?h' = _ =>
    destruct (chip_start_programs_chip (host0 [ok; ok; ok; ok; ok; ok; ok]) h')
      as ((polls & Hlog & _) & _)
  end.
  - vm_compute. reflexivity.
  - reflexivity.
  - unfold bittiming_in_range. cbn. lia.
  - reflexivity.
Defined.

(** X15: [mcp2515_chip_start] touches nothing of the asynchronous core but
    the bytes of the shared transmit buffer, and nothing of the
    configuration. When it returns 0 the state is error-active, the
    transceiver supply has been enabled once more than disabled, and a read
    of CANSTAT succeeded and reported the requested mode. When it returns
    an error the state is what it was and every regulator it enabled has
    been disabled again. *)
Theorem chip_start_outcome h r h' :
  mcp2515_chip_start h = Some (r, h') ->
  length (tx_buf (priv (core h))) = 14%nat ->
  core_kept h h' /\ config_kept h h' /\
  irq_requested h' = irq_requested h /\ candev_open h' = candev_open h /\
  (r = 0 ->
     state h' = CAN_STATE_ERROR_ACTIVE /\
     (forall x, votes x (regulator_log h') =
        votes x (regulator_log h) + vote_for (transceiver h) x) /\
     exists a, In a (answers h) /\ ans_ret a = 0 /\
       Z.land (u8 (rd (ans_data a) 0)) CANCTRL_REQOP_MASK =
       requested_mode (ctrlmode h)) /\
  (r <> 0 ->
     state h' = state h /\
     forall x, votes x (regulator_log h') = votes x (regulator_log h)).
Proof.
  intros H Hlen.
  destruct (chip_start_inv h r h' H Hlen) as (Hcfg & Hcore & Hirq & Hopen & Hok & Hfail).
  split; [exact Hcore|]. split; [exact Hcfg|].
  split; [exact Hirq|]. split; [exact Hopen|].
  split; [|exact Hfail].
  intros Hr. destruct (Hok Hr) as (Hst & Hreg & _ & Hans).
  split; [exact Hst|]. split; [|exact Hans].
  intros x. rewrite Hreg. unfold vote_for.
  destruct (transceiver h) as [y|]; cbn [app votes]; [|lia].
  destruct (regulator_eqb y x); lia.
Qed.

Lemma chip_start_outcome_witness :
  exists r h',
    mcp2515_chip_start
      (host0 [ok; ok; ok; ok; ok; Answer 0 []; Answer 0 [0x80];
              Answer 251 []; ok]) = Some (r, h') /\
    r = - EBUSY /\ state h' = CAN_STATE_STOPPED /\
    votes Xceiver (regulator_log h') = 0.
Proof.
  do 2 eexists. split; [vm_compute; reflexivity|].
  split; [reflexivity|].
  match goal with |- state ?h' = _ /\ _ =>
    destruct (chip_start_outcome
                (host0 [ok; ok; ok; ok; ok; Answer 0 []; Answer 0 [0x80];
                        Answer 251 []; ok]) (- EBUSY) h')
      as (_ & _ & _ & _ & _ & Hfail)
  end.
  - vm_compute. reflexivity.
  - reflexivity.
  - destruct (Hfail ltac:(discriminate)) as (Hst & Hv).
    split; [exact Hst | exact (Hv Xceiver)].
Defined.

(** X16: when [mcp2515_open] returns, on a device that held neither the
    interrupt nor the CAN device, it has either succeeded, with both held,
    the chip started and the kernel's transmit queue running, or failed with
    everything released again: interrupt and CAN device not held, the state
    and the network device as before, and the chip sent to sleep by the last
    message. On success [regulator_enable] has been called once more than
    [regulator_disable] on each supply the driver holds; on failure every
    such call has been paired with a [regulator_disable]. What
    [regulator_enable] answers is not looked at: [mcp2515_open] also
    returns 0 when both calls fail, so success does not mean that a supply
    is on. In both cases the asynchronous state (ring, busy maps, scheduler
    flags, timer) is what it was. *)
Theorem open_all_or_nothing h r h' :
  mcp2515_open h = Some (r, h') ->
  length (tx_buf (priv (core h))) = 14%nat ->
  irq_requested h = false -> candev_open h = false ->
  config_kept h h' /\
  (exists buf, priv (core h') = set_tx_buf buf (priv (core h))) /\
  (r = 0 ->
     irq_requested h' = true /\ candev_open h' = true /\
     state h' = CAN_STATE_ERROR_ACTIVE /\
     dev (core h') = set_queue_stopped false (dev (core h)) /\
     forall x, votes x (regulator_log h') =
       votes x (regulator_log h) + vote_for (power h) x +
       vote_for (transceiver h) x) /\
  (r <> 0 ->
     irq_requested h' = false /\ candev_open h' = false /\
     state h' = state h /\ dev (core h') = dev (core h) /\
     last_sync h' = Some sleep_message /\
     forall x, votes x (regulator_log h') = votes x (regulator_log h)).
Proof.
  intros H Hlen Hirq Hopen. unfold mcp2515_open, open_failed in H.
  destruct_host h. cbn in Hlen, Hirq, Hopen. subst.
  krun H; try solve [kcontra].
  all: try (kstart H Hlen; krun H; kresult).
  all: kdone H; kvocab.
  all: repeat split; intros; try reflexivity; try solve [kcontra]; eauto.
  all: kvotes.
Qed.

Lemma open_all_or_nothing_witness :
  let answers := [Answer (-5) []; ok; ok; ok; ok; ok; Answer (-5) []; ok;
                  Answer 0 []; Answer 0 [0]] in
  exists h',
    mcp2515_open (host0 answers) = Some (0, h') /\
    irq_requested h' = true /\ candev_open h' = true /\
    queue_stopped (dev (core h')) = false /\
    votes Vdd (regulator_log h') = 1 /\
    votes Xceiver (regulator_log h') = 1.
Proof.
  intros answers. eexists. split; [vm_compute; reflexivity|].
  match goal with |- irq_requested ?h' = _ /\ _ =>
    destruct (open_all_or_nothing (host0 answers) 0 h')
      as (_ & _ & Hok & _)
  end.
  - vm_compute. reflexivity.
  - reflexivity.
  - reflexivity.
  - reflexivity.
  - destruct (Hok eq_refl) as (Hirq & Hopen & _ & Hdev & Hv).
    split; [exact Hirq|]. split; [exact Hopen|].
    split; [rewrite Hdev; reflexivity|].
    split; [exact (Hv Vdd) | exact (Hv Xceiver)].
Defined.

(** X17: [mcp2515_close] returns 0 whatever the kernel answers to the at
    most four calls it makes (two SPI writes, two regulator calls). Afterwards the kernel's queue is stopped, the
    state is stopped, interrupt and CAN device are released, each supply has
    one vote less and the last message put the chip to sleep. It does not
    touch the driver's asynchronous state: a message in flight stays in
    flight, the polling timer stays armed, and the transmit ring, the busy
    and pending maps and the scheduler flags are what they were. *)
Theorem close_releases_device h :
  (4 <= length (answers h))%nat ->
  exists h',
    mcp2515_close h = Some (0, h') /\
    config_kept h h' /\
    state h' = CAN_STATE_STOPPED /\
    irq_requested h' = false /\ candev_open h' = false /\
    core h' = World (priv (core h)) (set_queue_stopped true (dev (core h))) /\
    last_sync h' = Some sleep_message /\
    forall x, votes x (regulator_log h') =
      votes x (regulator_log h) - vote_for (power h) x -
      vote_for (transceiver h) x.
Proof.
  intros Hn. destruct_host h. cbn [answers] in Hn. kanswers Hn 4.
  destruct power0, transceiver0; ktotal.
  all: kvocab; repeat split; intros; try reflexivity.
  all: kvotes.
Qed.

Lemma close_releases_device_witness :
  exists h',
    mcp2515_close (host0 [Answer (-5) []; ok; Answer (-5) []; ok]) =
      Some (0, h') /\
    state h' = CAN_STATE_STOPPED /\ timer (priv (core h')) = None.
Proof.
  destruct (close_releases_device
              (host0 [Answer (-5) []; ok; Answer (-5) []; ok]))
    as (h' & H & _ & Hst & _ & _ & Hcore & _).
  - cbn. lia.
  - exists h'. split; [exact H|]. split; [exact Hst|].
    rewrite Hcore. reflexivity.
Defined.

(** X18: closing and opening the device again does not reset the transmit
    ring. After [mcp2515_close] and a successful [mcp2515_open] the
    asynchronous state is the one before the close, apart from the bytes of
    the transmit buffer, while the kernel's queue runs again. So if all
    three slots were busy at the close, the next valid frame handed to
    [mcp2515_start_xmit] finds no free slot and stores at index 3 of the
    three-entry ring. *)
Theorem reopen_keeps_transmit_ring h r1 h1 h2 :
  (4 <= length (answers h))%nat ->
  length (tx_buf (priv (core h))) = 14%nat ->
  mcp2515_close h = Some (r1, h1) ->
  mcp2515_open h1 = Some (0, h2) ->
  (exists buf, priv (core h2) = set_tx_buf buf (priv (core h))) /\
  queue_stopped (dev (core h2)) = false /\
  (tx_busy_map (priv (core h)) = 7 ->
   length (skb (priv (core h))) = 3%nat ->
   forall s k, can_dropped_invalid_skb s = false ->
     mcp2515_start_xmit s k (core h2) = Fault (OutOfBounds 3)).
Proof.
  intros Hn Hlen Hclose Hopen.
  destruct (close_core h Hn) as (h' & Hc & Hirq & Hcd & Hcore).
  rewrite Hclose in Hc. injection Hc as -> <-.
  assert (Hlen1 : length (tx_buf (priv (core h1))) = 14%nat)
    by (rewrite Hcore; exact Hlen).
  destruct (open_core h1 0 h2 Hopen Hlen1 Hirq Hcd) as ((buf & Hp) & Hd).
  specialize (Hd eq_refl).
  rewrite Hcore in Hp, Hd. cbn [priv dev] in Hp, Hd.
  split; [exists buf; exact Hp|].
  split; [rewrite Hd; reflexivity|].
  intros Hmap Hskb s k Hs.
  apply start_xmit_out_of_bounds with (m := 7); [exact Hs| |].
  - rewrite Hp. destruct (priv (core h)); cbn in Hmap |- *. rewrite Hmap.
    reflexivity.
  - rewrite Hp. destruct (priv (core h)); cbn in Hskb |- *. rewrite Hskb.
    cbn. lia.
Qed.

Lemma reopen_keeps_transmit_ring_witness :
  let h := set_core (with_priv (set_tx_busy_map 7) world0) (host0 (replicate 14 ok)) in
  let s := SkBuff (CanFrame 0x123 2 [1; 2; 3; 4; 5; 6; 7; 8]) in
  exists h1 h2,
    mcp2515_close h = Some (0, h1) /\ mcp2515_open h1 = Some (0, h2) /\
    queue_stopped (dev (core h2)) = false /\
    mcp2515_start_xmit s (Env 0 None) (core h2) = Fault (OutOfBounds 3).
Proof.
  intros h s.
  set (h1 := match mcp2515_close h with Some (_, x) => x | None => h end).
  set (h2 := match mcp2515_open h1 with Some (_, x) => x | None => h1 end).
  assert (Hc : mcp2515_close h = Some (0, h1)) by (vm_compute; reflexivity).
  assert (Ho : mcp2515_open h1 = Some (0, h2)) by (vm_compute; reflexivity).
  assert (Hn : (4 <= length (answers h))%nat) by (cbn; lia).
  destruct (reopen_keeps_transmit_ring h 0 h1 h2 Hn eq_refl Hc Ho)
    as (_ & Hq & Hx).
  exists h1, h2. split; [exact Hc|]. split; [exact Ho|]. split; [exact Hq|].
  apply Hx; reflexivity.
Defined.

(** X19: [mcp2515_set_mode] supports only a restart. Any other mode is
    refused with [-EOPNOTSUPP] and nothing is sent or changed. A restart
    runs [mcp2515_chip_start]; when that succeeds the kernel's queue is
    woken and the state is error-active, while the transmit ring, the busy
    maps and the scheduler flags keep their values; when it fails the
    queue and the state are left as they were. *)
Theorem set_mode_restart_only mode h r h' :
  mcp2515_set_mode mode h = Some (r, h') ->
  length (tx_buf (priv (core h))) = 14%nat ->
  (mode <> CAN_MODE_START -> r = - EOPNOTSUPP /\ h' = h) /\
  (mode = CAN_MODE_START ->
     (exists buf, priv (core h') = set_tx_buf buf (priv (core h))) /\
     (r = 0 ->
        state h' = CAN_STATE_ERROR_ACTIVE /\
        dev (core h') = set_queue_stopped false (dev (core h))) /\
     (r <> 0 -> state h' = state h /\ dev (core h') = dev (core h))).
Proof.
  intros H Hlen. destruct mode; cbn [mcp2515_set_mode] in H.
  1, 3: split; [intros _|discriminate]; injection H as <- <-; now split.
  split; [intros Hm; now contradiction Hm|intros _].
  destruct_host h. cbn in Hlen.
  krun H; kstart H Hlen; krun H; kresult; try solve [kcontra].
  all: kdone H; kvocab.
  all: repeat split; intros; try reflexivity; try solve [kcontra]; eauto.
Qed.

Lemma set_mode_restart_only_witness :
  exists r h',
    mcp2515_set_mode CAN_MODE_SLEEP (host0 []) = Some (r, h') /\
    r = -95 /\ h' = host0 [].
Proof.
  do 2 eexists. split; [reflexivity|].
  destruct (set_mode_restart_only CAN_MODE_SLEEP (host0 []) (-95) (host0 []))
    as (H & _).
  - reflexivity.
  - reflexivity.
  - exact (H ltac:(discriminate)).
Defined.

(** X20: [mcp2515_register_candev] registers the device only when both
    status reads succeeded and the chip answered with its power-up
    defaults, [(CANSTAT & 0xee) == 0x80] and [(CANCTRL & 0x17) == 0x07];
    otherwise it returns [-ENODEV] without calling [register_candev]. A bus
    that reads all zeros or all ones is therefore rejected. Whatever the
    outcome, the chip is sent to sleep by the last message, the supply is
    switched off again, and the asynchronous state is untouched. *)
Theorem register_candev_detection h pre a_stat a_ctrl a_reg rest :
  answers h = pre ++ a_stat :: a_ctrl :: a_reg :: rest ->
  length pre = match power h with Some _ => 2%nat | None => 1%nat end ->
  (2 <= length rest)%nat ->
  candev_registered h = false ->
  let found :=
    chip_detected (u8 (rd (ans_data a_stat) 0)) (u8 (rd (ans_data a_ctrl) 0))
    && (ans_ret a_stat =? 0) && (ans_ret a_ctrl =? 0) in
  (exists r h',
     mcp2515_register_candev h = Some (r, h') /\
     r = (if found then ans_ret a_reg else - ENODEV) /\
     candev_registered h' = found && (ans_ret a_reg =? 0) /\
     core h' = core h /\ state h' = state h /\
     irq_requested h' = irq_requested h /\ candev_open h' = candev_open h /\
     last_sync h' = Some sleep_message /\
     forall x, votes x (regulator_log h') = votes x (regulator_log h)) /\
  (forall c, chip_detected 0x00 c = false) /\
  (forall c, chip_detected 0xff c = false).
Proof.
  intros Ha Hpre Hrest Hreg found.
  split; [exact (register_candev_spec h pre a_stat a_ctrl a_reg rest Ha Hpre Hrest Hreg)|].
  split; intros c; reflexivity.
Qed.

Lemma register_candev_detection_witness :
  exists h',
    mcp2515_register_candev
      (host0 [ok; ok; Answer 0 [0x80]; Answer 0 [0x87]; ok; ok; ok]) =
      Some (0, h') /\
    candev_registered h' = true /\ votes Vdd (regulator_log h') = 0.
Proof.
  destruct (register_candev_detection
              (host0 [ok; ok; Answer 0 [0x80]; Answer 0 [0x87]; ok; ok; ok])
              [ok; ok] (Answer 0 [0x80]) (Answer 0 [0x87]) ok [ok; ok])
    as ((r & h' & H & -> & Hr & _ & _ & _ & _ & _ & Hv) & _).
  - reflexivity.
  - reflexivity.
  - cbn. lia.
  - reflexivity.
  - exists h'. split; [exact H|]. split; [exact Hr | exact (Hv Vdd)].
Defined.

(** ** The queue and the ring across a restart *)

(** C3: the queue can run while all three slots are busy. The device is
    opened and three valid frames are sent on a bus where nobody
    acknowledges them: each is loaded and requested to send, the status read
    that follows reports no flag, and the scheduler goes idle. The ring is
    then full and the queue stopped. A restart with
    [mcp2515_set_mode], or [mcp2515_close] followed by [mcp2515_open],
    starts the queue again and leaves the busy map at 7, so the queue is not
    stopped although no slot is free, and it was not resumed by completion
    accounting. The next valid frame handed to [mcp2515_start_xmit] is then
    stored at index 3 of the three-entry ring. *)
Theorem queue_running_on_full_ring :
  let k := Env 0 None in
  let f := SkBuff (CanFrame 0x123 2 [1; 2; 3; 4; 5; 6; 7; 8]) in
  let z := replicate 14 0 in
  let sent := [EvXmit f k; EvSpiDone z k; EvSpiDone z k; EvSpiDone z k] in
  let up := [ok; ok; ok; ok; ok; ok; ok; ok; Answer 0 []; Answer 0 [0]] in
  let down := [ok; ok; ok; ok] in
  exists h1 w,
    mcp2515_open (host0 (up ++ down ++ up)) = Some (0, h1) /\
    run (sent ++ sent ++ sent) (core h1) = Some w /\
    busy (priv w) = false /\ spi_inflight (dev w) = 0%nat /\
    tx_busy_map (priv w) = 7 /\ queue_stopped (dev w) = true /\
    (exists h2 h3,
       mcp2515_close (set_core w h1) = Some (0, h2) /\
       mcp2515_open h2 = Some (0, h3) /\
       tx_busy_map (priv (core h3)) = 7 /\
       all_slots (tx_busy_map (priv (core h3))) /\
       queue_stopped (dev (core h3)) = false /\
       ~ (queue_stopped (dev (core h3)) = true <->
          all_slots (tx_busy_map (priv (core h3)))) /\
       mcp2515_start_xmit f k (core h3) = Fault (OutOfBounds 3)) /\
    (exists h4,
       mcp2515_set_mode CAN_MODE_START (set_core w h1) = Some (0, h4) /\
       tx_busy_map (priv (core h4)) = 7 /\
       queue_stopped (dev (core h4)) = false /\
       mcp2515_start_xmit f k (core h4) = Fault (OutOfBounds 3)).
Proof.
  intros k f z sent up down.
  assert (Hfull : all_slots 7).
  { intros j Hj. unfold MCP2515_TX_CNT in Hj.
    assert (j = 0 \/ j = 1 \/ j = 2) as [-> | [-> | ->]] by lia; reflexivity. }
  eexists. eexists. split; [vm_compute; reflexivity|].
  split; [vm_compute; reflexivity|].
  split; [reflexivity|]. split; [reflexivity|]. split; [reflexivity|].
  split; [reflexivity|]. split.
  - eexists. eexists. split; [vm_compute; reflexivity|].
    split; [vm_compute; reflexivity|].
    split; [reflexivity|]. split; [exact Hfull|]. split; [reflexivity|].
    split; [|vm_compute; reflexivity].
    intros [_ H]. specialize (H Hfull). discriminate H.
  - eexists. split; [vm_compute; reflexivity|].
    split; [reflexivity|]. split; [reflexivity|]. vm_compute. reflexivity.
Qed.
